(** * The interactive [add] command of changesets: questionnaire and rendering

    A shallow embedding of
    - [packages/cli/src/commands/add/writeChangeTypes.ts]
      ([groupByBumpType], [getReleasesSection], [getChangeTypesSection],
      [getChangesetContent], [writeChangesetList], the class
      [ChangesetsWithChangeTypes], [getDescriptionWithPreviousAnswer],
      [setSummary]), and
    - [createChangeset.ts] ([confirmMajorRelease], [getPackagesToRelease],
      [choosePkgsForBumpType], [createChangeset]).

    Strings are [string]; a JavaScript object used as a dictionary is a
    [gmap string _]; an optional field is an [option].  [chalk] colouring
    is the identity on the text.  Console output ([log], [info], [warn])
    is left out, except the diagnostics that a statement below talks
    about, which are recorded in the trace. *)

From Stdlib Require Import String Ascii List ZArith Lia Bool.
From stdpp Require Import base strings gmap list.

Local Open Scope string_scope.
Local Open Scope list_scope.

(** ** Strings *)

(** The line feed of a template literal or of ["\n"]. *)
Definition LF : string := String "010"%char EmptyString.

(** [Array.prototype.join]. *)
Fixpoint join (sep : string) (xs : list string) : string :=
  match xs with
  | [] => ""
  | [x] => x
  | x :: rest => x +:+ sep +:+ join sep rest
  end.

(** Truthiness of a JavaScript string: every string but the empty one. *)
Definition truthy (s : string) : bool := negb (String.eqb s "").

(** ** Data model ([@changesets/types]) *)

Record ChangeTypeOption := { title : string; text : string }.

Record ChangeType := { description : string; category : ChangeTypeOption }.

(** [type] is a [VersionType] for the type checker and any string at run
    time; [changeTypes] is an optional property. *)
Record Release := {
  name : string;
  type : string;
  changeTypes : option (list ChangeType)
}.

Record ChangesetWithConfirmed := {
  releases : list Release;
  summary : string;
  confirmed : bool
}.

(** ** Bump classifier *)

Record Grouped := {
  major : list Release;
  minor : list Release;
  patch : list Release;
  none : list Release
}.

Definition push {A} (l : list A) (x : A) : list A := l ++ [x].

(** The callback of [releases.forEach] in [groupByBumpType]. *)
Definition groupStep (g : Grouped) (rel : Release) : Grouped :=
  if String.eqb (type rel) "major" then
    {| major := push (major g) rel; minor := minor g; patch := patch g; none := none g |}
  else if String.eqb (type rel) "minor" then
    {| major := major g; minor := push (minor g) rel; patch := patch g; none := none g |}
  else if String.eqb (type rel) "patch" then
    {| major := major g; minor := minor g; patch := push (patch g) rel; none := none g |}
  else
    {| major := push (major g) rel; minor := minor g; patch := patch g; none := none g |}.

Definition groupByBumpType (releases : list Release) : Grouped :=
  fold_left groupStep releases
    {| major := []; minor := []; patch := []; none := [] |}.

(** [Object.entries] of the grouped record: own keys in creation order. *)
Definition entries (g : Grouped) : list (string * list Release) :=
  [("major", major g); ("minor", minor g); ("patch", patch g); ("none", none g)].

(** ** Content renderer *)

(** The double quote of the front-matter lines. *)
Definition DQ : string := String "034"%char EmptyString.

Definition releaseLine (release : Release) : string :=
  DQ +:+ name release +:+ DQ +:+ ": " +:+ type release.

Definition getReleasesSection (releases : list Release) : string :=
  "---" +:+ LF +:+ "  " +:+ join LF (map releaseLine releases) +:+ LF
  +:+ "  ---" +:+ LF.

Definition bulletLine (chk : ChangeType) : string :=
  "- [ " +:+ title (category chk) +:+ " ] " +:+ description chk.

(** [rel.changeTypes || []]. *)
Definition changeTypesOrEmpty (rel : Release) : list ChangeType :=
  match changeTypes rel with
  | Some cts => cts
  | None => []
  end.

(** [bumpType] is the optional second argument; an empty string is falsy
    and takes the [else] branch like a missing argument. *)
Definition getChangeTypesSection (releases : list Release) (bumpType : option string) : string :=
  let changeTypes :=
    match bumpType with
    | Some b =>
        if truthy b then
          match filter (fun r => type r = b) releases with
          | oneRelease :: _ => changeTypesOrEmpty oneRelease
          | [] => []
          end
        else flat_map changeTypesOrEmpty releases
    | None => flat_map changeTypesOrEmpty releases
    end in
  join LF (map bulletLine (filter (fun chk => truthy (description chk) = true) changeTypes)) +:+ LF.

(** [rel => rel.changeTypes]: an array, even an empty one, is truthy. *)
Definition hasChangeTypes (rel : Release) : bool :=
  match changeTypes rel with
  | Some _ => true
  | None => false
  end.

(** The two lines and the summary that close both templates. *)
Definition summaryBlock (summary : string) : string :=
  LF +:+ "  " +:+ LF +:+ "  " +:+ summary +:+ LF +:+ "  ".

(** [null] is [None]. *)
Definition getChangesetContent (releases : list Release) (summary : string)
    (splitReleasesByBumpType : bool) : option string :=
  if splitReleasesByBumpType && existsb hasChangeTypes releases then
    let grouped :=
      filter (fun e => snd e <> []) (entries (groupByBumpType releases)) in
    Some (join LF
            (map (fun e =>
                    getReleasesSection (snd e) +:+ LF +:+ "  "
                    +:+ getChangeTypesSection (snd e) (Some (fst e)))
                 grouped)
          +:+ summaryBlock summary)
  else if existsb hasChangeTypes releases then
    Some (getReleasesSection releases +:+ " " +:+ LF +:+ "    "
          +:+ getChangeTypesSection releases None
          +:+ summaryBlock summary)
  else None.

(** ** Packages ([@manypkg/get-packages]) and configuration *)

Module Pkg.

Record PackageJSON := { name : string; version : string }.

Record Package := { packageJson : PackageJSON }.

End Pkg.

(** [commit] holds [getAddMessage] when [getCommitFunctions] finds one for
    the configured commit option, [None] when the option is falsy. *)
Record Config := {
  commit : option (ChangesetWithConfirmed -> string);
  shouldAskForChangeTypes : bool;
  alwaysOpenEditor : bool
}.

(** ** The prompt service, the store and version control as a scripted world *)

(** A choice of [askCheckboxPlus]: a plain entry, or a named group of
    entries, each entry a name and the message shown for it. *)
Inductive Choice :=
| Item (name message : string)
| Group (name : string) (choices : list (string * string)).

Inductive Event :=
| AskQuestion (question answer : string)
| AskQuestionWithEditor (placeholder : string) (answer : option string)
| AskConfirm (question : string) (answer : bool)
| AskList (question : string) (choices : list string) (answer : string)
| AskCheckboxPlus (message : string) (choices : list Choice) (answer : list string)
| LogError (message : string)
| Log (message : string)
| PrintConfirmation (changeset : ChangesetWithConfirmed) (multi : bool)
| WriteChangeset (changeset : ChangesetWithConfirmed) (cwd id : string)
| GitAdd (path cwd : string)
| GitCommit (message cwd : string)
| WarnIfMajor (changeset : ChangesetWithConfirmed)
| DetermineEditorHack (path : string).

(** What the user (and the editor) will answer, one queue per prompt as in
    the mocks of the test suite, and the trace of what happened so far.
    An editor answer of [None] is the editor throwing. *)
Record World := {
  questionAnswers : list string;
  editorAnswers : list (option string);
  confirmAnswers : list bool;
  listAnswers : list string;
  checkboxAnswers : list (list string);
  trace : list Event
}.

(** How a call ends. *)
Inductive Res (A : Type) :=
| Ok (a : A)
| Pending
| ExitError (code : Z)
| Throw (message : string)
| TypeError.
Arguments Ok {A} a.
Arguments Pending {A}.
Arguments ExitError {A} code.
Arguments Throw {A} message.
Arguments TypeError {A}.

(** [Pending]: the prompt is on screen and the script holds no answer for
    it.  [ExitError]: [throw new ExitError(code)].  [Throw]:
    [throw new Error(message)].  [TypeError]: a property read on
    [undefined]. *)
Definition M (A : Type) : Type := World -> Res A * World.

Definition ret {A} (a : A) : M A := fun w => (Ok a, w).

Definition bind {A B} (m : M A) (k : A -> M B) : M B := fun w =>
  match m w with
  | (Ok a, w') => k a w'
  | (Pending, w') => (Pending, w')
  | (ExitError c, w') => (ExitError c, w')
  | (Throw msg, w') => (Throw msg, w')
  | (TypeError, w') => (TypeError, w')
  end.

Definition fail {A} (r : Res A) : M A := fun w => (r, w).

Notation "'let*' x ':=' c 'in' k" := (bind c (fun x => k))
  (at level 10, x pattern, c at level 100, k at level 200).
Notation "c ';;' k" := (bind c (fun _ => k))
  (at level 100, k at level 200, right associativity).

Definition emit (e : Event) : M unit := fun w =>
  (Ok tt,
   {| questionAnswers := questionAnswers w; editorAnswers := editorAnswers w;
      confirmAnswers := confirmAnswers w; listAnswers := listAnswers w;
      checkboxAnswers := checkboxAnswers w; trace := trace w ++ [e] |}).

(** [cli.askQuestion]. *)
Definition askQuestion (question : string) : M string := fun w =>
  match questionAnswers w with
  | a :: rest =>
      (Ok a,
       {| questionAnswers := rest; editorAnswers := editorAnswers w;
          confirmAnswers := confirmAnswers w; listAnswers := listAnswers w;
          checkboxAnswers := checkboxAnswers w;
          trace := trace w ++ [AskQuestion question a] |})
  | [] => (Pending, w)
  end.

(** [cli.askQuestionWithEditor], with the [try]/[catch] around it: the
    result is [None] when the editor threw. *)
Definition askQuestionWithEditor (placeholder : string) : M (option string) := fun w =>
  match editorAnswers w with
  | a :: rest =>
      (Ok a,
       {| questionAnswers := questionAnswers w; editorAnswers := rest;
          confirmAnswers := confirmAnswers w; listAnswers := listAnswers w;
          checkboxAnswers := checkboxAnswers w;
          trace := trace w ++ [AskQuestionWithEditor placeholder a] |})
  | [] => (Pending, w)
  end.

(** [cli.askConfirm]. *)
Definition askConfirm (question : string) : M bool := fun w =>
  match confirmAnswers w with
  | a :: rest =>
      (Ok a,
       {| questionAnswers := questionAnswers w; editorAnswers := editorAnswers w;
          confirmAnswers := rest; listAnswers := listAnswers w;
          checkboxAnswers := checkboxAnswers w;
          trace := trace w ++ [AskConfirm question a] |})
  | [] => (Pending, w)
  end.

(** [cli.askList]. *)
Definition askList (question : string) (choices : list string) : M string := fun w =>
  match listAnswers w with
  | a :: rest =>
      (Ok a,
       {| questionAnswers := questionAnswers w; editorAnswers := editorAnswers w;
          confirmAnswers := confirmAnswers w; listAnswers := rest;
          checkboxAnswers := checkboxAnswers w;
          trace := trace w ++ [AskList question choices a] |})
  | [] => (Pending, w)
  end.

(** [cli.askCheckboxPlus]. *)
Definition askCheckboxPlus (message : string) (choices : list Choice) : M (list string) := fun w =>
  match checkboxAnswers w with
  | a :: rest =>
      (Ok a,
       {| questionAnswers := questionAnswers w; editorAnswers := editorAnswers w;
          confirmAnswers := confirmAnswers w; listAnswers := listAnswers w;
          checkboxAnswers := rest;
          trace := trace w ++ [AskCheckboxPlus message choices a] |})
  | [] => (Pending, w)
  end.

(** [for (const x of xs) body], the loop state threaded through. *)
Fixpoint forOf {A S} (xs : list A) (body : A -> S -> M S) (s : S) : M S :=
  match xs with
  | [] => ret s
  | x :: rest => let* s' := body x s in forOf rest body s'
  end.

(** [s = first; while (cond s) s = again], each round taking one answer:
    [fuel] bounds the rounds and is set from the script by the callers. *)
Fixpoint whileM {S} (fuel : nat) (cond : S -> bool) (again : M S) (s : S) : M S :=
  if cond s then
    match fuel with
    | O => fail Pending
    | S fuel' => let* s' := again in whileM fuel' cond again s'
    end
  else ret s.

(** ** Release selector ([createChangeset.ts]) *)

(** [new Set(xs)]: insertion order, first occurrence kept. *)
Definition setAdd (s : list string) (x : string) : list string :=
  if bool_decide (x ∈ s) then s else s ++ [x].

Definition newSet (xs : list string) : list string := fold_left setAdd xs [].

(** [Set.prototype.delete]. *)
Definition setDelete (s : list string) (x : string) : list string :=
  filter (fun y => y ≠ x) s.

(** [new Map(allPackages.map(({ packageJson }) => [packageJson.name, packageJson]))]:
    a later entry replaces an earlier one with the same key. *)
Definition newPkgMap (allPackages : list Pkg.Package) : gmap string Pkg.PackageJSON :=
  fold_left (fun m p => <[Pkg.name (Pkg.packageJson p) := Pkg.packageJson p]> m)
    allPackages ∅.

Definition formatPkgNameAndVersion (pkgName version : string) : string :=
  pkgName +:+ "@" +:+ version.

Definition getBumpTypeTitle (bumpType : string) : string :=
  "Which packages should have a " +:+ bumpType +:+ " bump?".

(** The table [bumpTypes]: [type] and (coloured) [title] of each entry. *)
Definition bumpTypes : list (string * string) :=
  [("major", "major"); ("minor", "minor"); ("patch", "patch"); ("none", "none")].

(** [packages.map(pkgName => f(pkgName, pkgJsonsByName.get(pkgName)!.version))]:
    reading [version] of a missing entry is a [TypeError]. *)
Fixpoint mapWithVersion {A} (f : string -> string -> A)
    (pkgJsonsByName : gmap string Pkg.PackageJSON) (packages : list string) : M (list A) :=
  match packages with
  | [] => ret []
  | pkgName :: rest =>
      match pkgJsonsByName !! pkgName with
      | Some pkgJson =>
          let* tl := mapWithVersion f pkgJsonsByName rest in
          ret (f pkgName (Pkg.version pkgJson) :: tl)
      | None => fail TypeError
      end
  end.

Definition isGroupLabel (x : string) : bool :=
  String.eqb x "changed packages" || String.eqb x "unchanged packages".

Definition groupSize (c : Choice) : nat :=
  match c with
  | Item _ _ => 0
  | Group _ choices => length choices
  end.

Definition plainChoices (names : list string) : list (string * string) :=
  map (fun n => (n, n)) names.

(** The fields of the class [ChangesetsWithChangeTypes]. *)
Module Collector.

Record t := {
  config : Config;
  isWithChangeTypes : bool;
  releases : list Release;
  chosenChangeTypeList : list ChangeTypeOption;
  changesetList : list ChangesetWithConfirmed
}.

End Collector.

(** [path.resolve(base, file)] for an absolute, normalised [base] without
    a trailing slash and a plain file name. *)
Definition pathResolve (base file : string) : string := base +:+ "/" +:+ file.

Definition editorPlaceholder : string :=
  LF +:+ LF +:+ "# Please enter a summary for your changes." +:+ LF
  +:+ "# An empty message aborts the editor.".

(** The reminder of the retry loop as [setSummary] has it (the text ends
    with an emoji, here its four bytes).  The copy in [createChangeset]
    ends with the same emoji read as Latin-1 and written as UTF-8, eight
    bytes; the trace records this text for both. *)
Definition summaryReminder : string :=
  LF +:+ LF +:+ "# A summary is required for the changelog! "
  +:+ String "240"%char (String "159"%char (String "152"%char (String "170"%char EmptyString))).

Definition editorFailedNotice : string :=
  "An error happened using external editor. Please type your summary here:".

Definition desiredChangesetQuestion : string := "Is this your desired changeset?".

Definition initialQuestion : string := "Which packages would you like to include?".

(** The two lines that [error] prints on an empty selection. *)
Definition mustSelect1 : string := "You must select at least one package to release".

Definition mustSelect2 : string := "(You most likely hit enter instead of space!)".

Section Questionnaire.

(** [semver.lt] of the [semver] package. *)
Variable semver_lt : string -> string -> bool.

(** The table [changeTypeList.json]. *)
Variable allChangeTypes : list ChangeTypeOption.

Definition firstMajorQuestion (pkgName : string) : string :=
  "Are you sure you want to release the first major version of " +:+ pkgName +:+ "?".

Definition confirmMajorRelease (pkgJSON : Pkg.PackageJSON) : M bool :=
  if semver_lt (Pkg.version pkgJSON) "1.0.0" then
    let* shouldReleaseFirstMajor := askConfirm (firstMajorQuestion (Pkg.name pkgJSON)) in
    ret shouldReleaseFirstMajor
  else ret true.

Definition askInitialReleaseQuestion (defaultChoiceList : list Choice) : M (list string) :=
  askCheckboxPlus initialQuestion defaultChoiceList.

(** The body of the [do ... while] of [getPackagesToRelease]; the [if]
    around it and its own test make the whole a [while] on the first
    answer. *)
Definition reaskInitialReleaseQuestion (defaultChoiceList : list Choice) : M (list string) :=
  emit (LogError mustSelect1);;
  emit (LogError mustSelect2);;
  askInitialReleaseQuestion defaultChoiceList.

Definition isEmpty {A} (l : list A) : bool :=
  match l with
  | [] => true
  | _ => false
  end.

Definition getPackagesToRelease (changedPackages : list string)
    (allPackages : list Pkg.Package) : M (list string) :=
  if Nat.ltb 1 (length allPackages) then
    let unchangedPackagesNames :=
      filter (fun n => n ∉ changedPackages)
        (map (fun p => Pkg.name (Pkg.packageJson p)) allPackages) in
    let defaultChoiceList :=
      filter (fun c => groupSize c ≠ 0)
        [Group "changed packages" (plainChoices changedPackages);
         Group "unchanged packages" (plainChoices unchangedPackagesNames)] in
    let* first := askInitialReleaseQuestion defaultChoiceList in
    let* packagesToRelease :=
      (fun w => whileM (S (length (checkboxAnswers w))) isEmpty
                  (reaskInitialReleaseQuestion defaultChoiceList) first w) in
    ret (filter (fun pkgName => isGroupLabel pkgName = false) packagesToRelease)
  else
    match allPackages with
    | p :: _ => ret [Pkg.name (Pkg.packageJson p)]
    | [] => fail TypeError
    end.

Definition choosePkgsForBumpType (title : string) (packages : list string)
    (pkgJsonsByName : gmap string Pkg.PackageJSON) : M (list string) :=
  let* choices :=
    mapWithVersion (fun pkgName version => (pkgName, formatPkgNameAndVersion pkgName version))
      pkgJsonsByName packages in
  let* answer := askCheckboxPlus title [Group "all packages" choices] in
  ret (filter (fun x => x ≠ "all packages") answer).

(** Only its reads of the map are kept: a missing entry is a [TypeError]. *)
Definition logRestWillBeBumped (bumpType : string) (packages : list string)
    (pkgJsonsByName : gmap string Pkg.PackageJSON) : M unit :=
  let* _ := mapWithVersion formatPkgNameAndVersion pkgJsonsByName packages in
  ret tt.

(** The state of the loop over [bumpTypes]: the set
    [pkgsLeftToGetBumpTypeFor] and the array [releases]. *)
Definition Selection : Type := list string * list Release.

(** The body of [for (const pkgName of pkgsForThisBumpType)]. *)
Definition assignBump (pkgJsonsByName : gmap string Pkg.PackageJSON) (bumpType : string)
    (pkgName : string) (st : Selection) : M Selection :=
  let keep :=
    ret (setDelete (fst st) pkgName,
         push (snd st) {| name := pkgName; type := bumpType; changeTypes := None |}) in
  if String.eqb bumpType "major" then
    match pkgJsonsByName !! pkgName with
    | Some pkgJson =>
        let* shouldReleaseFirstMajor := confirmMajorRelease pkgJson in
        if shouldReleaseFirstMajor then keep else ret st
    | None => fail TypeError
    end
  else keep.

(** [for (const [i, bump] of bumpTypes.entries())], on the entries that
    are left. *)
Fixpoint bumpLoop (pkgJsonsByName : gmap string Pkg.PackageJSON)
    (entries : list (nat * (string * string))) (st : Selection) : M Selection :=
  match entries with
  | [] => ret st
  | (i, (bumpType, bumpTitle)) :: rest =>
      let packages := fst st in
      let isLast := Nat.eqb i (length bumpTypes - 1) in
      if isEmpty packages then ret st
      else
        let* pkgsForThisBumpType :=
          (if isLast then
             logRestWillBeBumped bumpTitle packages pkgJsonsByName;;
             ret packages
           else
             choosePkgsForBumpType (getBumpTypeTitle bumpTitle) packages pkgJsonsByName) in
        let* st' := forOf pkgsForThisBumpType (assignBump pkgJsonsByName bumpType) st in
        bumpLoop pkgJsonsByName rest st'
  end.

Definition bumpEntries : list (nat * (string * string)) :=
  combine (seq 0 (length bumpTypes)) bumpTypes.

(** Lines 159 to 218 of [createChangeset]: the releases. *)
Definition selectReleases (changedPackages : list string)
    (allPackages : list Pkg.Package) : M (list Release) :=
  if Nat.ltb 1 (length allPackages) then
    let* packagesToRelease := getPackagesToRelease changedPackages allPackages in
    let pkgJsonsByName := newPkgMap allPackages in
    let pkgsLeftToGetBumpTypeFor := newSet packagesToRelease in
    let* st := bumpLoop pkgJsonsByName bumpEntries (pkgsLeftToGetBumpTypeFor, []) in
    ret (snd st)
  else
    match allPackages with
    | pkg :: _ =>
        let* type :=
          askList ("What kind of change is this for " +:+ Pkg.name (Pkg.packageJson pkg)
                   +:+ "? (current version is " +:+ Pkg.version (Pkg.packageJson pkg) +:+ ")")
            ["patch"; "minor"; "major"] in
        (if String.eqb type "major" then
           let* shouldReleaseAsMajor := confirmMajorRelease (Pkg.packageJson pkg) in
           if shouldReleaseAsMajor then ret tt else fail (ExitError 1)
         else ret tt);;
        ret [{| name := Pkg.name (Pkg.packageJson pkg); type := type; changeTypes := None |}]
    | [] => fail TypeError
    end.

(** [summary.length === 0]. *)
Definition emptyString (s : string) : bool := Nat.eqb (String.length s) 0.

(** [summary = await cli.askQuestion(""); while (summary.length === 0) ...],
    the fallback after the editor, shared by [createChangeset] and
    [setSummary]. *)
Definition askUntilSummary : M string :=
  let* summary := askQuestion "" in
  fun w => whileM (S (length (questionAnswers w))) emptyString
             (askQuestion summaryReminder) summary w.

(** Lines 220 to 256 of [createChangeset]: the summary. *)
Definition collectSummary (releases : list Release) : M ChangesetWithConfirmed :=
  let* summary := askQuestion "Summary" in
  if emptyString summary then
    let* edited := askQuestionWithEditor editorPlaceholder in
    match edited with
    | Some text =>
        if Nat.ltb 0 (String.length text) then
          ret {| releases := releases; summary := text; confirmed := true |}
        else
          let* summary := askUntilSummary in
          ret {| releases := releases; summary := summary; confirmed := false |}
    | None =>
        emit (Log editorFailedNotice);;
        let* summary := askUntilSummary in
        ret {| releases := releases; summary := summary; confirmed := false |}
    end
  else ret {| releases := releases; summary := summary; confirmed := false |}.

Definition createChangeset (changedPackages : list string)
    (allPackages : list Pkg.Package) : M ChangesetWithConfirmed :=
  let* releases := selectReleases changedPackages allPackages in
  collectSummary releases.

(** ** Change-type collector ([writeChangeTypes.ts]) *)

Definition getChangeTypeList : M (list string) :=
  askCheckboxPlus "What kind of change are you making? (check all that apply)"
    (map (fun changeType => Item (title changeType) (text changeType)) allChangeTypes).

Definition categoryQuestion (category : ChangeTypeOption) : string :=
  "[ " +:+ title category +:+ " ]".

Definition withChangeTypes (rel : Release) (cts : list ChangeType) : Release :=
  {| name := name rel; type := type rel; changeTypes := Some cts |}.

Definition getReleasesPerBumpType (bumpTypeSet : list string) (releases : list Release)
    (chosenChangeTypeList : list ChangeTypeOption) : M (list Release) :=
  forOf bumpTypeSet
    (fun bumpType releaseWithChangeTypeList =>
       let* changeTypeList :=
         forOf chosenChangeTypeList
           (fun category changeTypeList =>
              let* description := askQuestion (categoryQuestion category) in
              ret (push changeTypeList {| description := description; category := category |}))
           [] in
       let releasesWithChangeTypes :=
         map (fun rel => withChangeTypes rel changeTypeList)
           (filter (fun rel => type rel = bumpType) releases) in
       ret (releaseWithChangeTypeList ++ releasesWithChangeTypes))
    [].

Definition reuseQuestion (previousAnswer : string) : string :=
  "Do you want to reuse your previous answer for the current package? ("
  +:+ previousAnswer +:+ ")".

(** [previousAnswers] is updated in place by the source; here the updated
    dictionary is returned with the description. *)
Definition getDescriptionWithPreviousAnswer (previousAnswers : gmap string string)
    (category : ChangeTypeOption) : M (string * gmap string string) :=
  let fresh :=
    let* description := askQuestion (categoryQuestion category) in
    ret (description, <[title category := description]> previousAnswers) in
  match previousAnswers !! title category with
  | Some previousAnswer =>
      if truthy previousAnswer then
        let* shouldReusePreviousAnswer := askConfirm (reuseQuestion previousAnswer) in
        if shouldReusePreviousAnswer then ret (previousAnswer, previousAnswers)
        else fresh
      else fresh
  | None => fresh
  end.

Definition getReleasesPerPackage (releases : list Release)
    (chosenChangeTypeList : list ChangeTypeOption) : M (list ChangesetWithConfirmed) :=
  let* st :=
    forOf releases
      (fun release '(changesetList, previousAnswers) =>
         let* inner :=
           forOf chosenChangeTypeList
             (fun category '(currChangeTypeList, previousAnswers) =>
                let* answer := getDescriptionWithPreviousAnswer previousAnswers category in
                ret (push currChangeTypeList
                       {| description := fst answer; category := category |},
                     snd answer))
             ([], previousAnswers) in
         let releaseWithChangeTypeList := [withChangeTypes release (fst inner)] in
         ret (push changesetList
                {| releases := releaseWithChangeTypeList; summary := ""; confirmed := false |},
              snd inner))
      ([], ∅) in
  ret (fst st).

Definition getChangesetList (releases : list Release)
    (chosenChangeTypeList : list ChangeTypeOption) : M (list ChangesetWithConfirmed) :=
  let bumpTypeSet := newSet (map type releases) in
  let* isSameMessageForAllPkgs :=
    askConfirm "Would you like to reuse the same message for all packages of this bump type?" in
  if isSameMessageForAllPkgs then
    let* releaseWithChangeTypeList :=
      getReleasesPerBumpType bumpTypeSet releases chosenChangeTypeList in
    ret [{| releases := releaseWithChangeTypeList; summary := ""; confirmed := false |}]
  else getReleasesPerPackage releases chosenChangeTypeList.

(** [setSummary] assigns [summary] and [confirmed] of its argument; the
    updated changeset is returned. *)
Definition setSummary (changeSet : ChangesetWithConfirmed) (config : Config)
    : M ChangesetWithConfirmed :=
  let* summary := (if alwaysOpenEditor config then ret "" else askQuestion "Summary") in
  if emptyString summary then
    let* edited := askQuestionWithEditor editorPlaceholder in
    match edited with
    | Some text =>
        if Nat.ltb 0 (String.length text) then
          ret {| releases := releases changeSet; summary := text; confirmed := true |}
        else
          let* summary := askUntilSummary in
          ret {| releases := releases changeSet; summary := summary; confirmed := false |}
    | None =>
        emit (Log editorFailedNotice);;
        let* summary := askUntilSummary in
        ret {| releases := releases changeSet; summary := summary; confirmed := false |}
    end
  else ret {| releases := releases changeSet; summary := summary; confirmed := false |}.

(** [allChangeTypes.find(cht => cht.title === title)!.text]. *)
Fixpoint findText (title0 : string) (l : list ChangeTypeOption) : M string :=
  match l with
  | [] => fail TypeError
  | cht :: rest => if String.eqb (title cht) title0 then ret (text cht) else findText title0 rest
  end.

Fixpoint mapM {A B} (f : A -> M B) (l : list A) : M (list B) :=
  match l with
  | [] => ret []
  | x :: rest => let* y := f x in let* ys := mapM f rest in ret (y :: ys)
  end.

Definition newCollector (config : Config) : Collector.t :=
  {| Collector.config := config; Collector.isWithChangeTypes := false;
     Collector.releases := []; Collector.chosenChangeTypeList := [];
     Collector.changesetList := [] |}.

Definition setChangeTypeList (this : Collector.t) : M Collector.t :=
  if negb (shouldAskForChangeTypes (Collector.config this)) then ret this
  else
    let* choosenTitleList := getChangeTypeList in
    let* chosen :=
      mapM (fun title0 =>
              let* text0 := findText title0 allChangeTypes in
              ret {| title := title0; text := text0 |})
        choosenTitleList in
    ret {| Collector.config := Collector.config this;
           Collector.isWithChangeTypes := Nat.ltb 0 (length choosenTitleList);
           Collector.releases := Collector.releases this;
           Collector.chosenChangeTypeList := chosen;
           Collector.changesetList := Collector.changesetList this |}.

Definition setReleases (this : Collector.t) (newReleases : list Release) : M Collector.t :=
  if negb (Collector.isWithChangeTypes this) then ret this
  else
    ret {| Collector.config := Collector.config this;
           Collector.isWithChangeTypes := Collector.isWithChangeTypes this;
           Collector.releases := newReleases;
           Collector.chosenChangeTypeList := Collector.chosenChangeTypeList this;
           Collector.changesetList := Collector.changesetList this |}.

Definition setChangesetList (this : Collector.t) : M Collector.t :=
  if negb (Collector.isWithChangeTypes this) then ret this
  else if isEmpty (Collector.releases this) || isEmpty (Collector.chosenChangeTypeList this) then
    fail (Throw "releases and chosenChangeTypeList must be set")
  else
    let* l := getChangesetList (Collector.releases this) (Collector.chosenChangeTypeList this) in
    ret {| Collector.config := Collector.config this;
           Collector.isWithChangeTypes := Collector.isWithChangeTypes this;
           Collector.releases := Collector.releases this;
           Collector.chosenChangeTypeList := Collector.chosenChangeTypeList this;
           Collector.changesetList := l |}.

Definition setSummaries (this : Collector.t) : M Collector.t :=
  if negb (Collector.isWithChangeTypes this) then ret this
  else if isEmpty (Collector.changesetList this) then
    fail (Throw "changesetList must be set")
  else
    let* l := mapM (fun changeset => setSummary changeset (Collector.config this))
                (Collector.changesetList this) in
    ret {| Collector.config := Collector.config this;
           Collector.isWithChangeTypes := Collector.isWithChangeTypes this;
           Collector.releases := Collector.releases this;
           Collector.chosenChangeTypeList := Collector.chosenChangeTypeList this;
           Collector.changesetList := l |}.

(** [undefined] is [None]. *)
Definition getFinalChangesetList (this : Collector.t)
    : M (option (list ChangesetWithConfirmed)) :=
  if negb (Collector.isWithChangeTypes this) then ret None
  else if isEmpty (Collector.changesetList this) then
    fail (Throw "changesetList must be set")
  else ret (Some (Collector.changesetList this)).

(** ** Changeset writer ([writeChangeTypes.ts]) *)

(** The body of the loop of [writeChangesetList]; [continue] is the early
    [ret tt]. *)
Definition writeOneChangeset (packages : list Pkg.Package) (cwd changesetBase : string)
    (empty : bool) (config : Config) (open : bool)
    (writeChangeset : ChangesetWithConfirmed -> string -> string)
    (changeset : ChangesetWithConfirmed) : M unit :=
  emit (PrintConfirmation changeset (Nat.ltb 1 (length packages)));;
  let* changeset :=
    (if negb (confirmed changeset) then
       let* answer := askConfirm desiredChangesetQuestion in
       ret {| releases := releases changeset; summary := summary changeset;
              confirmed := answer |}
     else ret changeset) in
  if negb (confirmed changeset) then ret tt
  else
    let changesetID := writeChangeset changeset cwd in
    emit (WriteChangeset changeset cwd changesetID);;
    (match commit config with
     | Some getAddMessage =>
         emit (GitAdd (pathResolve changesetBase (changesetID +:+ ".md")) cwd);;
         emit (GitCommit (getAddMessage changeset) cwd)
     | None => ret tt
     end);;
    emit (WarnIfMajor changeset);;
    let changesetPath := pathResolve changesetBase (changesetID +:+ ".md") in
    if open then emit (DetermineEditorHack changesetPath) else ret tt.

Definition writeChangesetList (changesets : list ChangesetWithConfirmed)
    (packages : list Pkg.Package) (cwd changesetBase : string)
    (empty : bool) (config : Config) (open : bool)
    (writeChangeset : ChangesetWithConfirmed -> string -> string) : M unit :=
  forOf changesets
    (fun changeset _ =>
       writeOneChangeset packages cwd changesetBase empty config open writeChangeset changeset)
    tt.

(** ** Other functions of the sources *)

(** [String.prototype.split] on a one-character separator. *)
Fixpoint splitOn (sep : ascii) (s : string) : list string :=
  match s with
  | EmptyString => [""]
  | String c rest =>
      if Ascii.eqb c sep then "" :: splitOn sep rest
      else
        match splitOn sep rest with
        | w :: ws => String c w :: ws
        | [] => [String c ""]
        end
  end.

(** [kind.split(" ")[0]], of the revisions whose categories are strings. *)
Definition getKindTitle (kind : string) : string :=
  match splitOn " "%char kind with
  | w :: _ => w
  | [] => ""
  end.

Definition sampleDescription : string := "sample changeType description".

(** [getChangeTypeDescriptions] of the test suite: the provided
    descriptions, padded with the sample one, cut at [questionsAmount]. *)
Definition getChangeTypeDescriptions (questionsAmount : nat)
    (providedDescriptions : option (list string)) : list string :=
  let sampleDescriptions := repeat sampleDescription questionsAmount in
  let descriptions :=
    match providedDescriptions with
    | Some l => l
    | None => []
    end in
  take questionsAmount (descriptions ++ sampleDescriptions).

(** ** Definitions used to state the properties *)

(** The bullet lines that [getChangeTypesSection] prints for the change
    types [cts]: one line for each description that is not empty, and
    the closing line feed. *)
Definition bulletLines (cts : list ChangeType) : string :=
  join LF (map bulletLine (filter (fun chk => truthy (description chk) = true) cts)) +:+ LF.

(** The bucket that [groupStep] pushes a release of type [t] to. *)
Definition bucketKey (t : string) : string :=
  if String.eqb t "minor" then "minor"
  else if String.eqb t "patch" then "patch"
  else "major".

Definition toMajor (rel : Release) : bool :=
  negb (String.eqb (type rel) "minor") && negb (String.eqb (type rel) "patch").
Definition toMinor (rel : Release) : bool := String.eqb (type rel) "minor".
Definition toPatch (rel : Release) : bool :=
  negb (String.eqb (type rel) "minor") && String.eqb (type rel) "patch".

Definition sampleCategory : ChangeTypeOption :=
  {| title := "Added"; text := "New functionality" |}.


(** The grouped choices of the initial multi-select. *)
Definition initialChoices (changedPackages : list string)
    (allPackages : list Pkg.Package) : list Choice :=
  filter (fun c => groupSize c ≠ 0)
    [Group "changed packages" (plainChoices changedPackages);
     Group "unchanged packages"
       (plainChoices
          (filter (fun n => n ∉ changedPackages)
             (map (fun p => Pkg.name (Pkg.packageJson p)) allPackages)))].



Definition twoPackages : list Pkg.Package :=
  [{| Pkg.packageJson := {| Pkg.name := "pkg-a"; Pkg.version := "0.5.0" |} |};
   {| Pkg.packageJson := {| Pkg.name := "pkg-b"; Pkg.version := "2.0.0" |} |}].

(** A world that holds the given answers and an empty trace. *)
Definition script (questions : list string) (editor : list (option string))
    (confirms : list bool) (lists : list string) (checkboxes : list (list string)) : World :=
  {| questionAnswers := questions; editorAnswers := editor; confirmAnswers := confirms;
     listAnswers := lists; checkboxAnswers := checkboxes; trace := [] |}.




(** A stand-in for [semver.lt] on versions written [MAJOR.MINOR.PATCH]
    with one digit each, used to run the model on examples. *)
Definition sampleSemverLt (a b : string) : bool := String.ltb a b.

(** [w] after the events [es]. *)
Definition logged (w : World) (es : list Event) : World :=
  {| questionAnswers := questionAnswers w; editorAnswers := editorAnswers w;
     confirmAnswers := confirmAnswers w; listAnswers := listAnswers w;
     checkboxAnswers := checkboxAnswers w; trace := trace w ++ es |}.

(** [w] after a confirmation that leaves the answers [rest], and the
    events [es]. *)
Definition answered (w : World) (rest : list bool) (es : list Event) : World :=
  {| questionAnswers := questionAnswers w; editorAnswers := editorAnswers w;
     confirmAnswers := rest; listAnswers := listAnswers w;
     checkboxAnswers := checkboxAnswers w; trace := trace w ++ es |}.

(** The changeset that the writer persists after the user said yes. *)
Definition confirmedCopy (cs : ChangesetWithConfirmed) : ChangesetWithConfirmed :=
  {| releases := releases cs; summary := summary cs; confirmed := true |}.

(** The store and version-control events of one persisted changeset. *)
Definition persistEvents (cwd changesetBase : string) (config : Config) (open : bool)
    (writeChangeset : ChangesetWithConfirmed -> string -> string)
    (cs : ChangesetWithConfirmed) : list Event :=
  let id := writeChangeset cs cwd in
  let path := pathResolve changesetBase (id +:+ ".md") in
  WriteChangeset cs cwd id
  :: match commit config with
     | Some getAddMessage => [GitAdd path cwd; GitCommit (getAddMessage cs) cwd]
     | None => []
     end
  ++ WarnIfMajor cs :: (if open then [DetermineEditorHack path] else []).

(** The release that the loop over [bumpTypes] pushes. *)
Definition mkRelease (pkgName bumpType : string) : Release :=
  {| name := pkgName; type := bumpType; changeTypes := None |}.

(** The multi-select of one bump type. *)
Definition bumpPrompt (bumpTitle : string) (choices : list (string * string))
    (answer : list string) : Event :=
  AskCheckboxPlus (getBumpTypeTitle bumpTitle) [Group "all packages" choices] answer.

(** [p] was shown in the multi-select of [bumpTitle]. *)
Definition offeredAt (bumpTitle p : string) (t : list Event) : Prop :=
  exists choices answer,
    bumpPrompt bumpTitle choices answer ∈ t /\ p ∈ map fst choices.

(** The events of the initial multi-select. *)
Definition isInitialEvent (e : Event) : Prop :=
  match e with
  | AskCheckboxPlus message _ _ => message = initialQuestion
  | LogError _ => True
  | _ => False
  end.

(** Every entry of the map is stored under its own name. *)
Definition keyedByName (m : gmap string Pkg.PackageJSON) : Prop :=
  forall p pj, m !! p = Some pj -> Pkg.name pj = p.

(** What the writer may add to the trace for the changeset [cs]. *)
Definition writerEvent (cwd : string) (config : Config) (open : bool)
    (writeChangeset : ChangesetWithConfirmed -> string -> string)
    (cs : ChangesetWithConfirmed) (e : Event) : Prop :=
  match e with
  | PrintConfirmation c _ => c = cs
  | AskConfirm q _ => q = desiredChangesetQuestion /\ confirmed cs = false
  | WriteChangeset c cwd' id =>
      confirmed c = true /\ summary c = summary cs /\ releases c = releases cs
      /\ cwd' = cwd /\ id = writeChangeset c cwd
  | GitAdd _ _ | GitCommit _ _ => commit config <> None
  | WarnIfMajor c => confirmed c = true
  | DetermineEditorHack _ => open = true
  | _ => False
  end.

(** The events that only a commit option or the open flag allow. *)
Definition allowedByOptions (config : Config) (open : bool) (e : Event) : Prop :=
  match e with
  | GitAdd _ _ | GitCommit _ _ => commit config <> None
  | DetermineEditorHack _ => open = true
  | _ => True
  end.

(** The change types made of the descriptions [ds] for the categories
    [chosen], in order. *)
Definition describe (ds : list string) (chosen : list ChangeTypeOption)
    : list ChangeType :=
  zip_with (fun d c => {| description := d; category := c |}) ds chosen.

(** The changeset that [getReleasesPerPackage] makes of one release. *)
Definition packageChangeset (cts : list ChangeType) (r : Release)
    : ChangesetWithConfirmed :=
  {| releases := [withChangeTypes r cts]; summary := ""; confirmed := false |}.

(** Whether a major release of [p] is its first: the version stored for
    [p] is below 1.0.0. *)
Definition belowOne (m : gmap string Pkg.PackageJSON) (p : string) : bool :=
  match m !! p with
  | Some pkgJson => semver_lt (Pkg.version pkgJson) "1.0.0"
  | None => false
  end.

(** The packages picked in the answer of the multi-select of a bump type. *)
Definition pickedAt (answer : list string) : list string :=
  filter (fun x => x ≠ "all packages") answer.

(** [verdicts] pairs each package that was asked the first-major question
    with the answer given.  The packages of [picked] that are released as
    major are those that have no declined confirmation. *)
Definition majorsOf (picked : list string) (verdicts : list (string * bool))
    : list string :=
  filter (fun p => (p, false) ∉ verdicts) picked.

(** The first-major questions of [verdicts], with their answers. *)
Definition confirmEvents (verdicts : list (string * bool)) : list Event :=
  map (fun pv => AskConfirm (firstMajorQuestion (fst pv)) (snd pv)) verdicts.

(** [w] after the major round: the multi-select and confirmation answers
    that are left, and the events [es]. *)
Definition afterMajor (w : World) (cbrest : list (list string)) (crest : list bool)
    (es : list Event) : World :=
  {| questionAnswers := questionAnswers w; editorAnswers := editorAnswers w;
     confirmAnswers := crest; listAnswers := listAnswers w;
     checkboxAnswers := cbrest; trace := trace w ++ es |}.

(** The entries of [bumpTypes] after major. *)
Definition laterEntries : list (nat * (string * string)) := tail bumpEntries.

(** ** Sample data *)

Definition sampleRelease : Release :=
  {| name := "pkg-a"; type := "minor";
     changeTypes := Some [{| description := "d"; category := sampleCategory |}] |}.

Definition secondRelease : Release :=
  {| name := "pkg-b"; type := "minor";
     changeTypes := Some [{| description := "e"; category := sampleCategory |}] |}.

Definition onePackage (version : string) : list Pkg.Package :=
  [{| Pkg.packageJson := {| Pkg.name := "pkg-a"; Pkg.version := version |} |}].

(** Both packages picked at major, the first major of [pkg-a] declined. *)
Definition declinedSession : World :=
  script [] [] [false] [] [["pkg-a"; "pkg-b"]; ["pkg-a"; "pkg-b"]; []; []].

Definition declinedTrace : list Event :=
  [AskCheckboxPlus initialQuestion
     [Group "unchanged packages" [("pkg-a", "pkg-a"); ("pkg-b", "pkg-b")]]
     ["pkg-a"; "pkg-b"];
   bumpPrompt "major" [("pkg-a", "pkg-a@0.5.0"); ("pkg-b", "pkg-b@2.0.0")]
     ["pkg-a"; "pkg-b"];
   AskConfirm (firstMajorQuestion "pkg-a") false;
   bumpPrompt "minor" [("pkg-a", "pkg-a@0.5.0")] [];
   bumpPrompt "patch" [("pkg-a", "pkg-a@0.5.0")] []].

Definition declinedReleases : list Release :=
  [mkRelease "pkg-b" "major"; mkRelease "pkg-a" "none"].

Definition sampleConfig : Config :=
  {| commit := Some (fun _ => "docs(changeset): add changeset");
     shouldAskForChangeTypes := false; alwaysOpenEditor := false |}.

Definition draft (s : string) (c : bool) : ChangesetWithConfirmed :=
  {| releases := [mkRelease "pkg-a" "patch"]; summary := s; confirmed := c |}.

Definition sampleCache : gmap string string := {[ "Added" := "first description" ]}.

Definition sampleTable : list ChangeTypeOption :=
  [sampleCategory; {| title := "Changed"; text := "Visual changes" |}].

Definition activeConfig : Config :=
  {| commit := None; shouldAskForChangeTypes := true; alwaysOpenEditor := false |}.

(** An active collector that holds no releases and no changesets. *)
Definition listless (chosen : list ChangeTypeOption) : Collector.t :=
  {| Collector.config := activeConfig; Collector.isWithChangeTypes := true;
     Collector.releases := []; Collector.chosenChangeTypeList := chosen;
     Collector.changesetList := [] |}.

(** An active collector that holds the changesets [css]. *)
Definition drafted (css : list ChangesetWithConfirmed) : Collector.t :=
  {| Collector.config := activeConfig; Collector.isWithChangeTypes := true;
     Collector.releases := [mkRelease "pkg-a" "patch"];
     Collector.chosenChangeTypeList := [sampleCategory];
     Collector.changesetList := css |}.

Definition mixedReleases : list Release :=
  [mkRelease "pkg-a" "patch"; mkRelease "pkg-b" "minor"; mkRelease "pkg-c" "patch"].

Definition described (d : string) : list ChangeType :=
  [{| description := d; category := sampleCategory |}].

(** * Properties *)

(** ** Bump classifier *)

Lemma groupStep_buckets g rel :
  major (groupStep g rel) = major g ++ List.filter toMajor [rel]
  /\ minor (groupStep g rel) = minor g ++ List.filter toMinor [rel]
  /\ patch (groupStep g rel) = patch g ++ List.filter toPatch [rel]
  /\ none (groupStep g rel) = none g.
Proof.
  unfold groupStep, toMajor, toMinor, toPatch, push; simpl.
  destruct (String.eqb (type rel) "major") eqn:Emaj.
  - apply String.eqb_eq in Emaj. rewrite Emaj. simpl.
    rewrite !app_nil_r. auto.
  - destruct (String.eqb (type rel) "minor") eqn:Emin; simpl.
    + rewrite !app_nil_r. auto.
    + destruct (String.eqb (type rel) "patch") eqn:Epat; simpl;
        rewrite ?app_nil_r; auto.
Qed.

Lemma fold_groupStep_buckets rs : forall g,
  major (fold_left groupStep rs g) = major g ++ List.filter toMajor rs
  /\ minor (fold_left groupStep rs g) = minor g ++ List.filter toMinor rs
  /\ patch (fold_left groupStep rs g) = patch g ++ List.filter toPatch rs
  /\ none (fold_left groupStep rs g) = none g.
Proof.
  induction rs as [|rel rs IH]; intros g.
  - simpl. rewrite !app_nil_r. auto.
  - cbn [fold_left].
    destruct (IH (groupStep g rel)) as (Hmaj & Hmin & Hpat & Hnone).
    destruct (groupStep_buckets g rel) as (Smaj & Smin & Spat & Snone).
    rewrite Hmaj, Hmin, Hpat, Hnone, Smaj, Smin, Spat, Snone.
    change (rel :: rs) with ([rel] ++ rs).
    rewrite !List.filter_app, !app_assoc. auto.
Qed.

(** Each bucket is the input filtered by its test, in input order; the
    [none] bucket stays empty. *)
Lemma groupByBumpType_buckets rs :
  major (groupByBumpType rs) = List.filter toMajor rs
  /\ minor (groupByBumpType rs) = List.filter toMinor rs
  /\ patch (groupByBumpType rs) = List.filter toPatch rs
  /\ none (groupByBumpType rs) = [].
Proof.
  unfold groupByBumpType.
  destruct (fold_groupStep_buckets rs
              {| major := []; minor := []; patch := []; none := [] |})
    as (Hmaj & Hmin & Hpat & Hnone).
  simpl in *. auto.
Qed.

(** The buckets hold the input, each release once. *)
Lemma groupByBumpType_partition rs :
  Permutation
    (major (groupByBumpType rs) ++ minor (groupByBumpType rs)
     ++ patch (groupByBumpType rs) ++ none (groupByBumpType rs)) rs.
Proof.
  destruct (groupByBumpType_buckets rs) as (-> & -> & -> & ->).
  rewrite app_nil_r.
  induction rs as [|rel rs IH]; [constructor|].
  cbn [List.filter]. unfold toMajor, toMinor, toPatch in *.
  destruct (String.eqb (type rel) "minor"), (String.eqb (type rel) "patch"); simpl.
  - rewrite <- Permutation_middle. by constructor.
  - rewrite <- Permutation_middle. by constructor.
  - rewrite app_assoc, <- Permutation_middle, <- app_assoc. by constructor.
  - by constructor.
Qed.

(** C1, at a release of type none: [groupByBumpType] puts it in the major
    bucket and leaves the none bucket empty. *)
Theorem groupByBumpType_none_goes_to_major :
  let rel := {| name := "pkg-a"; type := "none"; changeTypes := None |} in
  groupByBumpType [rel]
  = {| major := [rel]; minor := []; patch := []; none := [] |}.
Proof. reflexivity. Qed.

(** ** Content renderer *)

Lemma filter_Forall_true {A} (f : A -> bool) l :
  Forall (fun x => f x = true) l -> List.filter f l = l.
Proof.
  induction 1 as [|x l Hx _ IH]; simpl; [done|]. by rewrite Hx, IH.
Qed.

Lemma filter_Forall_false {A} (f : A -> bool) l :
  Forall (fun x => f x = false) l -> List.filter f l = [].
Proof.
  induction 1 as [|x l Hx _ IH]; simpl; [done|]. by rewrite Hx.
Qed.

Lemma append_String ch a b : String ch a +:+ b = String ch (a +:+ b).
Proof. reflexivity. Qed.

Lemma append_assoc a b c : (a +:+ b) +:+ c = a +:+ b +:+ c.
Proof.
  induction a as [|ch a IH]; [reflexivity|].
  by rewrite !append_String, IH.
Qed.

Lemma separators_differ x y :
  (LF +:+ "  ") +:+ x <> (" " +:+ LF +:+ "    ") +:+ y.
Proof. unfold LF. rewrite !append_String. discriminate. Qed.

Lemma bucketKey_truthy t : truthy (bucketKey t) = true.
Proof.
  unfold bucketKey.
  destruct (String.eqb t "minor"); [done|]. by destruct (String.eqb t "patch").
Qed.

(** A list of one bump type lands in one bucket, whole. *)
Lemma grouped_single_bump_type rs t :
  rs <> [] -> Forall (fun r => type r = t) rs ->
  filter (fun e => snd e <> []) (entries (groupByBumpType rs)) = [(bucketKey t, rs)].
Proof.
  intros Hne Hall.
  destruct (groupByBumpType_buckets rs) as (Hmaj & Hmin & Hpat & Hnone).
  unfold entries. rewrite Hmaj, Hmin, Hpat, Hnone.
  assert (Hcase :
    (bucketKey t = "major" /\ List.filter toMajor rs = rs
     /\ List.filter toMinor rs = [] /\ List.filter toPatch rs = [])
    \/ (bucketKey t = "minor" /\ List.filter toMajor rs = []
        /\ List.filter toMinor rs = rs /\ List.filter toPatch rs = [])
    \/ (bucketKey t = "patch" /\ List.filter toMajor rs = []
        /\ List.filter toMinor rs = [] /\ List.filter toPatch rs = rs)).
  { unfold bucketKey.
    destruct (String.eqb t "minor") eqn:Emin;
      [|destruct (String.eqb t "patch") eqn:Epat].
    - right; left. split; [done|].
      split; [|split];
        (apply filter_Forall_true || apply filter_Forall_false);
        eapply Forall_impl; try exact Hall; simpl; intros r Hr;
        unfold toMajor, toMinor, toPatch; by rewrite Hr, ?Emin.
    - right; right. split; [done|].
      split; [|split];
        (apply filter_Forall_true || apply filter_Forall_false);
        eapply Forall_impl; try exact Hall; simpl; intros r Hr;
        unfold toMajor, toMinor, toPatch; by rewrite Hr, ?Emin, ?Epat.
    - left. split; [done|].
      split; [|split];
        (apply filter_Forall_true || apply filter_Forall_false);
        eapply Forall_impl; try exact Hall; simpl; intros r Hr;
        unfold toMajor, toMinor, toPatch; by rewrite Hr, ?Emin, ?Epat. }
  destruct Hcase as [(-> & -> & -> & ->)|[(-> & -> & -> & ->)|(-> & -> & -> & ->)]];
    repeat (rewrite filter_cons; case_decide; simpl in *; try done);
    by rewrite filter_nil.
Qed.

(** C2, amended: on a release list of one bump type among major, minor
    and patch with change types, both renderings exist and share the
    releases section and the summary block; they differ in the separator
    after the releases section, so they are never equal, and in the
    bullets, which are those of the change types of the first release
    when split and of every release when not; for a list of one release
    the bullets agree. *)
Theorem getChangesetContent_single_bump_type r0 rest t summary :
  t = "major" \/ t = "minor" \/ t = "patch" ->
  Forall (fun r => type r = t) (r0 :: rest) ->
  existsb hasChangeTypes (r0 :: rest) = true ->
  getChangesetContent (r0 :: rest) summary true
    = Some (getReleasesSection (r0 :: rest) +:+ (LF +:+ "  ")
            +:+ bulletLines (changeTypesOrEmpty r0)
            +:+ summaryBlock summary)
  /\ getChangesetContent (r0 :: rest) summary false
    = Some (getReleasesSection (r0 :: rest) +:+ (" " +:+ LF +:+ "    ")
            +:+ bulletLines (flat_map changeTypesOrEmpty (r0 :: rest))
            +:+ summaryBlock summary)
  /\ getChangesetContent (r0 :: rest) summary false
     <> getChangesetContent (r0 :: rest) summary true
  /\ (rest = [] ->
      bulletLines (changeTypesOrEmpty r0)
      = bulletLines (flat_map changeTypesOrEmpty (r0 :: rest))).
Proof.
  intros Ht Hall Hsome.
  assert (Hne : r0 :: rest <> []) by discriminate.
  assert (Hkey : bucketKey t = t /\ truthy t = true)
    by (destruct Ht as [-> | [-> | ->]]; by split).
  destruct Hkey as [Hkey Htruthy].
  assert (Hfirst : getChangeTypesSection (r0 :: rest) (Some t)
                   = bulletLines (changeTypesOrEmpty r0)).
  { unfold getChangeTypesSection, bulletLines. rewrite Htruthy.
    apply Forall_cons in Hall as [Hr0 _].
    by rewrite filter_cons, decide_True by exact Hr0. }
  assert (Hsplit : getChangesetContent (r0 :: rest) summary true
    = Some (getReleasesSection (r0 :: rest) +:+ (LF +:+ "  ")
            +:+ bulletLines (changeTypesOrEmpty r0)
            +:+ summaryBlock summary)).
  { unfold getChangesetContent. rewrite Hsome. cbn [andb].
    cbv zeta. rewrite (grouped_single_bump_type (r0 :: rest) t Hne Hall), Hkey.
    cbn [map join fst snd]. by rewrite Hfirst, !append_assoc. }
  assert (Hjoint : getChangesetContent (r0 :: rest) summary false
    = Some (getReleasesSection (r0 :: rest) +:+ (" " +:+ LF +:+ "    ")
            +:+ bulletLines (flat_map changeTypesOrEmpty (r0 :: rest))
            +:+ summaryBlock summary)).
  { unfold getChangesetContent. rewrite Hsome. reflexivity. }
  split; [exact Hsplit|]. split; [exact Hjoint|]. split.
  - rewrite Hsplit, Hjoint. intros Heq. injection Heq as Heq.
    apply (inj (String.app _)) in Heq. symmetry in Heq. by apply separators_differ in Heq.
  - intros ->. cbn [flat_map]. by rewrite app_nil_r.
Qed.

(** C2 fails on one patch release with one change type. *)
Lemma getChangesetContent_split_differs :
  let rs := [{| name := "pkg-a"; type := "patch";
                changeTypes := Some [{| description := "d"; category := sampleCategory |}] |}] in
  Forall (fun r => type r = "patch") rs
  /\ existsb hasChangeTypes rs = true
  /\ getChangesetContent rs "fix" false <> getChangesetContent rs "fix" true.
Proof.
  split; [repeat constructor|]. split; [reflexivity|].
  vm_compute. discriminate.
Qed.

(** ** Loops *)

Lemma whileM_done {S} fuel (cond : S -> bool) again s :
  cond s = false -> whileM fuel cond again s = ret s.
Proof. intros H. destruct fuel; simpl; by rewrite H. Qed.


(** ** Release selector: the initial multi-select *)







(** ** Running the monad *)

Lemma bind_Ok_inv {A B} (m : M A) (k : A -> M B) w b w' :
  bind m k w = (Ok b, w') ->
  exists a w1, m w = (Ok a, w1) /\ k a w1 = (Ok b, w').
Proof.
  unfold bind. destruct (m w) as [[a| | | |] w1]; intros H; try discriminate.
  eauto.
Qed.

Lemma bind_Ok {A B} (m : M A) (k : A -> M B) w a w1 :
  m w = (Ok a, w1) -> bind m k w = k a w1.
Proof. unfold bind. by intros ->. Qed.

Lemma whileM_post {S} fuel (cond : S -> bool) again : forall s w s' w',
  whileM fuel cond again s w = (Ok s', w') -> cond s' = false.
Proof.
  induction fuel as [|fuel IH]; intros s w s' w'; simpl;
    destruct (cond s) eqn:Hc; try discriminate.
  - unfold ret. congruence.
  - intros H. apply bind_Ok_inv in H as (s1 & w1 & _ & H). eauto.
  - unfold ret. congruence.
Qed.

(** The fuel that the callers give is never what stops a loop: a loop
    that is left pending has used up the answers of its prompt. *)
Lemma remind_pending_exhausted fuel : forall s w r w',
  length (questionAnswers w) < fuel ->
  whileM fuel emptyString (askQuestion summaryReminder) s w = (r, w') ->
  (exists s', r = Ok s') \/ (r = Pending /\ questionAnswers w' = []).
Proof.
  induction fuel as [|fuel IH]; intros s w r w' Hfuel; [lia|].
  cbn [whileM]. destruct (emptyString s).
  - unfold bind, askQuestion. destruct w as [qa ea ca la cb tr].
    cbn [questionAnswers trace] in *. destruct qa as [|a qa].
    + intros [= <- <-]. by right.
    + apply IH. cbn in *. lia.
  - unfold ret. intros [= <- <-]. left. by eexists.
Qed.

Lemma reask_pending_exhausted choices fuel : forall s w r w',
  length (checkboxAnswers w) < fuel ->
  whileM fuel isEmpty (reaskInitialReleaseQuestion choices) s w = (r, w') ->
  (exists s', r = Ok s') \/ (r = Pending /\ checkboxAnswers w' = []).
Proof.
  induction fuel as [|fuel IH]; intros s w r w' Hfuel; [lia|].
  cbn [whileM]. destruct (isEmpty s).
  - unfold reaskInitialReleaseQuestion, askInitialReleaseQuestion, bind, emit,
      askCheckboxPlus.
    destruct w as [qa ea ca la cb tr].
    cbn [checkboxAnswers trace] in *. destruct cb as [|a cb].
    + intros [= <- <-]. by right.
    + apply IH. cbn in *. lia.
  - unfold ret. intros [= <- <-]. left. by eexists.
Qed.

Lemma emptyString_false s : s <> "" -> emptyString s = false.
Proof. by destruct s. Qed.

Lemma emptyString_false_inv s : emptyString s = false -> s <> "".
Proof. by destruct s. Qed.

Lemma nonempty_length s : s <> "" -> Nat.ltb 0 (String.length s) = true.
Proof. by destruct s. Qed.

(** ** Summary collector *)



Lemma askUntilSummary_nonempty w s w' :
  askUntilSummary w = (Ok s, w') -> s <> "".
Proof.
  unfold askUntilSummary. intros H.
  apply bind_Ok_inv in H as (s0 & w0 & _ & H).
  apply whileM_post in H. by apply emptyString_false_inv.
Qed.

Lemma setSummary_nonempty changeSet config w cs w' :
  setSummary changeSet config w = (Ok cs, w') -> summary cs <> "".
Proof.
  unfold setSummary. intros H.
  apply bind_Ok_inv in H as (s0 & w0 & _ & H).
  destruct (emptyString s0) eqn:Hs0.
  - apply bind_Ok_inv in H as ([text|] & w1 & _ & H).
    + destruct (Nat.ltb 0 (String.length text)) eqn:Htext.
      * injection H as <- _. cbn. by destruct text.
      * apply bind_Ok_inv in H as (s1 & w2 & Hs1 & H).
        injection H as <- _. cbn. by eapply askUntilSummary_nonempty.
    + apply bind_Ok_inv in H as ([] & w2 & _ & H).
      apply bind_Ok_inv in H as (s1 & w3 & Hs1 & H).
      injection H as <- _. cbn. by eapply askUntilSummary_nonempty.
  - injection H as <- _. cbn. by apply emptyString_false_inv.
Qed.

Lemma collectSummary_setSummary releases0 s c config w :
  alwaysOpenEditor config = false ->
  setSummary {| releases := releases0; summary := s; confirmed := c |} config w
  = collectSummary releases0 w.
Proof. unfold setSummary, collectSummary. by intros ->. Qed.

Lemma collectSummary_nonempty releases0 w cs w' :
  collectSummary releases0 w = (Ok cs, w') -> summary cs <> "".
Proof.
  rewrite <- (collectSummary_setSummary releases0 "" false
                {| commit := None; shouldAskForChangeTypes := false;
                   alwaysOpenEditor := false |}) by done.
  apply setSummary_nonempty.
Qed.

(** C4: once the releases are chosen, a non-empty first console answer is
    the summary, with [confirmed] false; an empty console answer followed
    by a non-empty editor text makes that text the summary with
    [confirmed] true, and no other question is asked.  [setSummary] does
    the same and goes to the editor at once when [alwaysOpenEditor] is
    set. *)
Theorem createChangeset_summary_console_or_editor
    changedPackages allPackages w0 releases0 w :
  selectReleases changedPackages allPackages w0 = (Ok releases0, w) ->
  (forall a rest,
     a <> "" -> questionAnswers w = a :: rest ->
     exists w',
       createChangeset changedPackages allPackages w0
         = (Ok {| releases := releases0; summary := a; confirmed := false |}, w')
       /\ questionAnswers w' = rest /\ editorAnswers w' = editorAnswers w
       /\ trace w' = trace w ++ [AskQuestion "Summary" a])
  /\ (forall rest text erest,
       text <> "" -> questionAnswers w = "" :: rest ->
       editorAnswers w = Some text :: erest ->
       exists w',
         createChangeset changedPackages allPackages w0
           = (Ok {| releases := releases0; summary := text; confirmed := true |}, w')
         /\ questionAnswers w' = rest /\ editorAnswers w' = erest
         /\ trace w' = trace w ++ [AskQuestion "Summary" "";
                                   AskQuestionWithEditor editorPlaceholder (Some text)])
  /\ (forall changeSet config text erest,
       alwaysOpenEditor config = true -> text <> "" ->
       editorAnswers w = Some text :: erest ->
       exists w',
         setSummary changeSet config w
           = (Ok {| releases := releases changeSet; summary := text; confirmed := true |}, w')
         /\ questionAnswers w' = questionAnswers w /\ editorAnswers w' = erest
         /\ trace w' = trace w ++ [AskQuestionWithEditor editorPlaceholder (Some text)])
  /\ (forall changeSet config,
       alwaysOpenEditor config = false ->
       setSummary changeSet config w = collectSummary (releases changeSet) w).
Proof.
  intros Hsel. unfold createChangeset. rewrite (bind_Ok _ _ _ _ _ Hsel).
  clear Hsel. destruct w as [qa ea ca la cb tr].
  cbn [questionAnswers editorAnswers trace].
  split; [|split; [|split]].
  - intros a rest Ha ->. unfold collectSummary, bind, askQuestion.
    cbn [questionAnswers trace]. rewrite emptyString_false by done.
    eexists. split; [reflexivity|]. cbn. auto.
  - intros rest text erest Htext -> ->.
    unfold collectSummary, bind, askQuestion, askQuestionWithEditor.
    cbn [questionAnswers editorAnswers trace emptyString String.length Nat.eqb].
    rewrite nonempty_length by done.
    eexists. split; [reflexivity|]. cbn. by rewrite <- app_assoc.
  - intros changeSet config text erest Hcfg Htext ->.
    unfold setSummary, bind, ret, askQuestionWithEditor. rewrite Hcfg.
    cbn [questionAnswers editorAnswers trace emptyString String.length Nat.eqb].
    rewrite nonempty_length by done.
    eexists. split; [reflexivity|]. cbn. auto.
  - intros [rs s c] config Hcfg. by apply collectSummary_setSummary.
Qed.




(** ** Single package: the first major release *)

(** C7: with one package and the answer major, a version below 1.0.0 and
    a declined confirmation end [createChangeset] with [ExitError 1]
    before any summary question; a version that is not below 1.0.0 asks
    no confirmation and the release is major. *)
Theorem createChangeset_single_major changedPackages pkg w lrest :
  listAnswers w = "major" :: lrest ->
  let pkgJson := Pkg.packageJson pkg in
  let kindQuestion :=
    AskList ("What kind of change is this for " +:+ Pkg.name pkgJson
             +:+ "? (current version is " +:+ Pkg.version pkgJson +:+ ")")
      ["patch"; "minor"; "major"] "major" in
  (semver_lt (Pkg.version pkgJson) "1.0.0" = true ->
   forall crest, confirmAnswers w = false :: crest ->
   exists w',
     createChangeset changedPackages [pkg] w = (ExitError 1, w')
     /\ questionAnswers w' = questionAnswers w
     /\ trace w' = trace w ++ [kindQuestion;
                               AskConfirm (firstMajorQuestion (Pkg.name pkgJson)) false])
  /\ (semver_lt (Pkg.version pkgJson) "1.0.0" = false ->
      confirmMajorRelease pkgJson w = (Ok true, w)
      /\ forall s qrest, s <> "" -> questionAnswers w = s :: qrest ->
         exists w',
           createChangeset changedPackages [pkg] w
             = (Ok {| releases := [{| name := Pkg.name pkgJson; type := "major";
                                      changeTypes := None |}];
                      summary := s; confirmed := false |}, w')
           /\ confirmAnswers w' = confirmAnswers w
           /\ trace w' = trace w ++ [kindQuestion; AskQuestion "Summary" s]).
Proof.
  intros Hla pkgJson kindQuestion. subst kindQuestion.
  destruct w as [qa ea ca la cb tr].
  cbn [listAnswers confirmAnswers questionAnswers trace] in *. subst la. split.
  - intros Hlt crest ->.
    unfold createChangeset, selectReleases, confirmMajorRelease, bind, askList,
      askConfirm, fail, ret.
    cbn [length Nat.ltb Nat.leb listAnswers confirmAnswers questionAnswers trace].
    fold pkgJson. rewrite Hlt.
    cbn [String.eqb Ascii.eqb Bool.eqb confirmAnswers listAnswers trace questionAnswers].
    eexists. split; [reflexivity|]. cbn. split; [done|]. by rewrite <- app_assoc.
  - intros Hlt. split.
    + unfold confirmMajorRelease. by rewrite Hlt.
    + intros s qrest Hs ->.
      unfold createChangeset, selectReleases, confirmMajorRelease, collectSummary,
        bind, askList, askQuestion, fail, ret.
      cbn [length Nat.ltb Nat.leb listAnswers confirmAnswers questionAnswers trace].
      fold pkgJson. rewrite Hlt.
      cbn [String.eqb Ascii.eqb Bool.eqb confirmAnswers listAnswers trace questionAnswers].
      rewrite emptyString_false by done.
      eexists. split; [reflexivity|]. cbn. split; [done|]. by rewrite <- app_assoc.
Qed.

(** ** Changeset writer *)

Lemma forOf_app {A S} (xs ys : list A) (body : A -> S -> M S) s w :
  forOf (xs ++ ys) body s w = bind (forOf xs body s) (fun s' => forOf ys body s') w.
Proof.
  revert s w. induction xs as [|x xs IH]; intros s w; [reflexivity|].
  cbn [app forOf]. unfold bind in IH |- *.
  destruct (body x s w) as [[s1| | | |] w1]; try reflexivity.
  apply IH.
Qed.

(** C8: after the changesets [pre], a changeset that is not confirmed and
    whose question is answered no adds the confirmation display and the
    question to the trace and nothing else, and the writer goes on with
    [post]; answered yes, it is persisted as confirmed; a changeset that
    is confirmed already is persisted with no question and without
    taking an answer. *)
Theorem writeChangesetList_skips_declined
    pre cs post packages cwd changesetBase empty config open writeChangeset w w1 :
  writeChangesetList pre packages cwd changesetBase empty config open writeChangeset w
    = (Ok tt, w1) ->
  let multi := Nat.ltb 1 (length packages) in
  let continue := writeChangesetList post packages cwd changesetBase empty config open
                    writeChangeset in
  let run := writeChangesetList (pre ++ cs :: post) packages cwd changesetBase empty
               config open writeChangeset w in
  (confirmed cs = false -> forall rest, confirmAnswers w1 = false :: rest ->
     run = continue (answered w1 rest
                       [PrintConfirmation cs multi;
                        AskConfirm desiredChangesetQuestion false]))
  /\ (confirmed cs = false -> forall rest, confirmAnswers w1 = true :: rest ->
     run = continue (answered w1 rest
                       (PrintConfirmation cs multi
                        :: AskConfirm desiredChangesetQuestion true
                        :: persistEvents cwd changesetBase config open writeChangeset
                             (confirmedCopy cs))))
  /\ (confirmed cs = true ->
     run = continue (logged w1
                       (PrintConfirmation cs multi
                        :: persistEvents cwd changesetBase config open writeChangeset cs))).
Proof.
  intros Hpre multi continue run. subst run continue.
  unfold writeChangesetList in *. rewrite forOf_app, (bind_Ok _ _ _ _ _ Hpre).
  clear Hpre. destruct w1 as [qa ea ca la cb tr]. cbn [confirmAnswers forOf].
  unfold answered, logged, persistEvents, confirmedCopy.
  cbn [questionAnswers editorAnswers confirmAnswers listAnswers checkboxAnswers trace].
  split; [|split].
  - intros Hc rest ->.
    unfold bind at 1, writeOneChangeset, bind, emit, askConfirm, ret.
    rewrite Hc.
    cbn [negb questionAnswers editorAnswers confirmAnswers listAnswers
         checkboxAnswers trace confirmed].
    by rewrite <- !app_assoc.
  - intros Hc rest ->.
    unfold bind at 1, writeOneChangeset, bind, emit, askConfirm, ret.
    rewrite Hc.
    cbn [negb questionAnswers editorAnswers confirmAnswers listAnswers
         checkboxAnswers trace confirmed].
    destruct (commit config) as [getAddMessage|], open;
      cbn [questionAnswers editorAnswers confirmAnswers listAnswers
           checkboxAnswers trace];
      repeat rewrite <- app_assoc; reflexivity.
  - intros Hc.
    unfold bind at 1, writeOneChangeset, bind, emit, askConfirm, ret.
    rewrite Hc.
    cbn [negb questionAnswers editorAnswers confirmAnswers listAnswers
         checkboxAnswers trace confirmed].
    rewrite Hc.
    destruct (commit config) as [getAddMessage|], open;
      cbn [negb questionAnswers editorAnswers confirmAnswers listAnswers
           checkboxAnswers trace];
      repeat rewrite <- app_assoc; reflexivity.
Qed.

(** ** Change-type collector: the answer cache *)

Lemma truthy_nonempty s : s <> "" -> truthy s = true.
Proof. by destruct s. Qed.

(** C9: when the cache holds a non-empty answer for the category and the
    user accepts to reuse it, the description is that answer, the cache
    is unchanged and no question is asked; when the user declines, or the
    cache holds nothing (or an empty answer) for the category, the
    question is asked and its answer is returned and stored under the
    category; a stored answer that is then reused comes back as it was
    typed. *)
Theorem getDescriptionWithPreviousAnswer_reuse
    (previousAnswers : gmap string string) category w :
  (forall prev crest,
     previousAnswers !! title category = Some prev -> prev <> "" ->
     confirmAnswers w = true :: crest ->
     exists w',
       getDescriptionWithPreviousAnswer previousAnswers category w
         = (Ok (prev, previousAnswers), w')
       /\ questionAnswers w' = questionAnswers w
       /\ trace w' = trace w ++ [AskConfirm (reuseQuestion prev) true])
  /\ (forall prev crest d qrest,
       previousAnswers !! title category = Some prev -> prev <> "" ->
       confirmAnswers w = false :: crest -> questionAnswers w = d :: qrest ->
       exists w',
         getDescriptionWithPreviousAnswer previousAnswers category w
           = (Ok (d, <[title category := d]> previousAnswers), w')
         /\ trace w' = trace w ++ [AskConfirm (reuseQuestion prev) false;
                                   AskQuestion (categoryQuestion category) d])
  /\ (forall d qrest,
       previousAnswers !! title category = None
       \/ previousAnswers !! title category = Some "" ->
       questionAnswers w = d :: qrest ->
       exists w',
         getDescriptionWithPreviousAnswer previousAnswers category w
           = (Ok (d, <[title category := d]> previousAnswers), w')
         /\ confirmAnswers w' = confirmAnswers w
         /\ trace w' = trace w ++ [AskQuestion (categoryQuestion category) d])
  /\ (forall d crest,
       d <> "" -> confirmAnswers w = true :: crest ->
       fst (getDescriptionWithPreviousAnswer
              (<[title category := d]> previousAnswers) category w)
       = Ok (d, <[title category := d]> previousAnswers)).
Proof.
  destruct w as [qa ea ca la cb tr].
  cbn [questionAnswers confirmAnswers trace].
  split; [|split; [|split]].
  - intros prev crest Hprev Hne ->.
    unfold getDescriptionWithPreviousAnswer. rewrite Hprev, truthy_nonempty by done.
    unfold bind, askConfirm, ret. cbn [confirmAnswers trace].
    eexists. split; [reflexivity|]. cbn. auto.
  - intros prev crest d qrest Hprev Hne -> ->.
    unfold getDescriptionWithPreviousAnswer. rewrite Hprev, truthy_nonempty by done.
    unfold bind, askConfirm, askQuestion, ret.
    cbn [confirmAnswers questionAnswers trace].
    eexists. split; [reflexivity|]. cbn. by rewrite <- app_assoc.
  - intros d qrest Hprev ->.
    unfold getDescriptionWithPreviousAnswer.
    destruct Hprev as [-> | ->]; cbn [truthy String.eqb negb];
      unfold bind, askQuestion, ret; cbn [confirmAnswers questionAnswers trace];
      (eexists; split; [reflexivity|]); cbn; auto.
  - intros d crest Hd ->.
    unfold getDescriptionWithPreviousAnswer.
    rewrite lookup_insert_eq, truthy_nonempty by done.
    reflexivity.
Qed.

(** ** Change-type collector: the inactive collector *)

(** C10: when [shouldAskForChangeTypes] is off, or the user picks no
    category, [setChangeTypeList] leaves the collector inactive; on an
    inactive collector [setReleases], [setChangesetList] and
    [setSummaries] return with the collector and the world unchanged and
    throw nothing, and [getFinalChangesetList] returns [undefined]. *)
Theorem inactive_collector_is_silent config :
  (shouldAskForChangeTypes config = false ->
   forall w, setChangeTypeList (newCollector config) w = (Ok (newCollector config), w))
  /\ (shouldAskForChangeTypes config = true ->
      forall w rest, checkboxAnswers w = [] :: rest ->
      exists w',
        setChangeTypeList (newCollector config) w = (Ok (newCollector config), w')
        /\ checkboxAnswers w' = rest)
  /\ (forall this,
       Collector.isWithChangeTypes this = false ->
       forall w newReleases,
         setReleases this newReleases w = (Ok this, w)
         /\ setChangesetList this w = (Ok this, w)
         /\ setSummaries this w = (Ok this, w)
         /\ getFinalChangesetList this w = (Ok None, w)).
Proof.
  split; [|split].
  - intros Hoff w. unfold setChangeTypeList. cbn [newCollector Collector.config].
    by rewrite Hoff.
  - intros Hon [qa ea ca la cb tr] rest. cbn [checkboxAnswers]. intros ->.
    unfold setChangeTypeList. cbn [newCollector Collector.config]. rewrite Hon.
    unfold getChangeTypeList, bind, askCheckboxPlus. cbn.
    eexists. split; reflexivity.
  - intros this Hoff w newReleases.
    unfold setReleases, setChangesetList, setSummaries, getFinalChangesetList.
    by rewrite Hoff.
Qed.

(** ** Release selector: the loop over the bump types *)

Lemma length_append a b : String.length (a +:+ b) = String.length a + String.length b.
Proof.
  induction a as [|c a IH]; [reflexivity|].
  rewrite append_String. cbn. by rewrite IH.
Qed.

Lemma append_inj_r s a b : a +:+ s = b +:+ s -> a = b.
Proof.
  revert b. induction a as [|c a IH]; intros [|d b] H; try reflexivity.
  - apply (f_equal String.length) in H.
    change (EmptyString +:+ s) with s in H.
    rewrite append_String in H. cbn in H. rewrite length_append in H. lia.
  - apply (f_equal String.length) in H.
    change (EmptyString +:+ s) with s in H.
    rewrite append_String in H. cbn in H. rewrite length_append in H. lia.
  - rewrite !append_String in H. injection H as -> H. f_equal. by apply IH.
Qed.

Lemma firstMajorQuestion_inj p q :
  firstMajorQuestion p = firstMajorQuestion q -> p = q.
Proof.
  unfold firstMajorQuestion. intros H.
  apply (inj (String.app _)) in H. by apply append_inj_r in H.
Qed.

Lemma getBumpTypeTitle_inj a b : getBumpTypeTitle a = getBumpTypeTitle b -> a = b.
Proof.
  unfold getBumpTypeTitle. intros H.
  apply (inj (String.app _)) in H. by apply append_inj_r in H.
Qed.

Lemma newPkgMap_keyedByName allPackages : keyedByName (newPkgMap allPackages).
Proof.
  unfold newPkgMap.
  assert (Hgen : forall m, keyedByName m ->
            keyedByName
              (fold_left (fun m p => <[Pkg.name (Pkg.packageJson p) := Pkg.packageJson p]> m)
                 allPackages m)).
  { induction allPackages as [|pkg l IH]; intros m Hm; [done|].
    cbn [fold_left]. apply IH. intros p pj.
    destruct (decide (Pkg.name (Pkg.packageJson pkg) = p)) as [<-|Hne].
    - rewrite lookup_insert_eq. by intros [= <-].
    - rewrite lookup_insert_ne by done. apply Hm. }
  apply Hgen. intros p pj. by rewrite lookup_empty.
Qed.

Lemma elem_of_setDelete s x p : p ∈ setDelete s x <-> p ∈ s /\ p ≠ x.
Proof. unfold setDelete. by rewrite list_elem_of_filter, (comm and). Qed.

Lemma elem_of_fold_setDelete chosen : forall s p,
  p ∈ fold_left setDelete chosen s <-> p ∈ s /\ p ∉ chosen.
Proof.
  induction chosen as [|x chosen IH]; intros s p; cbn [fold_left].
  - split; [|tauto]. intros H. split; [done|]. apply not_elem_of_nil.
  - rewrite IH, elem_of_setDelete, not_elem_of_cons. tauto.
Qed.

Lemma fold_setDelete_self s : fold_left setDelete s s = [].
Proof.
  destruct (fold_left setDelete s s) as [|p l] eqn:E; [done|].
  assert (Hp : p ∈ fold_left setDelete s s) by (rewrite E; left).
  apply elem_of_fold_setDelete in Hp. tauto.
Qed.

Lemma mapWithVersion_inv {A} (f : string -> string -> A) m packages : forall w l w',
  mapWithVersion f m packages w = (Ok l, w') ->
  w' = w /\ length l = length packages
  /\ forall g, (forall n v, g (f n v) = n) -> map g l = packages.
Proof.
  induction packages as [|p packages IH]; intros w l w'; cbn [mapWithVersion].
  - unfold ret. intros [= <- <-]. auto.
  - destruct (m !! p) as [pj|]; [|discriminate].
    intros H. apply bind_Ok_inv in H as (tl & w1 & Htl & H).
    apply IH in Htl as (-> & Hlen & Hmap).
    unfold ret in H. injection H as <- <-.
    split; [done|]. split; [cbn; by rewrite Hlen|].
    intros g Hg. cbn. by rewrite Hg, Hmap.
Qed.

Lemma choosePkgsForBumpType_inv bumpTitle packages m w chosen w' :
  choosePkgsForBumpType (getBumpTypeTitle bumpTitle) packages m w = (Ok chosen, w') ->
  exists choices answer,
    map fst choices = packages
    /\ chosen = filter (fun x => x ≠ "all packages") answer
    /\ trace w' = trace w ++ [bumpPrompt bumpTitle choices answer]
    /\ confirmAnswers w' = confirmAnswers w.
Proof.
  unfold choosePkgsForBumpType. intros H.
  apply bind_Ok_inv in H as (choices & w1 & Hch & H).
  apply mapWithVersion_inv in Hch as (-> & _ & Hmap).
  apply bind_Ok_inv in H as (answer & w2 & Hans & H).
  unfold ret in H. injection H as <- <-.
  exists choices, answer. split; [by apply Hmap|]. split; [done|].
  unfold askCheckboxPlus in Hans.
  destruct (checkboxAnswers w) as [|a rest]; [discriminate|].
  injection Hans as <- <-. by cbn.
Qed.

Lemma assignBump_other m bumpType chosen : forall left rel w,
  String.eqb bumpType "major" = false ->
  forOf chosen (assignBump m bumpType) (left, rel) w
  = (Ok (fold_left setDelete chosen left,
         rel ++ map (fun p => mkRelease p bumpType) chosen), w).
Proof.
  induction chosen as [|p chosen IH]; intros left rel w Hb; cbn [forOf].
  - unfold ret. cbn. by rewrite app_nil_r.
  - unfold bind, assignBump at 1. rewrite Hb. unfold ret at 1. cbn [fst snd].
    rewrite IH by done. unfold push. cbn [fold_left map].
    by rewrite <- app_assoc.
Qed.

Lemma AskConfirm_inj q b q' b' :
  AskConfirm q b = AskConfirm q' b' -> q = q' /\ b = b'.
Proof. by intros [= -> ->]. Qed.

Lemma AskCheckboxPlus_inj q c a q' c' a' :
  AskCheckboxPlus q c a = AskCheckboxPlus q' c' a' -> q = q' /\ c = c' /\ a = a'.
Proof. by intros [= -> -> ->]. Qed.

Lemma reask_events choices fuel : forall s w s' w',
  whileM fuel isEmpty (reaskInitialReleaseQuestion choices) s w = (Ok s', w') ->
  exists t, trace w' = trace w ++ t /\ Forall isInitialEvent t.
Proof.
  induction fuel as [|fuel IH]; intros s w s' w'; cbn [whileM];
    destruct (isEmpty s).
  - discriminate.
  - unfold ret. intros [= <- <-]. exists []. by rewrite app_nil_r.
  - intros H. apply bind_Ok_inv in H as (s1 & w1 & Hask & H).
    apply IH in H as (t & Ht & Hall).
    destruct w as [qa ea ca la cb tr].
    unfold reaskInitialReleaseQuestion, askInitialReleaseQuestion, bind, emit,
      askCheckboxPlus in Hask.
    cbn [checkboxAnswers trace] in Hask.
    destruct cb as [|a cb]; [discriminate|]. injection Hask as <- <-.
    cbn [trace] in *.
    exists ([LogError mustSelect1; LogError mustSelect2;
             AskCheckboxPlus initialQuestion choices a] ++ t).
    split; [rewrite Ht; by rewrite <- !app_assoc|].
    apply Forall_app. split; [|done]. by repeat constructor.
  - unfold ret. intros [= <- <-]. exists []. by rewrite app_nil_r.
Qed.

Lemma getPackagesToRelease_events changedPackages allPackages w sel w' :
  1 < length allPackages ->
  getPackagesToRelease changedPackages allPackages w = (Ok sel, w') ->
  exists t, trace w' = trace w ++ t /\ Forall isInitialEvent t.
Proof.
  intros Hlen. unfold getPackagesToRelease.
  rewrite (proj2 (Nat.ltb_lt _ _) Hlen).
  fold (initialChoices changedPackages allPackages).
  generalize (initialChoices changedPackages allPackages) as choices.
  intros choices H.
  apply bind_Ok_inv in H as (first & w1 & Hfirst & H).
  apply bind_Ok_inv in H as (sel1 & w2 & Hloop & H).
  unfold ret in H. injection H as _ <-.
  apply reask_events in Hloop as (t & Ht & Hall).
  destruct w as [qa ea ca la cb tr].
  unfold askInitialReleaseQuestion, askCheckboxPlus in Hfirst.
  cbn [checkboxAnswers trace] in Hfirst.
  destruct cb as [|a cb]; [discriminate|]. injection Hfirst as <- <-.
  cbn [trace] in *.
  exists (AskCheckboxPlus initialQuestion choices a :: t).
  split; [rewrite Ht; by rewrite <- app_assoc|].
  by constructor.
Qed.

(** The loop body at major: what one pass over the chosen packages does
    to the pool, the releases and the trace. *)
Lemma assignBump_major_inv m chosen :
  keyedByName m ->
  forall left rel w left' rel' w',
  forOf chosen (assignBump m "major") (left, rel) w = (Ok (left', rel'), w') ->
  exists t,
    trace w' = trace w ++ t
    /\ Forall (fun e => exists p b pj,
                 e = AskConfirm (firstMajorQuestion p) b /\ m !! p = Some pj
                 /\ semver_lt (Pkg.version pj) "1.0.0" = true) t
    /\ (forall r, r ∈ rel' ->
          r ∈ rel
          \/ (type r = "major"
              /\ (AskConfirm (firstMajorQuestion (name r)) true ∈ t
                  \/ exists pj, m !! name r = Some pj
                               /\ semver_lt (Pkg.version pj) "1.0.0" = false)))
    /\ (forall r, r ∈ rel -> r ∈ rel')
    /\ (forall p, p ∈ left -> p ∈ left' \/ mkRelease p "major" ∈ rel')
    /\ (forall p, AskConfirm (firstMajorQuestion p) true ∈ t ->
          mkRelease p "major" ∈ rel')
    /\ (forall p pj, p ∈ chosen -> m !! p = Some pj ->
          semver_lt (Pkg.version pj) "1.0.0" = false ->
          mkRelease p "major" ∈ rel').
Proof.
  intros Hm. induction chosen as [|p0 chosen IH]; intros left rel w left' rel' w' H.
  - cbn [forOf] in H. unfold ret in H. injection H as <- <- <-.
    exists []. rewrite app_nil_r. split; [done|]. split; [constructor|].
    split; [auto|]. split; [auto|]. split; [auto|].
    split; [intros p Hp; by apply elem_of_nil in Hp|].
    intros p pj Hp. by apply elem_of_nil in Hp.
  - cbn [forOf] in H. apply bind_Ok_inv in H as ([left1 rel1] & w1 & Hstep & H).
    apply IH in H as (t & Ht & Hev & Hnew & Hold & Hleft & Hyes & Hauto).
    clear IH. unfold assignBump in Hstep. cbn [String.eqb Ascii.eqb Bool.eqb] in Hstep.
    cbn [fst snd] in Hstep.
    destruct (m !! p0) as [pj|] eqn:Hpj; [|discriminate].
    pose proof (Hm _ _ Hpj) as Hname.
    unfold confirmMajorRelease in Hstep.
    destruct (semver_lt (Pkg.version pj) "1.0.0") eqn:Hlt.
    + apply bind_Ok_inv in Hstep as (b & w2 & Hask & Hstep).
      apply bind_Ok_inv in Hask as (b' & w3 & Hask & Hret).
      unfold ret in Hret. injection Hret as -> ->.
      destruct w as [qa ea ca la cb tr]. unfold askConfirm in Hask.
      cbn [confirmAnswers trace] in Hask.
      destruct ca as [|a ca]; [discriminate|]. injection Hask as -> <-.
      rewrite Hname in *.
      destruct b; unfold ret in Hstep; injection Hstep as <- <- <-;
        cbn [trace] in Ht;
        [exists (AskConfirm (firstMajorQuestion p0) true :: t)
        |exists (AskConfirm (firstMajorQuestion p0) false :: t)];
        (split; [rewrite Ht; by rewrite <- app_assoc|]);
        (split; [constructor; [by eexists p0, _, pj|done]|]).
      * split.
        { intros r Hr. apply Hnew in Hr as [Hr|(Hty & Hr)].
          - unfold push in Hr. apply elem_of_app in Hr as [Hr|Hr]; [by left|].
            apply list_elem_of_singleton in Hr as ->. right. split; [done|].
            left. cbn. left.
          - right. split; [done|]. destruct Hr as [Hr|Hr]; [left; by right|by right]. }
        split; [intros r Hr; apply Hold; unfold push; apply elem_of_app; by left|].
        split.
        { intros p Hp. destruct (decide (p = p0)) as [->|Hne].
          - right. apply Hold. unfold push. apply elem_of_app. right. left.
          - apply Hleft. by apply elem_of_setDelete. }
        split.
        { intros p Hp. apply elem_of_cons in Hp as [Hp|Hp]; [|by apply Hyes].
          apply AskConfirm_inj in Hp as [Hp _].
          apply firstMajorQuestion_inj in Hp as ->.
          apply Hold. unfold push. apply elem_of_app. right. left. }
        intros p pj' Hp Hpj' Hlt'. apply elem_of_cons in Hp as [->|Hp].
        { congruence. }
        by eapply Hauto.
      * split.
        { intros r Hr. apply Hnew in Hr as [Hr|(Hty & Hr)]; [by left|].
          right. split; [done|]. destruct Hr as [Hr|Hr]; [left; by right|by right]. }
        split; [done|]. split; [done|].
        split.
        { intros p Hp. apply elem_of_cons in Hp as [Hp|Hp]; [|by apply Hyes].
          by apply AskConfirm_inj in Hp as [_ Hp]. }
        intros p pj' Hp Hpj' Hlt'. apply elem_of_cons in Hp as [->|Hp].
        { congruence. }
        by eapply Hauto.
    + unfold bind, ret in Hstep. injection Hstep as <- <- <-.
      exists t. split; [done|]. split; [done|].
      split.
      { intros r Hr. apply Hnew in Hr as [Hr|Hr]; [|by right].
        unfold push in Hr. apply elem_of_app in Hr as [Hr|Hr]; [by left|].
        apply list_elem_of_singleton in Hr as ->. right. split; [done|].
        right. exists pj. by cbn. }
      split; [intros r Hr; apply Hold; unfold push; apply elem_of_app; by left|].
      split.
      { intros p Hp. destruct (decide (p = p0)) as [->|Hne].
        - right. apply Hold. unfold push. apply elem_of_app. right. left.
        - apply Hleft. by apply elem_of_setDelete. }
      split; [done|].
      intros p pj' Hp Hpj' Hlt'. apply elem_of_cons in Hp as [->|Hp].
      { apply Hold. unfold push. apply elem_of_app. right. left. }
      by eapply Hauto.
Qed.

(** The loop over entries below major: every pass asks at most one
    multi-select, releases only at the types of its entries, and the last
    entry takes whatever is left. *)
Lemma bumpLoop_tail_inv m entries :
  (forall i b ti, (i, (b, ti)) ∈ entries -> String.eqb b "major" = false) ->
  forall left rel w left' rel' w',
  bumpLoop m entries (left, rel) w = (Ok (left', rel'), w') ->
  exists t,
    trace w' = trace w ++ t
    /\ Forall (fun e => exists i b ti choices answer,
                 (i, (b, ti)) ∈ entries /\ e = bumpPrompt ti choices answer) t
    /\ (forall r, r ∈ rel' ->
          r ∈ rel \/ exists i b ti, (i, (b, ti)) ∈ entries /\ type r = b)
    /\ (forall r, r ∈ rel -> r ∈ rel')
    /\ (forall p, p ∈ left ->
          p ∈ left' \/ exists i b ti, (i, (b, ti)) ∈ entries /\ mkRelease p b ∈ rel')
    /\ (forall p, p ∈ left' -> p ∈ left)
    /\ (left <> [] -> forall i b ti rest, entries = (i, (b, ti)) :: rest -> i <> 3 ->
          exists choices answer,
            bumpPrompt ti choices answer ∈ t /\ map fst choices = left)
    /\ ((exists b ti, (3, (b, ti)) ∈ entries) -> left' = []).
Proof.
  induction entries as [|[i [b ti]] entries IH]; intros Hb left rel w left' rel' w' H.
  - cbn [bumpLoop] in H. unfold ret in H. injection H as <- <- <-.
    exists []. rewrite app_nil_r. split; [done|]. split; [constructor|].
    split; [auto|]. split; [auto|]. split; [auto|]. split; [auto|].
    split; [intros _ i b ti rest Hnil; discriminate|].
    intros (b & ti & Hin). by apply elem_of_nil in Hin.
  - cbn [bumpLoop fst] in H.
    destruct left as [|p0 left0] eqn:Eleft.
    { cbn [isEmpty] in H. unfold ret in H. injection H as <- <- <-.
      exists []. rewrite app_nil_r. split; [done|]. split; [constructor|].
      split; [auto|]. split; [auto|]. split; [auto|]. split; [auto|].
      split; [done|]. done. }
    rewrite <- Eleft in *. assert (Hne : left <> []) by by rewrite Eleft.
    assert (Hfull : isEmpty left = false) by by rewrite Eleft.
    clear Eleft. rewrite Hfull in H.
    assert (Hbi : String.eqb b "major" = false) by (eapply Hb; left).
    apply bind_Ok_inv in H as (chosen & w1 & Hchosen & H).
    apply bind_Ok_inv in H as ([left1 rel1] & w2 & Hassign & H).
    rewrite assignBump_other in Hassign by done.
    injection Hassign as <- <- <-.
    apply IH in H as (t & Ht & Hev & Hnew & Hold & Hleft & Hsub & _ & Hlast);
      [|intros i' b' ti' Hin; eapply Hb; right; exact Hin].
    clear IH.
    assert (Hstep : exists t1,
      trace w1 = trace w ++ t1
      /\ Forall (fun e => exists choices answer, e = bumpPrompt ti choices answer) t1
      /\ (i <> 3 -> exists choices answer,
            bumpPrompt ti choices answer ∈ t1 /\ map fst choices = left)
      /\ (i = 3 -> chosen = left)).
    { change (length bumpTypes - 1) with 3 in Hchosen.
      destruct (Nat.eqb i 3) eqn:Ei.
      - apply Nat.eqb_eq in Ei.
        apply bind_Ok_inv in Hchosen as ([] & w0 & Hlog & Hchosen).
        unfold ret in Hchosen. injection Hchosen as <- <-.
        unfold logRestWillBeBumped in Hlog.
        apply bind_Ok_inv in Hlog as (l & w3 & Hlog & Hret).
        apply mapWithVersion_inv in Hlog as (-> & _).
        unfold ret in Hret. injection Hret as <-.
        exists []. rewrite app_nil_r. split; [done|]. split; [constructor|].
        split; [done|]. done.
      - apply Nat.eqb_neq in Ei.
        apply choosePkgsForBumpType_inv in Hchosen
          as (choices & answer & Hmap & _ & Htr & _).
        exists [bumpPrompt ti choices answer]. split; [done|].
        split; [repeat constructor; by eexists _, _|].
        split; [|done]. intros _. exists choices, answer. split; [left|done]. }
    destruct Hstep as (t1 & Ht1 & Hev1 & Hfirst & Hall).
    exists (t1 ++ t). split; [by rewrite Ht, Ht1, <- app_assoc|].
    split.
    { apply Forall_app. split.
      - eapply Forall_impl; [exact Hev1|]. intros e (choices & answer & ->).
        exists i, b, ti, choices, answer. split; [left|done].
      - eapply Forall_impl; [exact Hev|].
        intros e (i' & b' & ti' & choices & answer & Hin & ->).
        exists i', b', ti', choices, answer. split; [by right|done]. }
    split.
    { intros r Hr. apply Hnew in Hr as [Hr|(i' & b' & ti' & Hin & Hty)].
      - apply elem_of_app in Hr as [Hr|Hr]; [by left|].
        apply list_elem_of_In, in_map_iff in Hr as (p & <- & _).
        right. exists i, b, ti. split; [left|done].
      - right. exists i', b', ti'. split; [by right|done]. }
    split; [intros r Hr; apply Hold, elem_of_app; by left|].
    split.
    { intros p Hp. destruct (decide (p ∈ chosen)) as [Hin|Hout].
      - right. exists i, b, ti. split; [left|].
        apply Hold, elem_of_app. right.
        apply list_elem_of_In, in_map_iff. exists p. split; [done|].
        by apply list_elem_of_In.
      - destruct (Hleft p) as [Hp'|(i' & b' & ti' & Hin & Hrel)].
        + by apply elem_of_fold_setDelete.
        + by left.
        + right. exists i', b', ti'. split; [by right|done]. }
    split; [intros p Hp; apply Hsub in Hp; by apply elem_of_fold_setDelete in Hp as [? _]|].
    split.
    { intros _ i' b' ti' rest [= -> -> -> ->] Hi.
      destruct (Hfirst Hi) as (choices & answer & Hin & Hmap).
      exists choices, answer. split; [apply elem_of_app; by left|done]. }
    intros (b' & ti' & Hin).
    apply elem_of_cons in Hin as [Hin|Hin]; [|apply Hlast; by exists b', ti'].
    injection Hin as <- _ _. rewrite (Hall eq_refl) in Hsub.
    rewrite fold_setDelete_self in Hsub.
    destruct left' as [|p l]; [done|]. exfalso.
    eapply not_elem_of_nil, (Hsub p). left.
Qed.

Lemma bumpLoop_cons m i bumpType bumpTitle rest st :
  bumpLoop m ((i, (bumpType, bumpTitle)) :: rest) st
  = if isEmpty (fst st) then ret st
    else
      let* pkgsForThisBumpType :=
        (if Nat.eqb i (length bumpTypes - 1) then
           logRestWillBeBumped bumpTitle (fst st) m;;
           ret (fst st)
         else choosePkgsForBumpType (getBumpTypeTitle bumpTitle) (fst st) m) in
      let* st' := forOf pkgsForThisBumpType (assignBump m bumpType) st in
      bumpLoop m rest st'.
Proof. reflexivity. Qed.

Lemma tail_entries_not_major i b ti :
  (i, (b, ti)) ∈ [(1, ("minor", "minor")); (2, ("patch", "patch")); (3, ("none", "none"))] ->
  (b = "minor" \/ b = "patch" \/ b = "none")
  /\ (ti = "minor" \/ ti = "patch" \/ ti = "none").
Proof.
  intros Hin.
  repeat (apply elem_of_cons in Hin as [Hin|Hin];
          [injection Hin as -> -> ->; auto|]).
  by apply elem_of_nil in Hin.
Qed.

(** * More properties of the sources *)

(** ** Bump classifier and renderer *)

(** X1: the major bucket holds, in input order, every release whose type
    is neither minor nor patch, the minor and patch buckets those of
    their type, the none bucket nothing; together they hold every input
    release once. *)
Theorem groupByBumpType_filters_in_order rs :
  major (groupByBumpType rs)
    = List.filter (fun r => negb (String.eqb (type r) "minor")
                            && negb (String.eqb (type r) "patch")) rs
  /\ minor (groupByBumpType rs) = List.filter (fun r => String.eqb (type r) "minor") rs
  /\ patch (groupByBumpType rs) = List.filter (fun r => String.eqb (type r) "patch") rs
  /\ none (groupByBumpType rs) = []
  /\ Permutation
       (major (groupByBumpType rs) ++ minor (groupByBumpType rs)
        ++ patch (groupByBumpType rs) ++ none (groupByBumpType rs)) rs.
Proof.
  destruct (groupByBumpType_buckets rs) as (Hmaj & Hmin & Hpat & Hnone).
  split; [exact Hmaj|]. split; [exact Hmin|]. split.
  - rewrite Hpat. apply List.filter_ext. intros r. unfold toPatch.
    destruct (String.eqb (type r) "minor") eqn:Emin; [|done].
    apply String.eqb_eq in Emin. by rewrite Emin.
  - split; [exact Hnone|]. apply groupByBumpType_partition.
Qed.

Lemma existsb_hasChangeTypes_false rs :
  existsb hasChangeTypes rs = false <-> Forall (fun r => changeTypes r = None) rs.
Proof.
  induction rs as [|r rs IH]; cbn [existsb].
  - split; [constructor|done].
  - rewrite orb_false_iff, IH, Forall_cons. unfold hasChangeTypes.
    destruct (changeTypes r); split; intros [H1 H2]; (done || by split).
Qed.

(** X2: with or without splitting, [getChangesetContent] returns [null]
    exactly when no release has a [changeTypes] property; so it does on
    the empty list. *)
Theorem getChangesetContent_null_iff rs summary split :
  getChangesetContent rs summary split = None
  <-> Forall (fun r => changeTypes r = None) rs.
Proof.
  rewrite <- existsb_hasChangeTypes_false. unfold getChangesetContent.
  destruct split, (existsb hasChangeTypes rs); cbn [andb]; split; done.
Qed.

Lemma bullets_all_empty cts :
  Forall (fun chk => description chk = "") cts ->
  join LF (map bulletLine (filter (fun chk => truthy (description chk) = true) cts)) +:+ LF
  = LF.
Proof.
  intros Hall.
  assert (Hnil : filter (fun chk => truthy (description chk) = true) cts = []).
  { induction Hall as [|chk cts Hchk _ IH]; [done|].
    rewrite filter_cons, decide_False; [done|]. by rewrite Hchk. }
  by rewrite Hnil.
Qed.

(** X3: when every description of every release is empty, the change-type
    section is a bare line feed whatever the bump type asked for, and the
    unsplit content is the releases section, the separator, that line
    feed and the summary block: front matter and no bullet. *)
Theorem getChangeTypesSection_empty_descriptions rs :
  Forall (fun r => Forall (fun chk => description chk = "") (changeTypesOrEmpty r)) rs ->
  (forall bumpType, getChangeTypesSection rs bumpType = LF)
  /\ (forall summary,
        existsb hasChangeTypes rs = true ->
        getChangesetContent rs summary false
        = Some (getReleasesSection rs +:+ " " +:+ LF +:+ "    " +:+ LF
                +:+ summaryBlock summary)).
Proof.
  intros Hall.
  assert (Hflat : Forall (fun chk => description chk = "")
                    (flat_map changeTypesOrEmpty rs)).
  { induction Hall as [|r rs Hr _ IH]; [constructor|].
    cbn [flat_map]. by apply Forall_app. }
  assert (Hsection : forall bumpType, getChangeTypesSection rs bumpType = LF).
  { intros bumpType. unfold getChangeTypesSection. apply bullets_all_empty.
    destruct bumpType as [b|]; [|done]. destruct (truthy b); [|done].
    destruct (filter (fun r => type r = b) rs) as [|oneRelease l] eqn:E; [constructor|].
    assert (Hin : oneRelease ∈ rs).
    { assert (Hin : oneRelease ∈ filter (fun r => type r = b) rs) by (rewrite E; left).
      by apply list_elem_of_filter in Hin as [_ Hin]. }
    by eapply Forall_forall in Hall. }
  split; [exact Hsection|].
  intros summary Hsome. unfold getChangesetContent. rewrite Hsome. cbn [andb].
  by rewrite Hsection.
Qed.

Lemma getChangeTypesSection_no_release rs b :
  truthy b = true -> Forall (fun r => type r <> b) rs ->
  getChangeTypesSection rs (Some b) = LF.
Proof.
  intros Hb Hall. unfold getChangeTypesSection. rewrite Hb.
  assert (Hnil : filter (fun r => type r = b) rs = []).
  { induction Hall as [|r rs Hr _ IH]; [done|].
    by rewrite filter_cons, decide_False. }
  by rewrite Hnil.
Qed.

(** X4: releases that share a type other than major, minor and patch
    (none, say) are rendered, when split, under the major bucket, whose
    change types are looked up by the type major: no release matches and
    every bullet is dropped. *)
Theorem getChangesetContent_split_drops_bullets rs t summary :
  Forall (fun r => type r = t) rs ->
  t <> "major" -> t <> "minor" -> t <> "patch" ->
  existsb hasChangeTypes rs = true ->
  getChangesetContent rs summary true
  = Some (getReleasesSection rs +:+ LF +:+ "  " +:+ LF +:+ summaryBlock summary).
Proof.
  intros Hall Hmaj Hmin Hpat Hsome.
  assert (Hne : rs <> []) by (intros ->; discriminate).
  assert (Hkey : bucketKey t = "major").
  { unfold bucketKey.
    rewrite (proj2 (String.eqb_neq _ _) Hmin), (proj2 (String.eqb_neq _ _) Hpat). done. }
  unfold getChangesetContent. rewrite Hsome. cbn [andb]. cbv zeta.
  rewrite (grouped_single_bump_type rs t Hne Hall), Hkey.
  cbn [map join fst snd].
  rewrite getChangeTypesSection_no_release;
    [by rewrite !append_assoc|done|].
  eapply Forall_impl; [exact Hall|]. intros r ->. done.
Qed.

(** ** Category titles and test descriptions *)

Lemma join_cons_cons sep x y l : join sep (x :: y :: l) = x +:+ sep +:+ join sep (y :: l).
Proof. reflexivity. Qed.

Lemma splitOn_nonempty sep s : splitOn sep s <> [].
Proof.
  destruct s as [|c s]; cbn [splitOn]; [done|].
  destruct (Ascii.eqb c sep); [done|]. by destruct (splitOn sep s).
Qed.

Lemma join_String_head sep c w ws :
  join sep (String c w :: ws) = String c (join sep (w :: ws)).
Proof. destruct ws; reflexivity. Qed.

Lemma join_splitOn sep s : join (String sep "") (splitOn sep s) = s.
Proof.
  induction s as [|c s IH]; [reflexivity|]. cbn [splitOn].
  destruct (Ascii.eqb c sep) eqn:Ec.
  - apply Ascii.eqb_eq in Ec as ->.
    destruct (splitOn sep s) as [|w ws] eqn:E; [by apply splitOn_nonempty in E|].
    rewrite join_cons_cons, IH. reflexivity.
  - destruct (splitOn sep s) as [|w ws] eqn:E; [by apply splitOn_nonempty in E|].
    by rewrite join_String_head, IH.
Qed.

Lemma getKindTitle_String c rest :
  getKindTitle (String c rest)
  = if Ascii.eqb c " " then "" else String c (getKindTitle rest).
Proof.
  unfold getKindTitle. cbn [splitOn].
  destruct (Ascii.eqb c " "); [done|]. by destruct (splitOn " " rest).
Qed.

(** X5: [getKindTitle] gives the text before the first space: the kind
    is the title followed by nothing or by a space and more, the title
    holds no space, and joining the split pieces with a space gives the
    kind back. *)
Theorem getKindTitle_first_word kind :
  (exists rest, kind = getKindTitle kind +:+ rest
                /\ (rest = "" \/ exists r, rest = String " " r))
  /\ ~ In " "%char (list_ascii_of_string (getKindTitle kind))
  /\ join " " (splitOn " " kind) = kind.
Proof.
  split; [|split].
  - induction kind as [|c kind (rest & Hk & Hrest)].
    + exists "". split; [reflexivity|by left].
    + rewrite getKindTitle_String. destruct (Ascii.eqb c " ") eqn:Ec.
      * apply Ascii.eqb_eq in Ec as ->. exists (String " " kind).
        split; [reflexivity|]. right. by eexists.
      * exists rest. split; [|done]. rewrite append_String. by rewrite <- Hk.
  - induction kind as [|c kind IH]; [by intros []|].
    rewrite getKindTitle_String. destruct (Ascii.eqb c " ") eqn:Ec; [by intros []|].
    cbn [list_ascii_of_string]. intros [->|Hin]; [|done].
    by rewrite Ascii.eqb_refl in Ec.
  - apply join_splitOn.
Qed.

Lemma lookup_repeat {A} (x : A) n i : i < n -> repeat x n !! i = Some x.
Proof.
  revert i. induction n as [|n IH]; intros [|i] Hi; try lia; [done|].
  cbn. apply IH. lia.
Qed.

(** X6: [getChangeTypeDescriptions] returns [questionsAmount]
    descriptions: the provided ones at their places, as far as they go,
    and the sample description after them. *)
Theorem getChangeTypeDescriptions_padded questionsAmount provided :
  length (getChangeTypeDescriptions questionsAmount provided) = questionsAmount
  /\ (forall i, i < questionsAmount -> i < length (default [] provided) ->
        getChangeTypeDescriptions questionsAmount provided !! i
        = default [] provided !! i)
  /\ (forall i, i < questionsAmount -> length (default [] provided) <= i ->
        getChangeTypeDescriptions questionsAmount provided !! i
        = Some sampleDescription).
Proof.
  unfold getChangeTypeDescriptions.
  change (match provided with Some l => l | None => [] end) with (default [] provided).
  split; [|split].
  - rewrite length_take, length_app, repeat_length. lia.
  - intros i Hi Hlen. rewrite lookup_take_lt by done. by apply lookup_app_l.
  - intros i Hi Hlen. rewrite lookup_take_lt by done.
    rewrite lookup_app_r by done. apply lookup_repeat. lia.
Qed.

(** ** Release selector: choices and errors *)

(** X7: with at least one package, the initial multi-select has a group
    to show, no group it shows is empty, and what
    [getPackagesToRelease] returns after it holds no group label. *)
Theorem getPackagesToRelease_choices changedPackages allPackages :
  Forall (fun c => groupSize c <> 0) (initialChoices changedPackages allPackages)
  /\ (allPackages <> [] -> initialChoices changedPackages allPackages <> [])
  /\ (forall w sel w',
        1 < length allPackages ->
        getPackagesToRelease changedPackages allPackages w = (Ok sel, w') ->
        Forall (fun x => x <> "changed packages" /\ x <> "unchanged packages") sel).
Proof.
  split; [|split].
  - apply Forall_forall. intros c Hc. unfold initialChoices in Hc.
    by apply list_elem_of_filter in Hc as [Hc _].
  - intros Hne. destruct allPackages as [|p l]; [done|].
    unfold initialChoices.
    destruct (decide (Pkg.name (Pkg.packageJson p) ∈ changedPackages)) as [Hin|Hout].
    + assert (Hg : Group "changed packages" (plainChoices changedPackages)
                   ∈ filter (fun c => groupSize c <> 0)
                       [Group "changed packages" (plainChoices changedPackages);
                        Group "unchanged packages"
                          (plainChoices
                             (filter (fun n => n ∉ changedPackages)
                                (map (fun p => Pkg.name (Pkg.packageJson p)) (p :: l))))]).
      { apply list_elem_of_filter. split; [|left].
        cbn [groupSize]. unfold plainChoices. rewrite length_map.
        destruct changedPackages; [by apply elem_of_nil in Hin|done]. }
      intros E. rewrite E in Hg. by apply elem_of_nil in Hg.
    + assert (Hg : Group "unchanged packages"
                     (plainChoices
                        (filter (fun n => n ∉ changedPackages)
                           (map (fun p => Pkg.name (Pkg.packageJson p)) (p :: l))))
                   ∈ filter (fun c => groupSize c <> 0)
                       [Group "changed packages" (plainChoices changedPackages);
                        Group "unchanged packages"
                          (plainChoices
                             (filter (fun n => n ∉ changedPackages)
                                (map (fun p => Pkg.name (Pkg.packageJson p)) (p :: l))))]).
      { apply list_elem_of_filter. split; [|right; left].
        cbn [groupSize map]. unfold plainChoices. rewrite length_map.
        by rewrite filter_cons, decide_True. }
      intros E. rewrite E in Hg. by apply elem_of_nil in Hg.
  - intros w sel w' Hlen H. unfold getPackagesToRelease in H.
    rewrite (proj2 (Nat.ltb_lt _ _) Hlen) in H.
    apply bind_Ok_inv in H as (first & w1 & _ & H).
    apply bind_Ok_inv in H as (sel1 & w2 & _ & H).
    unfold ret in H. injection H as <- _.
    apply Forall_forall. intros x Hx.
    apply list_elem_of_filter in Hx as [Hx _]. unfold isGroupLabel in Hx.
    apply orb_false_iff in Hx as [H1 H2].
    by apply String.eqb_neq in H1, H2.
Qed.

Lemma elem_of_setAdd s x p : p ∈ setAdd s x <-> p ∈ s \/ p = x.
Proof.
  unfold setAdd. case_bool_decide as Hx.
  - split; [by left|]. intros [Hp| ->]; done.
  - rewrite elem_of_app, list_elem_of_singleton. done.
Qed.

Lemma elem_of_fold_setAdd xs : forall s p,
  p ∈ fold_left setAdd xs s <-> p ∈ s \/ p ∈ xs.
Proof.
  induction xs as [|x xs IH]; intros s p; cbn [fold_left].
  - split; [by left|]. intros [Hp|Hp]; [done|by apply elem_of_nil in Hp].
  - rewrite IH, elem_of_setAdd, elem_of_cons.
    split; [intros [[Hp|Hp]|Hp]|intros [Hp|[Hp|Hp]]]; auto.
Qed.

Lemma elem_of_newSet xs p : p ∈ newSet xs <-> p ∈ xs.
Proof.
  unfold newSet. rewrite elem_of_fold_setAdd. split; [|by right].
  intros [Hp|Hp]; [by apply elem_of_nil in Hp|done].
Qed.

Lemma NoDup_newSet xs : NoDup (newSet xs).
Proof.
  unfold newSet.
  assert (Hgen : forall s, NoDup s -> NoDup (fold_left setAdd xs s)).
  { induction xs as [|x xs IH]; intros s Hs; [done|]. cbn [fold_left].
    apply IH. unfold setAdd. case_bool_decide as Hx; [done|].
    apply NoDup_app. split; [done|]. split; [|apply NoDup_singleton].
    intros y Hy Hy'. apply list_elem_of_singleton in Hy'. by subst. }
  apply Hgen. constructor.
Qed.

Lemma newPkgMap_lookup_None allPackages x :
  x ∉ map (fun p => Pkg.name (Pkg.packageJson p)) allPackages ->
  newPkgMap allPackages !! x = None.
Proof.
  unfold newPkgMap.
  assert (Hgen : forall m : gmap string Pkg.PackageJSON, m !! x = None ->
            x ∉ map (fun p => Pkg.name (Pkg.packageJson p)) allPackages ->
            fold_left (fun m p => <[Pkg.name (Pkg.packageJson p) := Pkg.packageJson p]> m)
              allPackages m !! x = None).
  { induction allPackages as [|pkg l IH]; intros m Hm Hx; [done|].
    cbn [fold_left map] in *. apply not_elem_of_cons in Hx as [Hne Hx].
    apply IH; [|done]. by rewrite lookup_insert_ne. }
  apply Hgen. apply lookup_empty.
Qed.

Lemma newPkgMap_lookup_is_Some allPackages x :
  x ∈ map (fun p => Pkg.name (Pkg.packageJson p)) allPackages ->
  is_Some (newPkgMap allPackages !! x).
Proof.
  unfold newPkgMap.
  assert (Hgen : forall m : gmap string Pkg.PackageJSON,
            is_Some (m !! x)
            \/ x ∈ map (fun p => Pkg.name (Pkg.packageJson p)) allPackages ->
            is_Some
              (fold_left (fun m p => <[Pkg.name (Pkg.packageJson p) := Pkg.packageJson p]> m)
                 allPackages m !! x)).
  { induction allPackages as [|pkg l IH]; intros m Hx; cbn [fold_left map] in *.
    - destruct Hx as [Hx|Hx]; [done|by apply elem_of_nil in Hx].
    - apply IH.
      destruct (decide (Pkg.name (Pkg.packageJson pkg) = x)) as [<-|Hne].
      + left. rewrite lookup_insert_eq. by eexists.
      + destruct Hx as [Hx|Hx].
        * left. by rewrite lookup_insert_ne.
        * apply elem_of_cons in Hx as [Hx|Hx]; [by subst|by right]. }
  intros Hx. apply Hgen. by right.
Qed.

Lemma mapWithVersion_missing {A} (f : string -> string -> A) m packages p w :
  p ∈ packages -> m !! p = None ->
  mapWithVersion f m packages w = (TypeError, w).
Proof.
  intros Hin Hp. induction packages as [|p0 packages IH];
    [by apply elem_of_nil in Hin|].
  cbn [mapWithVersion]. destruct (m !! p0) as [pj|] eqn:Hp0; [|done].
  apply elem_of_cons in Hin as [->|Hin]; [congruence|].
  unfold bind. by rewrite IH.
Qed.

Lemma mapWithVersion_found {A} (f : string -> string -> A) m packages w :
  Forall (fun p => is_Some (m !! p)) packages ->
  exists l, mapWithVersion f m packages w = (Ok l, w).
Proof.
  induction 1 as [|p packages [pj Hp] _ (l & IH)]; cbn [mapWithVersion].
  - by eexists.
  - rewrite Hp. unfold bind. rewrite IH. by eexists.
Qed.

(** X8: when the selection names something that is not a package, the
    release selection stops on a [TypeError] when it builds the choices
    of the major multi-select, with no release made and only the initial
    question asked. *)
Theorem selectReleases_unknown_package changedPackages allPackages w sel rest x :
  1 < length allPackages ->
  checkboxAnswers w = sel :: rest ->
  x ∈ sel -> x <> "changed packages" -> x <> "unchanged packages" ->
  x ∉ map (fun p => Pkg.name (Pkg.packageJson p)) allPackages ->
  selectReleases changedPackages allPackages w
  = (TypeError,
     {| questionAnswers := questionAnswers w; editorAnswers := editorAnswers w;
        confirmAnswers := confirmAnswers w; listAnswers := listAnswers w;
        checkboxAnswers := rest;
        trace := trace w ++ [AskCheckboxPlus initialQuestion
                               (initialChoices changedPackages allPackages) sel] |}).
Proof.
  intros Hlen Hcb Hx Hl1 Hl2 Hunknown.
  destruct w as [qa ea ca la cb tr]. cbn [checkboxAnswers] in Hcb. subst cb.
  cbn [questionAnswers editorAnswers confirmAnswers listAnswers trace].
  assert (Hfull : isEmpty sel = false).
  { destruct sel; [by apply elem_of_nil in Hx|done]. }
  assert (Hkept : x ∈ newSet (filter (fun pkgName => isGroupLabel pkgName = false) sel)).
  { apply elem_of_newSet, list_elem_of_filter. split; [|done].
    unfold isGroupLabel. apply orb_false_iff. by split; apply String.eqb_neq. }
  unfold selectReleases, getPackagesToRelease.
  rewrite (proj2 (Nat.ltb_lt _ _) Hlen).
  fold (initialChoices changedPackages allPackages).
  unfold bind at 1 2 3, askInitialReleaseQuestion, askCheckboxPlus.
  cbn [checkboxAnswers trace]. rewrite whileM_done by done.
  unfold ret at 1 2.
  change bumpEntries
    with [(0, ("major", "major")); (1, ("minor", "minor"));
          (2, ("patch", "patch")); (3, ("none", "none"))].
  rewrite bumpLoop_cons. cbn [fst].
  destruct (newSet (filter (fun pkgName => isGroupLabel pkgName = false) sel))
    as [|p0 l] eqn:Eset; [by apply elem_of_nil in Hkept|].
  cbn [isEmpty]. change (Nat.eqb 0 (length bumpTypes - 1)) with false. cbv iota.
  unfold bind at 1 2, choosePkgsForBumpType, bind at 1.
  rewrite (mapWithVersion_missing _ _ _ x); [reflexivity|done|].
  by apply newPkgMap_lookup_None.
Qed.

Lemma assignBump_plain m bumpType chosen : forall st w st' w',
  forOf chosen (assignBump m bumpType) st w = (Ok st', w') ->
  Forall (fun r => changeTypes r = None) (snd st) ->
  Forall (fun r => changeTypes r = None) (snd st').
Proof.
  induction chosen as [|p chosen IH]; intros st w st' w' H Hplain; cbn [forOf] in H.
  - unfold ret in H. by injection H as <- _.
  - apply bind_Ok_inv in H as (st1 & w1 & Hstep & H).
    eapply IH; [exact H|]. clear IH H.
    assert (Hkeep : Forall (fun r => changeTypes r = None)
                      (push (snd st) {| name := p; type := bumpType; changeTypes := None |})).
    { unfold push. apply Forall_app. split; [done|]. by repeat constructor. }
    unfold assignBump in Hstep. destruct (String.eqb bumpType "major").
    + destruct (m !! p) as [pj|]; [|discriminate].
      apply bind_Ok_inv in Hstep as ([] & w2 & _ & Hstep);
        unfold ret in Hstep; by injection Hstep as <- _.
    + unfold ret in Hstep. by injection Hstep as <- _.
Qed.

Lemma bumpLoop_plain m entries : forall st w st' w',
  bumpLoop m entries st w = (Ok st', w') ->
  Forall (fun r => changeTypes r = None) (snd st) ->
  Forall (fun r => changeTypes r = None) (snd st').
Proof.
  induction entries as [|[i [b ti]] entries IH]; intros st w st' w' H Hplain.
  - cbn [bumpLoop] in H. unfold ret in H. by injection H as <- _.
  - rewrite bumpLoop_cons in H. destruct (isEmpty (fst st)).
    + unfold ret in H. by injection H as <- _.
    + apply bind_Ok_inv in H as (chosen & w1 & _ & H).
      apply bind_Ok_inv in H as (st1 & w2 & Hassign & H).
      eapply IH; [exact H|]. by eapply assignBump_plain.
Qed.

(** A completed selection over several packages, taken apart: the
    selection of the initial question, the events after it, and what the
    loop over the bump types did with the pool. *)
Lemma selectReleases_multi_inv changedPackages allPackages w rels w' :
  1 < length allPackages ->
  selectReleases changedPackages allPackages w = (Ok rels, w') ->
  exists sel w0 tl,
    getPackagesToRelease changedPackages allPackages w = (Ok sel, w0)
    /\ trace w' = trace w0 ++ tl
    /\ (forall p, p ∈ sel -> exists r, r ∈ rels /\ name r = p)
    /\ (forall r, r ∈ rels ->
          changeTypes r = None
          /\ (type r = "major" \/ type r = "minor" \/ type r = "patch" \/ type r = "none"))
    /\ (forall r, r ∈ rels -> type r = "major" ->
          AskConfirm (firstMajorQuestion (name r)) true ∈ tl
          \/ exists pj, newPkgMap allPackages !! name r = Some pj
                        /\ semver_lt (Pkg.version pj) "1.0.0" = false).
Proof.
  intros Hlen H. unfold selectReleases in H.
  rewrite (proj2 (Nat.ltb_lt _ _) Hlen) in H.
  apply bind_Ok_inv in H as (sel & w0 & Hsel & H).
  apply bind_Ok_inv in H as ([leftf relf] & w3 & Hloop & Hret).
  unfold ret in Hret. cbn [snd] in Hret. injection Hret as <- <-.
  exists sel, w0.
  pose proof (bumpLoop_plain _ _ _ _ _ _ Hloop (Forall_nil_2 _)) as Hplain.
  cbn [snd] in Hplain.
  set (m := newPkgMap allPackages) in *.
  assert (Hm : keyedByName m) by apply newPkgMap_keyedByName.
  change bumpEntries
    with [(0, ("major", "major")); (1, ("minor", "minor"));
          (2, ("patch", "patch")); (3, ("none", "none"))] in Hloop.
  rewrite bumpLoop_cons in Hloop. cbn [fst] in Hloop.
  destruct (isEmpty (newSet sel)) eqn:Hempty.
  { unfold ret in Hloop. injection Hloop as _ <- <-.
    exists []. rewrite app_nil_r. split; [done|]. split; [done|].
    split; [|split]; try (intros r Hr; by apply elem_of_nil in Hr).
    intros p Hp. apply elem_of_newSet in Hp.
    destruct (newSet sel); [by apply elem_of_nil in Hp|done]. }
  change (Nat.eqb 0 (length bumpTypes - 1)) with false in Hloop.
  apply bind_Ok_inv in Hloop as (chosen & w1 & Hchosen & Hloop).
  apply bind_Ok_inv in Hloop as ([left1 rel1] & w2 & Hassign & Hloop).
  apply choosePkgsForBumpType_inv in Hchosen
    as (choices1 & answer1 & Hmap1 & Hchosen & Ht1 & _).
  apply (assignBump_major_inv m chosen Hm) in Hassign
    as (t2 & Ht2 & Hev2 & Hnew2 & Hold2 & Hleft2 & Hyes2 & Hauto2).
  apply bumpLoop_tail_inv in Hloop
    as (t3 & Ht3 & Hev3 & Hnew3 & Hold3 & Hleft3 & Hsub3 & Hfirst3 & Hlast3);
    [|intros i b ti Hin; apply tail_entries_not_major in Hin as [[-> | [-> | ->]] _]; done].
  exists ([bumpPrompt "major" choices1 answer1] ++ t2 ++ t3).
  split; [done|].
  split; [rewrite Ht3, Ht2, Ht1; by rewrite <- !app_assoc|].
  assert (Hnone : leftf = []).
  { apply Hlast3. exists "none", "none". do 2 right. left. }
  split; [|split].
  - intros p Hp. apply elem_of_newSet in Hp.
    destruct (Hleft2 p Hp) as [Hp1|Hrel].
    + destruct (Hleft3 p Hp1) as [Hin|(i & b & ti & _ & Hrel)].
      * rewrite Hnone in Hin. by apply elem_of_nil in Hin.
      * by exists (mkRelease p b).
    + exists (mkRelease p "major"). split; [by apply Hold3|done].
  - intros r Hr. split; [by eapply Forall_forall in Hplain|].
    apply Hnew3 in Hr as [Hr|(i & b & ti & Hent & Hb)].
    + apply Hnew2 in Hr as [Hr|(Hty & _)]; [by apply elem_of_nil in Hr|by left].
    + right. rewrite Hb. by apply tail_entries_not_major in Hent as [Hent _].
  - intros r Hr Hty. apply Hnew3 in Hr as [Hr|(i & b & ti & Hent & Hb)].
    + apply Hnew2 in Hr as [Hr|(_ & [Hyes|Hver])]; [by apply elem_of_nil in Hr| |].
      * left. apply elem_of_app. right. apply elem_of_app. by left.
      * by right.
    + apply tail_entries_not_major in Hent as [[-> | [-> | ->]] _]; congruence.
Qed.

(** X9: when the selection over several packages completes, every
    package of the initial selection has a release, and every release has
    one of the four bump types and no change types. *)
Theorem selectReleases_releases_every_selected
    changedPackages allPackages w sel w0 rels w' :
  1 < length allPackages ->
  getPackagesToRelease changedPackages allPackages w = (Ok sel, w0) ->
  selectReleases changedPackages allPackages w = (Ok rels, w') ->
  (forall p, p ∈ sel -> exists r, r ∈ rels /\ name r = p)
  /\ (forall r, r ∈ rels ->
        changeTypes r = None
        /\ (type r = "major" \/ type r = "minor" \/ type r = "patch" \/ type r = "none")).
Proof.
  intros Hlen Hsel Hrun.
  apply selectReleases_multi_inv in Hrun
    as (sel' & w0' & tl & Hsel' & _ & Hall & Htypes & _); [|done].
  rewrite Hsel in Hsel'. injection Hsel' as <- <-. by split.
Qed.

(** X10: over several packages, a major release in the result is that of
    a package whose first-major question was answered yes, or whose
    version is not below 1.0.0. *)
Theorem selectReleases_major_needs_consent changedPackages allPackages w rels w' t :
  1 < length allPackages ->
  selectReleases changedPackages allPackages w = (Ok rels, w') ->
  trace w' = trace w ++ t ->
  forall r, r ∈ rels -> type r = "major" ->
    AskConfirm (firstMajorQuestion (name r)) true ∈ t
    \/ exists pj, newPkgMap allPackages !! name r = Some pj
                  /\ semver_lt (Pkg.version pj) "1.0.0" = false.
Proof.
  intros Hlen Hrun Ht r Hr Hty.
  apply selectReleases_multi_inv in Hrun
    as (sel & w0 & tl & Hsel & Htl & _ & _ & Hmajor); [|done].
  apply getPackagesToRelease_events in Hsel as (t0 & Ht0 & _); [|done].
  rewrite Htl, Ht0, <- app_assoc in Ht. apply app_inv_head in Ht. subst t.
  destruct (Hmajor r Hr Hty) as [Hyes|Hver]; [|by right].
  left. apply elem_of_app. by right.
Qed.

(** X11: with one package, a completed selection is one release, named
    after the package, of the type answered to the list question; no
    multi-select is shown, and a major answer for a version below 1.0.0
    went through a yes. *)
Theorem selectReleases_single_one_release changedPackages pkg w rels w' :
  selectReleases changedPackages [pkg] w = (Ok rels, w') ->
  exists t lrest,
    listAnswers w = t :: lrest
    /\ rels = [mkRelease (Pkg.name (Pkg.packageJson pkg)) t]
    /\ listAnswers w' = lrest
    /\ checkboxAnswers w' = checkboxAnswers w
    /\ (t = "major" -> semver_lt (Pkg.version (Pkg.packageJson pkg)) "1.0.0" = true ->
        exists crest, confirmAnswers w = true :: crest /\ confirmAnswers w' = crest).
Proof.
  destruct w as [qa ea ca la cb tr].
  unfold selectReleases. cbn [length Nat.ltb Nat.leb]. intros H.
  apply bind_Ok_inv in H as (t & w1 & Hask & H).
  unfold askList in Hask. cbn [listAnswers trace] in Hask.
  destruct la as [|a la]; [discriminate|]. injection Hask as -> <-.
  apply bind_Ok_inv in H as ([] & w2 & Hconfirm & H).
  unfold ret in H. injection H as <- <-.
  exists t, la. cbn [listAnswers checkboxAnswers confirmAnswers].
  split; [done|]. split; [done|].
  destruct (String.eqb t "major") eqn:Et.
  - unfold confirmMajorRelease in Hconfirm.
    destruct (semver_lt (Pkg.version (Pkg.packageJson pkg)) "1.0.0") eqn:Hlt.
    + apply bind_Ok_inv in Hconfirm as (b & w3 & Hb & Hconfirm).
      apply bind_Ok_inv in Hb as (b' & w4 & Hb & Hret).
      unfold ret in Hret. injection Hret as -> ->.
      unfold askConfirm in Hb. cbn [confirmAnswers trace] in Hb.
      destruct ca as [|c ca]; [discriminate|]. injection Hb as -> <-.
      destruct b; [|discriminate]. unfold ret in Hconfirm. injection Hconfirm as <-.
      cbn. split; [done|]. split; [done|]. intros _ _. by eexists.
    + unfold bind, ret in Hconfirm. injection Hconfirm as <-.
      cbn. split; [done|]. split; [done|]. intros _ Hcontra. discriminate.
  - unfold ret in Hconfirm. injection Hconfirm as <-.
    cbn. split; [done|]. split; [done|]. intros ->. discriminate.
Qed.

Lemma bumpLoop_skip m i b ti rest left rel w cbrest :
  Nat.eqb i 3 = false -> left <> [] ->
  Forall (fun p => is_Some (m !! p)) left ->
  checkboxAnswers w = [] :: cbrest ->
  exists choices,
    map fst choices = left
    /\ bumpLoop m ((i, (b, ti)) :: rest) (left, rel) w
       = bumpLoop m rest (left, rel)
           {| questionAnswers := questionAnswers w; editorAnswers := editorAnswers w;
              confirmAnswers := confirmAnswers w; listAnswers := listAnswers w;
              checkboxAnswers := cbrest;
              trace := trace w ++ [bumpPrompt ti choices []] |}.
Proof.
  intros Hi Hne Hall Hcb. rewrite bumpLoop_cons. cbn [fst].
  destruct left as [|p0 l] eqn:E; [done|]. rewrite <- E in *. clear E.
  assert (Hfull : isEmpty left = false) by (by destruct left).
  rewrite Hfull. change (length bumpTypes - 1) with 3. rewrite Hi.
  destruct (mapWithVersion_found
              (fun pkgName version => (pkgName, formatPkgNameAndVersion pkgName version))
              m left w Hall) as (choices & Hchoices).
  exists choices. split.
  { apply mapWithVersion_inv in Hchoices as (_ & _ & Hmap). by apply Hmap. }
  unfold bind at 1 2, choosePkgsForBumpType, bind at 1 2. rewrite Hchoices.
  unfold askCheckboxPlus. rewrite Hcb. unfold ret at 1.
  rewrite filter_nil. reflexivity.
Qed.

Lemma bumpLoop_last m b ti left rel w :
  String.eqb b "major" = false ->
  Forall (fun p => is_Some (m !! p)) left ->
  bumpLoop m [(3, (b, ti))] (left, rel) w
  = (Ok ([], rel ++ map (fun p => mkRelease p b) left), w).
Proof.
  intros Hb Hall. rewrite bumpLoop_cons. cbn [fst].
  destruct left as [|p0 l] eqn:E; [cbn; unfold ret; by rewrite app_nil_r|].
  rewrite <- E in *.
  assert (Hfull : isEmpty left = false) by by rewrite E.
  clear E. rewrite Hfull. change (Nat.eqb 3 (length bumpTypes - 1)) with true. cbv iota.
  destruct (mapWithVersion_found formatPkgNameAndVersion m left w Hall) as (l' & Hlog).
  unfold bind at 1 2 3, logRestWillBeBumped, bind at 1. rewrite Hlog.
  unfold ret at 1 2. rewrite assignBump_other by done.
  cbn [bumpLoop]. unfold ret. by rewrite fold_setDelete_self.
Qed.

(** X12: when the user picks nothing at the major, minor and patch
    multi-selects, every selected package is released at none, in the
    order of the selection, with no confirmation asked. *)
Theorem selectReleases_nothing_picked changedPackages allPackages w sel rest :
  1 < length allPackages ->
  checkboxAnswers w = sel :: [] :: [] :: [] :: rest ->
  let pool := newSet (filter (fun pkgName => isGroupLabel pkgName = false) sel) in
  pool <> [] ->
  Forall (fun p => p ∈ map (fun pkg => Pkg.name (Pkg.packageJson pkg)) allPackages) pool ->
  exists w',
    selectReleases changedPackages allPackages w
      = (Ok (map (fun p => mkRelease p "none") pool), w')
    /\ checkboxAnswers w' = rest
    /\ confirmAnswers w' = confirmAnswers w.
Proof.
  intros Hlen Hcb pool Hpool Hknown.
  assert (Hfound : Forall (fun p => is_Some (newPkgMap allPackages !! p)) pool).
  { eapply Forall_impl; [exact Hknown|]. intros p. apply newPkgMap_lookup_is_Some. }
  assert (Hfull : isEmpty sel = false).
  { destruct sel; [|done]. by destruct Hpool. }
  destruct w as [qa ea ca la cb tr]. cbn [checkboxAnswers confirmAnswers] in *. subst cb.
  unfold selectReleases, getPackagesToRelease.
  rewrite (proj2 (Nat.ltb_lt _ _) Hlen).
  fold (initialChoices changedPackages allPackages).
  unfold bind at 1 2 3, askInitialReleaseQuestion, askCheckboxPlus.
  cbn [checkboxAnswers trace]. rewrite whileM_done by done.
  unfold ret at 1 2. fold pool.
  change bumpEntries
    with [(0, ("major", "major")); (1, ("minor", "minor"));
          (2, ("patch", "patch")); (3, ("none", "none"))].
  unfold bind.
  edestruct (bumpLoop_skip (newPkgMap allPackages) 0 "major" "major")
    as (c1 & _ & ->); [done|exact Hpool|exact Hfound|reflexivity|].
  cbn [questionAnswers editorAnswers confirmAnswers listAnswers checkboxAnswers trace].
  edestruct (bumpLoop_skip (newPkgMap allPackages) 1 "minor" "minor")
    as (c2 & _ & ->); [done|exact Hpool|exact Hfound|reflexivity|].
  cbn [questionAnswers editorAnswers confirmAnswers listAnswers checkboxAnswers trace].
  edestruct (bumpLoop_skip (newPkgMap allPackages) 2 "patch" "patch")
    as (c3 & _ & ->); [done|exact Hpool|exact Hfound|reflexivity|].
  cbn [questionAnswers editorAnswers confirmAnswers listAnswers checkboxAnswers trace].
  rewrite bumpLoop_last by done.
  unfold ret. cbn [snd app]. eexists. split; [reflexivity|]. by cbn.
Qed.

(** ** Release selector: a first major release, declined *)

Lemma filter_ext_elem {A} (P Q : A -> Prop)
    `{!forall x, Decision (P x)} `{!forall x, Decision (Q x)} (l : list A) :
  (forall x, x ∈ l -> P x <-> Q x) -> filter P l = filter Q l.
Proof.
  induction l as [|x l IH]; intros Hext; [done|].
  rewrite !filter_cons.
  assert (Hl : filter P l = filter Q l)
    by (apply IH; intros y Hy; apply Hext; by right).
  destruct (decide (P x)) as [HP|HP], (decide (Q x)) as [HQ|HQ]; rewrite Hl; try done.
  - exfalso. apply HQ, Hext; [left|done].
  - exfalso. apply HP, Hext; [left|done].
Qed.

Lemma fold_setDelete_filter chosen : forall s,
  fold_left setDelete chosen s = filter (fun p => p ∉ chosen) s.
Proof.
  induction chosen as [|x chosen IH]; intros s; cbn [fold_left].
  - induction s as [|y s IHs]; [done|].
    rewrite filter_cons, decide_True by apply not_elem_of_nil. by rewrite <- IHs.
  - rewrite IH. unfold setDelete. rewrite list_filter_filter.
    apply filter_ext_elem. intros y _. rewrite not_elem_of_cons.
    split; [by intros [Hy Hx]|by intros [Hx Hy]].
Qed.

Lemma elem_of_verdicts (p : string) (b : bool) (vs : list (string * bool)) :
  (p, b) ∈ vs -> p ∈ map fst vs.
Proof.
  intros Hin. apply list_elem_of_In. apply list_elem_of_In in Hin.
  by apply (in_map fst) in Hin.
Qed.

Lemma majorsOf_confirmed p ps vs :
  (p, false) ∉ vs -> majorsOf (p :: ps) ((p, true) :: vs) = p :: majorsOf ps vs.
Proof.
  intros Hp. unfold majorsOf. rewrite filter_cons, decide_True.
  - f_equal. apply filter_ext_elem. intros q _. rewrite not_elem_of_cons.
    split; [by intros [_ Hq]|]. intros Hq. split; [|done]. by intros [= _].
  - apply not_elem_of_cons. split; [by intros [= ]|done].
Qed.

Lemma majorsOf_declined p ps vs :
  p ∉ ps -> majorsOf (p :: ps) ((p, false) :: vs) = majorsOf ps vs.
Proof.
  intros Hp. unfold majorsOf. rewrite filter_cons, decide_False.
  - apply filter_ext_elem. intros q Hq. rewrite not_elem_of_cons.
    split; [by intros [_ Hv]|]. intros Hv. split; [|done].
    intros [= ->]. done.
  - intros Hv. apply Hv. left.
Qed.

Lemma majorsOf_unasked p ps vs :
  (p, false) ∉ vs -> majorsOf (p :: ps) vs = p :: majorsOf ps vs.
Proof. intros Hp. unfold majorsOf. by rewrite filter_cons, decide_True. Qed.

Lemma assignBump_major_asked m p pj st w v crest :
  m !! p = Some pj ->
  Pkg.name pj = p ->
  semver_lt (Pkg.version pj) "1.0.0" = true ->
  confirmAnswers w = v :: crest ->
  assignBump m "major" p st w
  = (Ok (if v then (setDelete (fst st) p, push (snd st) (mkRelease p "major")) else st),
     afterMajor w (checkboxAnswers w) crest [AskConfirm (firstMajorQuestion p) v]).
Proof.
  intros Hp Hname Hlt Hc. unfold assignBump. cbn [String.eqb Ascii.eqb Bool.eqb].
  rewrite Hp. unfold confirmMajorRelease. rewrite Hlt, Hname.
  unfold bind, askConfirm. rewrite Hc. unfold ret. by destruct v.
Qed.

Lemma assignBump_major_unasked m p pj st w :
  m !! p = Some pj ->
  semver_lt (Pkg.version pj) "1.0.0" = false ->
  assignBump m "major" p st w
  = (Ok (setDelete (fst st) p, push (snd st) (mkRelease p "major")), w).
Proof.
  intros Hp Hlt. unfold assignBump. cbn [String.eqb Ascii.eqb Bool.eqb].
  rewrite Hp. unfold confirmMajorRelease. by rewrite Hlt.
Qed.

Lemma afterMajor_afterMajor w cb1 c1 es1 cb2 c2 es2 :
  afterMajor (afterMajor w cb1 c1 es1) cb2 c2 es2 = afterMajor w cb2 c2 (es1 ++ es2).
Proof. unfold afterMajor. cbn. by rewrite <- app_assoc. Qed.

Lemma afterMajor_same w :
  afterMajor w (checkboxAnswers w) (confirmAnswers w) [] = w.
Proof. destruct w. unfold afterMajor. cbn. by rewrite app_nil_r. Qed.

(** The major round, forward: every picked package below 1.0.0 is asked
    in turn, and the packages without a declined confirmation leave the
    pool with a major release. *)
Lemma assignBump_major_verdicts m :
  keyedByName m ->
  forall picked verdicts left rel w crest,
  NoDup picked ->
  Forall (fun p => is_Some (m !! p)) picked ->
  map fst verdicts = filter (fun p => belowOne m p = true) picked ->
  confirmAnswers w = map snd verdicts ++ crest ->
  forOf picked (assignBump m "major") (left, rel) w
  = (Ok (fold_left setDelete (majorsOf picked verdicts) left,
         rel ++ map (fun p => mkRelease p "major") (majorsOf picked verdicts)),
     afterMajor w (checkboxAnswers w) crest (confirmEvents verdicts)).
Proof.
  intros Hm picked.
  induction picked as [|p ps IH];
    intros verdicts left rel w crest Hnodup Hknown Hverdicts Hconfirm.
  - rewrite filter_nil in Hverdicts. destruct verdicts; [|discriminate].
    cbn in Hconfirm. cbn [forOf]. unfold ret, majorsOf. rewrite filter_nil.
    cbn [fold_left map confirmEvents]. rewrite app_nil_r, <- Hconfirm.
    by rewrite afterMajor_same.
  - apply NoDup_cons in Hnodup as [Hp Hnodup].
    apply Forall_cons in Hknown as [[pj Hpj] Hknown].
    assert (Hfresh : forall (vs : list (string * bool)) b,
              map fst vs = filter (fun q => belowOne m q = true) ps -> (p, b) ∉ vs).
    { intros vs b Hvs Hin. apply Hp. apply elem_of_verdicts in Hin.
      rewrite Hvs in Hin. by apply list_elem_of_filter in Hin as [_ Hin]. }
    assert (Hbelow : belowOne m p = semver_lt (Pkg.version pj) "1.0.0")
      by (unfold belowOne; by rewrite Hpj).
    rewrite filter_cons in Hverdicts. cbn [forOf].
    destruct (semver_lt (Pkg.version pj) "1.0.0") eqn:Hlt.
    + rewrite decide_True in Hverdicts by done.
      destruct verdicts as [|[p' v] vs]; [discriminate|].
      cbn [map fst snd app] in Hverdicts, Hconfirm. injection Hverdicts as -> Hvs.
      erewrite bind_Ok;
        [|exact (assignBump_major_asked m p pj _ w v _ Hpj (Hm p pj Hpj) Hlt Hconfirm)].
      destruct v; cbn [fst snd].
      * rewrite (IH vs _ _ _ crest) by done.
        rewrite majorsOf_confirmed by by apply Hfresh.
        rewrite afterMajor_afterMajor. unfold push. cbn [fold_left map].
        by rewrite <- app_assoc.
      * rewrite (IH vs _ _ _ crest) by done.
        rewrite majorsOf_declined by done.
        by rewrite afterMajor_afterMajor.
    + rewrite decide_False in Hverdicts by (by rewrite Hbelow).
      erewrite bind_Ok; [|by apply (assignBump_major_unasked m p pj)].
      cbn [fst snd]. rewrite (IH verdicts _ _ _ crest) by done.
      rewrite majorsOf_unasked by by apply Hfresh.
      unfold push. cbn [fold_left map]. by rewrite <- app_assoc.
Qed.

Lemma choosePkgsForBumpType_answer title packages m w answer cbrest :
  Forall (fun p => is_Some (m !! p)) packages ->
  checkboxAnswers w = answer :: cbrest ->
  exists choices,
    map fst choices = packages
    /\ choosePkgsForBumpType title packages m w
       = (Ok (pickedAt answer),
          afterMajor w cbrest (confirmAnswers w)
            [AskCheckboxPlus title [Group "all packages" choices] answer]).
Proof.
  intros Hknown Hcb.
  destruct (mapWithVersion_found
              (fun pkgName version => (pkgName, formatPkgNameAndVersion pkgName version))
              m packages w Hknown) as (choices & Hchoices).
  exists choices. split.
  { apply mapWithVersion_inv in Hchoices as (_ & _ & Hmap). by apply Hmap. }
  unfold choosePkgsForBumpType, bind. rewrite Hchoices.
  unfold askCheckboxPlus. rewrite Hcb. reflexivity.
Qed.

(** What one round after major asks and picks. *)
Lemma bumpLoop_round_inv m i ti left w chosen w1 :
  (if Nat.eqb i (length bumpTypes - 1) then
     logRestWillBeBumped ti left m;;
     ret left
   else choosePkgsForBumpType (getBumpTypeTitle ti) left m) w = (Ok chosen, w1) ->
  (w1 = w /\ chosen = left)
  \/ exists choices answer,
       map fst choices = left /\ chosen = pickedAt answer
       /\ trace w1 = trace w ++ [bumpPrompt ti choices answer].
Proof.
  destruct (Nat.eqb i (length bumpTypes - 1)); intros H.
  - left. apply bind_Ok_inv in H as ([] & w0 & Hlog & H).
    unfold ret in H. injection H as <- <-.
    unfold logRestWillBeBumped in Hlog.
    apply bind_Ok_inv in Hlog as (l & w3 & Hlog & Hret).
    apply mapWithVersion_inv in Hlog as (-> & _).
    unfold ret in Hret. by injection Hret as <-.
  - right. apply choosePkgsForBumpType_inv in H
      as (choices & answer & Hmap & Hchosen & Htr & _).
    by exists choices, answer.
Qed.

(** The rounds after major show packages of the pool only, and release
    packages of the pool or packages named in an answer. *)
Lemma bumpLoop_tail_pool m entries :
  (forall i b ti, (i, (b, ti)) ∈ entries -> String.eqb b "major" = false) ->
  forall left rel w left' rel' w' t,
  bumpLoop m entries (left, rel) w = (Ok (left', rel'), w') ->
  trace w' = trace w ++ t ->
  (forall b choices answer q,
     bumpPrompt b choices answer ∈ t -> q ∈ map fst choices -> q ∈ left)
  /\ (forall r, r ∈ rel' ->
        r ∈ rel \/ name r ∈ left
        \/ exists b choices answer,
             bumpPrompt b choices answer ∈ t /\ name r ∈ answer).
Proof.
  induction entries as [|[i [b ti]] entries IH];
    intros Hb left rel w left' rel' w' t H Ht.
  - cbn [bumpLoop] in H. unfold ret in H. injection H as <- <- <-.
    rewrite <- (app_nil_r (trace w)) in Ht at 1. apply app_inv_head in Ht. subst t.
    split; [intros b choices answer q Hin; by apply elem_of_nil in Hin|auto].
  - rewrite bumpLoop_cons in H. cbn [fst] in H.
    destruct (isEmpty left) eqn:Hempty.
    { unfold ret in H. injection H as <- <- <-.
      rewrite <- (app_nil_r (trace w)) in Ht at 1. apply app_inv_head in Ht. subst t.
      split; [intros b0 choices answer q Hin; by apply elem_of_nil in Hin|auto]. }
    assert (Hbi : String.eqb b "major" = false) by (eapply Hb; left).
    apply bind_Ok_inv in H as (chosen & w1 & Hchosen & H).
    apply bind_Ok_inv in H as ([left1 rel1] & w2 & Hassign & H).
    rewrite assignBump_other in Hassign by done.
    injection Hassign as <- <- <-.
    apply bumpLoop_round_inv in Hchosen.
    assert (Hsub : forall q, q ∈ fold_left setDelete chosen left -> q ∈ left)
      by (intros q Hq; by apply elem_of_fold_setDelete in Hq as [Hq _]).
    assert (Hrest : forall i' b' ti', (i', (b', ti')) ∈ entries ->
              String.eqb b' "major" = false)
      by (intros i' b' ti' Hin; eapply Hb; right; exact Hin).
    destruct Hchosen as [[-> ->]|(choices & answer & Hmap & -> & Htr)].
    + destruct (IH Hrest _ _ _ _ _ _ t H Ht) as [Hshown Hnew].
      split.
      * intros b0 choices answer q Hin Hq. eapply Hsub, Hshown; [exact Hin|exact Hq].
      * intros r Hr. apply Hnew in Hr as [Hr|[Hr|Hr]]; [|right; left; by apply Hsub|auto].
        apply elem_of_app in Hr as [Hr|Hr]; [by left|].
        apply list_elem_of_In, in_map_iff in Hr as (q & <- & Hq).
        right. left. by apply list_elem_of_In.
    + assert (Ht' : exists t', trace w' = trace w1 ++ t'
                               /\ t = bumpPrompt ti choices answer :: t').
      { apply bumpLoop_tail_inv in H as (t' & Ht' & _); [|done].
        exists t'. split; [done|].
        rewrite Ht', Htr, <- app_assoc in Ht. by apply app_inv_head in Ht. }
      destruct Ht' as (t' & Ht' & ->).
      destruct (IH Hrest _ _ _ _ _ _ t' H Ht') as [Hshown Hnew].
      split.
      * intros b0 choices0 answer0 q Hin Hq.
        apply elem_of_cons in Hin as [Hin|Hin].
        -- apply AskCheckboxPlus_inj in Hin as (_ & Hc & _).
           injection Hc as ->. by rewrite <- Hmap.
        -- eapply Hsub, Hshown; [exact Hin|exact Hq].
      * intros r Hr. apply Hnew in Hr as [Hr|[Hr|(b0 & c0 & a0 & Hin & Hr)]].
        -- apply elem_of_app in Hr as [Hr|Hr]; [by left|].
           apply list_elem_of_In, in_map_iff in Hr as (q & <- & Hq).
           apply list_elem_of_In, list_elem_of_filter in Hq as [_ Hq].
           right. right. exists ti, choices, answer. split; [left|done].
        -- right. left. by apply Hsub.
        -- right. right. exists b0, c0, a0. split; [by right|done].
Qed.

(** C6: with more than one package, the packages picked at the major
    multi-select that are below 1.0.0 are asked the first-major question
    in turn.  A package whose confirmation is declined gets no major
    release and stays in the pool: the loop goes on from the pool without
    the packages released as major, so the minor multi-select shows the
    declined package, and it ends with a minor, patch or none release.
    A picked package that is confirmed, or is not below 1.0.0, leaves
    the pool with its major release: no later multi-select shows it, and
    a release of it that is not major comes from a later answer that
    names it.  When nothing is picked at minor and patch, the run
    completes with the major releases followed by a none release for
    every package left in the pool. *)
Theorem selectReleases_declined_major_stays_in_pool
    changedPackages allPackages w sel w0 answer cbrest verdicts crest :
  1 < length allPackages ->
  getPackagesToRelease changedPackages allPackages w = (Ok sel, w0) ->
  sel <> [] ->
  Forall (fun p => p ∈ map (fun pkg => Pkg.name (Pkg.packageJson pkg)) allPackages) sel ->
  checkboxAnswers w0 = answer :: cbrest ->
  NoDup (pickedAt answer) ->
  Forall (fun p => p ∈ sel) (pickedAt answer) ->
  map fst verdicts
    = filter (fun p => belowOne (newPkgMap allPackages) p = true) (pickedAt answer) ->
  confirmAnswers w0 = map snd verdicts ++ crest ->
  let majors := majorsOf (pickedAt answer) verdicts in
  let pool := filter (fun p => p ∉ majors) (newSet sel) in
  exists choices,
    map fst choices = newSet sel
    /\ selectReleases changedPackages allPackages w
       = (let* st := bumpLoop (newPkgMap allPackages) laterEntries
                       (pool, map (fun p => mkRelease p "major") majors) in
          ret (snd st))
           (afterMajor w0 cbrest crest
              (bumpPrompt "major" choices answer :: confirmEvents verdicts))
    /\ (forall p, (p, false) ∈ verdicts -> p ∈ pool /\ p ∉ majors)
    /\ (forall q, q ∈ pickedAt answer -> (q, false) ∉ verdicts ->
          q ∈ majors /\ q ∉ pool)
    /\ (forall cbrest',
          cbrest = [] :: [] :: cbrest' -> pool <> [] ->
          exists w',
            selectReleases changedPackages allPackages w
            = (Ok (map (fun p => mkRelease p "major") majors
                   ++ map (fun p => mkRelease p "none") pool), w')
            /\ checkboxAnswers w' = cbrest' /\ confirmAnswers w' = crest)
    /\ (forall rels w',
          selectReleases changedPackages allPackages w = (Ok rels, w') ->
          exists t,
            trace w' = trace w0
                       ++ bumpPrompt "major" choices answer :: confirmEvents verdicts ++ t
            /\ (forall p, (p, false) ∈ verdicts ->
                  offeredAt "minor" p t
                  /\ (forall r, r ∈ rels -> name r = p -> type r <> "major")
                  /\ exists r, r ∈ rels /\ name r = p
                               /\ (type r = "minor" \/ type r = "patch"
                                   \/ type r = "none"))
            /\ (forall q, q ∈ pickedAt answer -> (q, false) ∉ verdicts ->
                  mkRelease q "major" ∈ rels
                  /\ (forall b, ~ offeredAt b q t)
                  /\ (forall r, r ∈ rels -> name r = q ->
                        type r = "major"
                        \/ exists b choices' answer',
                             bumpPrompt b choices' answer' ∈ t /\ q ∈ answer'))).
Proof.
  intros Hlen Hsel Hne Hknown Hcb Hnodup Hpicked Hverdicts Hconfirm majors pool.
  assert (Hpool : pool = fold_left setDelete majors (newSet sel))
    by (symmetry; apply fold_setDelete_filter).
  clearbody pool. subst pool.
  set (pool := fold_left setDelete majors (newSet sel)).
  set (m := newPkgMap allPackages) in *.
  assert (Hm : keyedByName m) by apply newPkgMap_keyedByName.
  assert (Hfound : forall p, p ∈ sel -> is_Some (m !! p)).
  { intros p Hp. apply newPkgMap_lookup_is_Some. by eapply Forall_forall in Hknown. }
  assert (Hfull : isEmpty (newSet sel) = false).
  { destruct sel as [|p0 sel0]; [done|].
    assert (Hp0 : p0 ∈ newSet (p0 :: sel0)) by (apply elem_of_newSet; left).
    by destruct (newSet (p0 :: sel0)); [apply elem_of_nil in Hp0|]. }
  destruct (choosePkgsForBumpType_answer (getBumpTypeTitle "major") (newSet sel) m w0
              answer cbrest) as (choices & Hmap & Hchoose); [|done|].
  { apply Forall_forall. intros p Hp. by apply Hfound, elem_of_newSet. }
  assert (Hround :
    forOf (pickedAt answer) (assignBump m "major") (newSet sel, [])
      (afterMajor w0 cbrest (confirmAnswers w0)
         [AskCheckboxPlus (getBumpTypeTitle "major") [Group "all packages" choices] answer])
    = (Ok (pool, map (fun p => mkRelease p "major") majors),
       afterMajor w0 cbrest crest
         (bumpPrompt "major" choices answer :: confirmEvents verdicts))).
  { rewrite (assignBump_major_verdicts m Hm (pickedAt answer) verdicts _ _ _ crest);
      [|done| |done|done].
    - by rewrite afterMajor_afterMajor.
    - apply Forall_forall. intros p Hp. apply Hfound. by eapply Forall_forall in Hpicked. }
  assert (Hrun : selectReleases changedPackages allPackages w
    = (let* st := bumpLoop m laterEntries
                    (pool, map (fun p => mkRelease p "major") majors) in
       ret (snd st))
        (afterMajor w0 cbrest crest
           (bumpPrompt "major" choices answer :: confirmEvents verdicts))).
  { unfold selectReleases. rewrite (proj2 (Nat.ltb_lt _ _) Hlen).
    erewrite bind_Ok; [|exact Hsel]. fold m.
    change bumpEntries with ((0, ("major", "major")) :: laterEntries).
    unfold bind at 1. rewrite bumpLoop_cons. cbn [fst]. rewrite Hfull.
    change (Nat.eqb 0 (length bumpTypes - 1)) with false. cbv iota.
    erewrite bind_Ok; [|exact Hchoose].
    erewrite bind_Ok; [|exact Hround]. reflexivity. }
  assert (Hdeclined : forall p, (p, false) ∈ verdicts -> p ∈ pool /\ p ∉ majors).
  { intros p Hp.
    assert (Hout : p ∉ majors).
    { unfold majors, majorsOf. intros Hin. by apply list_elem_of_filter in Hin as [Hin _]. }
    split; [|done]. apply elem_of_fold_setDelete. split; [|done].
    apply elem_of_newSet. apply elem_of_verdicts in Hp. rewrite Hverdicts in Hp.
    apply list_elem_of_filter in Hp as [_ Hp]. by eapply Forall_forall in Hpicked. }
  assert (Hkept : forall q, q ∈ pickedAt answer -> (q, false) ∉ verdicts ->
            q ∈ majors /\ q ∉ pool).
  { intros q Hq Hv.
    assert (Hin : q ∈ majors) by by apply list_elem_of_filter.
    split; [done|]. intros Hpool. by apply elem_of_fold_setDelete in Hpool as [_ Hpool]. }
  exists choices. split; [done|]. split; [exact Hrun|]. split; [exact Hdeclined|].
  split; [exact Hkept|].
  split.
  { intros cbrest' -> Hfilled.
    assert (Hleft : Forall (fun p => is_Some (m !! p)) pool).
    { apply Forall_forall. intros p Hp. apply Hfound, elem_of_newSet.
      by apply elem_of_fold_setDelete in Hp as [Hp _]. }
    rewrite Hrun.
    change laterEntries
      with [(1, ("minor", "minor")); (2, ("patch", "patch")); (3, ("none", "none"))].
    unfold bind.
    edestruct (bumpLoop_skip m 1 "minor" "minor")
      as (c2 & _ & ->); [done|exact Hfilled|exact Hleft|reflexivity|].
    edestruct (bumpLoop_skip m 2 "patch" "patch")
      as (c3 & _ & ->); [done|exact Hfilled|exact Hleft|reflexivity|].
    rewrite bumpLoop_last by done.
    unfold ret. cbn [snd]. eexists. split; [reflexivity|]. by cbn. }
  intros rels w' Hok. rewrite Hrun in Hok.
  apply bind_Ok_inv in Hok as ([leftf relf] & w3 & Hloop & Hret).
  unfold ret in Hret. cbn [snd] in Hret. injection Hret as -> ->.
  assert (Hlater : forall i b ti, (i, (b, ti)) ∈ laterEntries ->
            String.eqb b "major" = false).
  { intros i b ti Hin. by apply tail_entries_not_major in Hin as [[-> | [-> | ->]] _]. }
  pose proof Hloop as Hinv.
  apply bumpLoop_tail_inv in Hinv
    as (t & Ht & _ & Hnew & Hold & Hleft & _ & Hfirst & Hlast); [|done].
  destruct (bumpLoop_tail_pool m laterEntries Hlater _ _ _ _ _ _ t Hloop Ht)
    as [Hshown Hnames].
  exists t. split.
  { rewrite Ht. unfold afterMajor. cbn [trace]. by rewrite <- app_assoc. }
  assert (Hmajor : forall r, r ∈ rels -> type r = "major" ->
            exists q, q ∈ majors /\ r = mkRelease q "major").
  { intros r Hr Hty. apply Hnew in Hr as [Hr|(i & b & ti & Hent & Hb)].
    - apply list_elem_of_In, in_map_iff in Hr as (q & <- & Hq).
      exists q. split; [by apply list_elem_of_In|done].
    - apply tail_entries_not_major in Hent as [[-> | [-> | ->]] _]; congruence. }
  split.
  - intros p Hp. destruct (Hdeclined p Hp) as [Hpool Hout].
    assert (Hpool' : pool <> []).
    { intros E. rewrite E in Hpool. by apply elem_of_nil in Hpool. }
    split; [|split].
    + destruct (Hfirst Hpool' 1 "minor" "minor" _ eq_refl) as (c & a & Hin & Hc); [lia|].
      exists c, a. split; [done|]. by rewrite Hc.
    + intros r Hr Hname Hty. destruct (Hmajor r Hr Hty) as (q & Hq & ->).
      cbn in Hname. by subst q.
    + destruct (Hleft p Hpool) as [Hin|(i & b & ti & Hent & Hrel)].
      * rewrite Hlast in Hin; [by apply elem_of_nil in Hin|].
        exists "none", "none". do 2 right. left.
      * exists (mkRelease p b). split; [done|]. split; [done|]. cbn.
        by apply tail_entries_not_major in Hent as [Hb _].
  - intros q Hq Hv. destruct (Hkept q Hq Hv) as [Hin Hout].
    split; [|split].
    + apply Hold. apply list_elem_of_In, in_map_iff. exists q.
      split; [done|]. by apply list_elem_of_In.
    + intros b (c & a & Hprompt & Hc). apply Hout. by eapply Hshown.
    + intros r Hr Hname. apply Hnames in Hr as [Hr|[Hr|(b & c & a & Hprompt & Hr)]].
      * left. apply list_elem_of_In, in_map_iff in Hr as (q' & <- & _). done.
      * rewrite Hname in Hr. done.
      * right. exists b, c, a. by rewrite <- Hname.
Qed.

(** ** Change-type collector: the category list and the call order *)

Lemma bind_TypeError {A B} (m : M A) (k : A -> M B) w w1 :
  m w = (TypeError, w1) -> bind m k w = (TypeError, w1).
Proof. unfold bind. by intros ->. Qed.

Lemma findText_found title0 l w :
  title0 ∈ map title l ->
  exists cht, cht ∈ l /\ title cht = title0 /\ findText title0 l w = (Ok (text cht), w).
Proof.
  induction l as [|cht l IH]; cbn [map findText]; intros Hin;
    [by apply elem_of_nil in Hin|].
  destruct (String.eqb (title cht) title0) eqn:E.
  - apply String.eqb_eq in E. exists cht. split; [left|done].
  - apply String.eqb_neq in E. apply elem_of_cons in Hin as [Hin|Hin]; [done|].
    destruct (IH Hin) as (cht' & Hcht' & Ht & Hfind).
    exists cht'. split; [by right|done].
Qed.

Lemma findText_missing title0 l w :
  title0 ∉ map title l -> findText title0 l w = (TypeError, w).
Proof.
  induction l as [|cht l IH]; cbn [map findText]; intros Hout; [done|].
  apply not_elem_of_cons in Hout as [Hne Hout].
  rewrite (proj2 (String.eqb_neq _ _)) by done. by apply IH.
Qed.

Local Notation "'lookupCategory'" :=
  (fun title0 : string =>
     let* text0 := findText title0 allChangeTypes in
     ret {| title := title0; text := text0 |}) (only parsing).

Lemma lookupCategories_found titles w :
  Forall (fun t => t ∈ map title allChangeTypes) titles ->
  exists chosen,
    mapM lookupCategory titles w = (Ok chosen, w)
    /\ map title chosen = titles
    /\ Forall (fun c => c ∈ allChangeTypes) chosen.
Proof.
  induction 1 as [|t titles Ht _ (chosen & Hrun & Hmap & Hall)]; cbn [mapM].
  - exists []. by repeat split.
  - destruct (findText_found t allChangeTypes w Ht) as (cht & Hcht & Htitle & Hfind).
    exists (cht :: chosen).
    assert (Hone : bind (findText t allChangeTypes)
                     (fun text0 => ret {| title := t; text := text0 |}) w
                   = (Ok cht, w)).
    { rewrite (bind_Ok _ _ _ _ _ Hfind). unfold ret. rewrite <- Htitle.
      by destruct cht. }
    split; [|split].
    + rewrite (bind_Ok _ _ _ _ _ Hone), (bind_Ok _ _ _ _ _ Hrun). reflexivity.
    + cbn. by rewrite Htitle, Hmap.
    + by constructor.
Qed.

Lemma lookupCategories_missing titles t w :
  t ∈ titles -> t ∉ map title allChangeTypes ->
  mapM lookupCategory titles w = (TypeError, w).
Proof.
  intros Hin Hout. induction titles as [|t0 titles IH];
    [by apply elem_of_nil in Hin|].
  cbn [mapM].
  destruct (decide (t0 ∈ map title allChangeTypes)) as [Hfound|Hmiss].
  - destruct (findText_found t0 allChangeTypes w Hfound) as (cht & _ & _ & Hfind).
    assert (Hone : bind (findText t0 allChangeTypes)
                     (fun text0 => ret {| title := t0; text := text0 |}) w
                   = (Ok {| title := t0; text := text cht |}, w))
      by (by rewrite (bind_Ok _ _ _ _ _ Hfind)).
    rewrite (bind_Ok _ _ _ _ _ Hone).
    apply elem_of_cons in Hin as [->|Hin]; [done|].
    apply bind_TypeError. by apply IH.
  - apply bind_TypeError, bind_TypeError. by apply findText_missing.
Qed.

(** X13: when the flag is on and every title picked is in the category
    table, [setChangeTypeList] stores the table entries of the picked
    titles, in the order picked, and the collector is active exactly when
    that list is not empty; a picked title that is not in the table is a
    [TypeError]. *)
Theorem setChangeTypeList_chosen this w answer rest :
  shouldAskForChangeTypes (Collector.config this) = true ->
  checkboxAnswers w = answer :: rest ->
  (Forall (fun t => t ∈ map title allChangeTypes) answer ->
   exists chosen w',
     setChangeTypeList this w
       = (Ok {| Collector.config := Collector.config this;
                Collector.isWithChangeTypes := Nat.ltb 0 (length answer);
                Collector.releases := Collector.releases this;
                Collector.chosenChangeTypeList := chosen;
                Collector.changesetList := Collector.changesetList this |}, w')
     /\ map title chosen = answer
     /\ Forall (fun c => c ∈ allChangeTypes) chosen
     /\ checkboxAnswers w' = rest
     /\ (Nat.ltb 0 (length answer) = true <-> chosen <> []))
  /\ (forall t, t ∈ answer -> t ∉ map title allChangeTypes ->
        fst (setChangeTypeList this w) = TypeError).
Proof.
  intros Hon Hcb. destruct w as [qa ea ca la cb tr]. cbn [checkboxAnswers] in Hcb.
  subst cb. unfold setChangeTypeList. rewrite Hon. cbn [negb].
  erewrite bind_Ok; [|reflexivity].
  split.
  - intros Hknown.
    edestruct (lookupCategories_found answer) as (chosen & Hrun & Hmap & Hall);
      [exact Hknown|].
    rewrite (bind_Ok _ _ _ _ _ Hrun). unfold ret.
    eexists chosen, _. split; [reflexivity|]. split; [done|]. split; [done|].
    split; [done|]. rewrite <- Hmap, length_map.
    destruct chosen; cbn; split; done.
  - intros t Hin Hout.
    by rewrite (bind_TypeError _ _ _ _ (lookupCategories_missing answer t _ Hin Hout)).
Qed.

(** X14: on an active collector, [setChangesetList] throws when no
    release or no category is stored, and [setSummaries] and
    [getFinalChangesetList] throw when no changeset is stored; none of
    them asks anything before it throws.  So does [setChangesetList]
    right after [setReleases] was given no release. *)
Theorem collector_out_of_order this w :
  Collector.isWithChangeTypes this = true ->
  (Collector.releases this = [] \/ Collector.chosenChangeTypeList this = [] ->
   setChangesetList this w
   = (Throw "releases and chosenChangeTypeList must be set", w))
  /\ (Collector.changesetList this = [] ->
      setSummaries this w = (Throw "changesetList must be set", w)
      /\ getFinalChangesetList this w = (Throw "changesetList must be set", w))
  /\ (forall this1 w1,
        setReleases this [] w = (Ok this1, w1) ->
        setChangesetList this1 w1
        = (Throw "releases and chosenChangeTypeList must be set", w)).
Proof.
  intros Hon. split; [|split].
  - intros Hmissing. unfold setChangesetList. rewrite Hon. cbn [negb].
    by destruct Hmissing as [-> | ->]; cbn [isEmpty orb]; [|rewrite orb_true_r].
  - intros Hnone. unfold setSummaries, getFinalChangesetList.
    by rewrite Hon, Hnone.
  - unfold setReleases. rewrite Hon. cbn [negb]. unfold ret.
    intros this1 w1 [= <- <-]. unfold setChangesetList.
    cbn [Collector.isWithChangeTypes Collector.releases negb isEmpty orb].
    reflexivity.
Qed.

(** ** Change-type collector: grouping per bump type *)

Lemma askCategories_inv (chosen : list ChangeTypeOption) : forall acc w cts w',
  forOf chosen
    (fun category changeTypeList =>
       let* description := askQuestion (categoryQuestion category) in
       ret (push changeTypeList {| description := description; category := category |}))
    acc w = (Ok cts, w') ->
  exists new, cts = acc ++ new /\ map category new = chosen.
Proof.
  induction chosen as [|c chosen IH]; intros acc w cts w' H; cbn [forOf] in H.
  - unfold ret in H. injection H as <- _. exists []. by rewrite app_nil_r.
  - apply bind_Ok_inv in H as (acc1 & w1 & Hstep & H).
    apply bind_Ok_inv in Hstep as (d & w2 & _ & Hret).
    unfold ret in Hret. injection Hret as <- _.
    apply IH in H as (new & -> & Hmap).
    exists ({| description := d; category := c |} :: new).
    unfold push. rewrite <- app_assoc. split; [done|]. cbn. by rewrite Hmap.
Qed.

(** The releases of the bump type [fst bc], given the change types [snd bc]. *)
Local Notation "'annotated'" :=
  (fun (releases : list Release) (bc : string * list ChangeType) =>
     map (fun rel => withChangeTypes rel (snd bc))
       (filter (fun rel => type rel = fst bc) releases)) (only parsing).

Lemma getReleasesPerBumpType_inv releases chosen bumpTypeSet : forall acc w out w',
  forOf bumpTypeSet
    (fun bumpType releaseWithChangeTypeList =>
       let* changeTypeList :=
         forOf chosen
           (fun category changeTypeList =>
              let* description := askQuestion (categoryQuestion category) in
              ret (push changeTypeList {| description := description; category := category |}))
           [] in
       let releasesWithChangeTypes :=
         map (fun rel => withChangeTypes rel changeTypeList)
           (filter (fun rel => type rel = bumpType) releases) in
       ret (releaseWithChangeTypeList ++ releasesWithChangeTypes))
    acc w = (Ok out, w') ->
  exists table,
    length table = length bumpTypeSet
    /\ Forall (fun cts => map category cts = chosen) table
    /\ out = acc ++ flat_map (annotated releases) (zip bumpTypeSet table).
Proof.
  induction bumpTypeSet as [|b bumpTypeSet IH]; intros acc w out w' H; cbn [forOf] in H.
  - unfold ret in H. injection H as <- _. exists []. by rewrite app_nil_r.
  - apply bind_Ok_inv in H as (acc1 & w1 & Hstep & H).
    apply bind_Ok_inv in Hstep as (cts & w2 & Hcts & Hret).
    unfold ret in Hret. injection Hret as <- _.
    apply askCategories_inv in Hcts as (new & -> & Hnew).
    apply IH in H as (table & Hlen & Hall & ->).
    exists (new :: table). split; [cbn; by rewrite Hlen|].
    split; [by constructor|]. cbn. by rewrite <- app_assoc.
Qed.

Lemma flat_map_ext_elem {A B} (f g : A -> list B) l :
  (forall a, a ∈ l -> f a = g a) -> flat_map f l = flat_map g l.
Proof.
  induction l as [|a l IH]; intros Hfg; [done|]. cbn [flat_map].
  rewrite Hfg by left. rewrite IH; [done|]. intros b Hb. apply Hfg. by right.
Qed.

Lemma flat_map_insert_one {A} (keys : list string) (k : string) (x : A)
    (G H : string -> list A) :
  NoDup keys -> k ∈ keys ->
  (forall b, H b = if decide (k = b) then x :: G b else G b) ->
  Permutation (flat_map H keys) (x :: flat_map G keys).
Proof.
  intros Hnodup Hin HH. induction Hnodup as [|b keys Hb Hnodup IH];
    [by apply elem_of_nil in Hin|].
  cbn [flat_map]. rewrite HH. destruct (decide (k = b)) as [<-|Hne].
  - cbn. constructor.
    rewrite (flat_map_ext_elem H G); [done|].
    intros b Hbin. rewrite HH. destruct (decide (k = b)) as [<-|]; done.
  - apply elem_of_cons in Hin as [Hin|Hin]; [done|].
    rewrite (IH Hin). by rewrite Permutation_middle.
Qed.

Lemma flat_map_filter_by_key {A} (g : Release -> A) keys rs :
  NoDup keys -> Forall (fun r => type r ∈ keys) rs ->
  Permutation
    (flat_map (fun b => map g (filter (fun rel => type rel = b) rs)) keys)
    (map g rs).
Proof.
  intros Hnodup. induction 1 as [|r rs Hr _ IH]; cbn [map].
  - rewrite (flat_map_ext_elem _ (fun _ => [])); [|done].
    induction keys; [done|]. cbn. apply IHkeys. by apply NoDup_cons in Hnodup as [_ ?].
  - rewrite <- IH.
    apply (flat_map_insert_one keys (type r) (g r)); [done|done|].
    intros b. rewrite filter_cons. by destruct (decide (type r = b)).
Qed.

Lemma zip_fst_length {A B} (l : list A) (k : list B) :
  length k = length l -> map fst (zip l k) = l.
Proof.
  revert k. induction l as [|a l IH]; intros [|b k] Hlen; try done.
  cbn. rewrite IH; [done|]. cbn in Hlen. lia.
Qed.

Lemma zip_NoDup_functional {A} (keys : list string) (table : list A) b c1 c2 :
  NoDup keys -> (b, c1) ∈ zip keys table -> (b, c2) ∈ zip keys table -> c1 = c2.
Proof.
  intros Hnodup. revert table.
  induction Hnodup as [|k keys Hk Hnodup IH]; intros [|c table] H1 H2;
    try (by apply elem_of_nil in H1).
  cbn in H1, H2. apply elem_of_cons in H1 as [H1|H1], H2 as [H2|H2].
  - congruence.
  - injection H1 as -> ->. exfalso. apply Hk.
    apply list_elem_of_In. apply list_elem_of_In in H2.
    by apply in_combine_l in H2.
  - injection H2 as -> ->. exfalso. apply Hk.
    apply list_elem_of_In. apply list_elem_of_In in H1.
    by apply in_combine_l in H1.
  - by eapply IH.
Qed.

Lemma elem_of_flat_map {A B} (f : A -> list B) l y :
  y ∈ flat_map f l <-> exists x, x ∈ l /\ y ∈ f x.
Proof.
  rewrite list_elem_of_In, in_flat_map. split; intros (x & Hx & Hy); exists x;
    by rewrite !list_elem_of_In in *.
Qed.

Lemma annotated_permutation releases bumpTypeSet (table : list (list ChangeType)) :
  NoDup bumpTypeSet ->
  Forall (fun r => type r ∈ bumpTypeSet) releases ->
  length table = length bumpTypeSet ->
  Permutation
    (map (fun r => (name r, type r))
       (flat_map (annotated releases) (zip bumpTypeSet table)))
    (map (fun r => (name r, type r)) releases).
Proof.
  intros Hnodup Hcover Hlen.
  rewrite <- (flat_map_filter_by_key (fun r => (name r, type r)) bumpTypeSet releases)
    by done.
  rewrite <- (zip_fst_length bumpTypeSet table Hlen) at 2.
  rewrite flat_map_concat_map, concat_map, map_map, <- flat_map_concat_map.
  rewrite (flat_map_concat_map _ (map fst _)), map_map, <- flat_map_concat_map.
  erewrite flat_map_ext; [reflexivity|].
  intros [b cts]. cbn [fst snd]. by rewrite map_map.
Qed.

(** X15: [getReleasesPerBumpType], for a set of bump types that holds
    the type of every release once, returns every release once, grouped
    by bump type, each with change types for exactly the chosen
    categories; releases of one type carry the same change types. *)
Theorem getReleasesPerBumpType_regroups bumpTypeSet releases chosen w out w' :
  NoDup bumpTypeSet ->
  Forall (fun r => type r ∈ bumpTypeSet) releases ->
  getReleasesPerBumpType bumpTypeSet releases chosen w = (Ok out, w') ->
  Permutation (map (fun r => (name r, type r)) out)
    (map (fun r => (name r, type r)) releases)
  /\ Forall (fun r => exists cts, changeTypes r = Some cts /\ map category cts = chosen) out
  /\ (forall r1 r2, r1 ∈ out -> r2 ∈ out -> type r1 = type r2 ->
        changeTypes r1 = changeTypes r2).
Proof.
  intros Hnodup Hcover H. unfold getReleasesPerBumpType in H.
  apply getReleasesPerBumpType_inv in H as (table & Hlen & Htable & ->).
  cbn [app].
  assert (Hmember : forall r,
            r ∈ flat_map (annotated releases) (zip bumpTypeSet table) ->
            exists cts, (type r, cts) ∈ zip bumpTypeSet table
                        /\ changeTypes r = Some cts).
  { intros r Hr. apply elem_of_flat_map in Hr as ([b cts] & Hbc & Hr).
    cbn [fst snd] in Hr. apply list_elem_of_In, in_map_iff in Hr as (rel & <- & Hrel).
    apply list_elem_of_In, list_elem_of_filter in Hrel as [Hty _].
    exists cts. cbn. by rewrite Hty. }
  split; [|split].
  - by apply annotated_permutation.
  - apply Forall_forall. intros r Hr. apply Hmember in Hr as (cts & Hin & Hcts).
    exists cts. split; [done|].
    assert (Hcts' : cts ∈ table).
    { apply list_elem_of_In. apply list_elem_of_In in Hin.
      by apply in_combine_r in Hin. }
    by eapply Forall_forall in Htable.
  - intros r1 r2 Hr1 Hr2 Hty.
    apply Hmember in Hr1 as (c1 & Hin1 & ->), Hr2 as (c2 & Hin2 & ->).
    rewrite Hty in Hin1. f_equal. by eapply zip_NoDup_functional.
Qed.

(** ** Change-type collector: one changeset per package *)

Lemma describeCategories_inv (chosen : list ChangeTypeOption) :
  forall cur (cache : gmap string string) w cur' cache' w',
  forOf chosen
    (fun category '(currChangeTypeList, previousAnswers) =>
       let* answer := getDescriptionWithPreviousAnswer previousAnswers category in
       ret (push currChangeTypeList
              {| description := fst answer; category := category |},
            snd answer))
    (cur, cache) w = (Ok (cur', cache'), w') ->
  exists new, cur' = cur ++ new /\ map category new = chosen.
Proof.
  induction chosen as [|c chosen IH]; intros cur cache w cur' cache' w' H;
    cbn [forOf] in H.
  - unfold ret in H. injection H as <- _ _. exists []. by rewrite app_nil_r.
  - apply bind_Ok_inv in H as ([cur1 cache1] & w1 & Hstep & H).
    apply bind_Ok_inv in Hstep as (answer & w2 & _ & Hret).
    unfold ret in Hret. injection Hret as <- _ _.
    apply IH in H as (new & -> & Hmap).
    exists ({| description := fst answer; category := c |} :: new).
    unfold push. rewrite <- app_assoc. split; [done|]. cbn. by rewrite Hmap.
Qed.

(** What [getReleasesPerPackage] makes of one release. *)
Local Notation "'packaged'" :=
  (fun (chosen : list ChangeTypeOption) (r : Release) (cs : ChangesetWithConfirmed) =>
     summary cs = "" /\ confirmed cs = false
     /\ exists cts, releases cs = [withChangeTypes r cts] /\ map category cts = chosen)
  (only parsing).

Lemma getReleasesPerPackage_inv chosen rs :
  forall acc (cache : gmap string string) w acc' cache' w',
  forOf rs
    (fun release '(changesetList, previousAnswers) =>
       let* inner :=
         forOf chosen
           (fun category '(currChangeTypeList, previousAnswers) =>
              let* answer := getDescriptionWithPreviousAnswer previousAnswers category in
              ret (push currChangeTypeList
                     {| description := fst answer; category := category |},
                   snd answer))
           ([], previousAnswers) in
       let releaseWithChangeTypeList := [withChangeTypes release (fst inner)] in
       ret (push changesetList
              {| releases := releaseWithChangeTypeList; summary := ""; confirmed := false |},
            snd inner))
    (acc, cache) w = (Ok (acc', cache'), w') ->
  exists new, acc' = acc ++ new /\ Forall2 (packaged chosen) rs new.
Proof.
  induction rs as [|r rs IH]; intros acc cache w acc' cache' w' H; cbn [forOf] in H.
  - unfold ret in H. injection H as <- _ _. exists []. rewrite app_nil_r.
    split; [done|constructor].
  - apply bind_Ok_inv in H as ([acc1 cache1] & w1 & Hstep & H).
    apply bind_Ok_inv in Hstep as ([cts cache2] & w2 & Hinner & Hret).
    unfold ret in Hret. cbn [fst snd] in Hret. injection Hret as <- _ _.
    apply describeCategories_inv in Hinner as (new & -> & Hnew).
    apply IH in H as (rest & -> & Hrest).
    eexists (_ :: rest). unfold push. rewrite <- app_assoc.
    split; [reflexivity|]. constructor; [|done].
    cbn. split; [done|]. split; [done|]. by exists new.
Qed.

(** X16: [getReleasesPerPackage] returns one changeset per release, in
    the order of the releases: unconfirmed, with an empty summary, and
    holding that release alone with change types for exactly the chosen
    categories. *)
Theorem getReleasesPerPackage_one_each rs chosen w out w' :
  getReleasesPerPackage rs chosen w = (Ok out, w') ->
  Forall2
    (fun r cs =>
       summary cs = "" /\ confirmed cs = false
       /\ exists cts, releases cs = [withChangeTypes r cts] /\ map category cts = chosen)
    rs out.
Proof.
  unfold getReleasesPerPackage. intros H.
  apply bind_Ok_inv in H as ([acc cache] & w1 & Hloop & Hret).
  unfold ret in Hret. cbn [fst] in Hret. injection Hret as <- _.
  by apply getReleasesPerPackage_inv in Hloop as (new & -> & Hall).
Qed.

(** X17: [getChangesetList] asks the grouping question once and returns
    one changeset for a yes and one per release for a no; every
    changeset is unconfirmed with an empty summary, and together the
    changesets hold every release once. *)
Theorem getChangesetList_counts rs chosen w out w' :
  getChangesetList rs chosen w = (Ok out, w') ->
  exists a crest,
    confirmAnswers w = a :: crest
    /\ length out = (if a then 1 else length rs)
    /\ Forall (fun cs => summary cs = "" /\ confirmed cs = false) out
    /\ Permutation
         (map (fun r => (name r, type r)) (flat_map releases out))
         (map (fun r => (name r, type r)) rs).
Proof.
  unfold getChangesetList. intros H.
  apply bind_Ok_inv in H as (a & w1 & Hask & H).
  unfold askConfirm in Hask. destruct (confirmAnswers w) as [|a' crest]; [discriminate|].
  injection Hask as -> _. exists a, crest. split; [done|]. destruct a.
  - apply bind_Ok_inv in H as (rels & w2 & Hrels & Hret).
    unfold ret in Hret. injection Hret as <- _.
    unfold getReleasesPerBumpType in Hrels.
    apply getReleasesPerBumpType_inv in Hrels as (table & Hlen & _ & ->).
    split; [done|]. split; [by repeat constructor|].
    cbn [flat_map releases app]. rewrite app_nil_r.
    apply annotated_permutation; [apply NoDup_newSet| |done].
    apply Forall_forall. intros r Hr. apply elem_of_newSet.
    apply list_elem_of_In, in_map. by apply list_elem_of_In.
  - unfold getReleasesPerPackage in H.
    apply bind_Ok_inv in H as ([acc cache] & w2 & Hloop & Hret).
    unfold ret in Hret. cbn [fst] in Hret. injection Hret as <- _.
    apply getReleasesPerPackage_inv in Hloop as (new & -> & Hall). cbn [app].
    split; [symmetry; by eapply Forall2_length|].
    split.
    + eapply Forall2_Forall_r; [exact Hall|]. apply Forall_forall.
      intros r _ cs (Hs & Hc & _). done.
    + assert (Heq : map (fun r => (name r, type r)) (flat_map releases new)
                    = map (fun r => (name r, type r)) rs); [|by rewrite Heq].
      induction Hall as [|r cs rs new (_ & _ & cts & Hcs & _) _ IH]; [done|].
      cbn [flat_map map]. rewrite Hcs. cbn. by rewrite IH.
Qed.

(** ** Summary collector: the editor and the other answers *)

Lemma askQuestion_frame question w r w' :
  askQuestion question w = (r, w') ->
  editorAnswers w' = editorAnswers w /\ confirmAnswers w' = confirmAnswers w
  /\ listAnswers w' = listAnswers w /\ checkboxAnswers w' = checkboxAnswers w.
Proof.
  unfold askQuestion. destruct (questionAnswers w); intros [= <- <-]; by cbn.
Qed.

Lemma remind_frame fuel : forall s w r w',
  whileM fuel emptyString (askQuestion summaryReminder) s w = (r, w') ->
  editorAnswers w' = editorAnswers w /\ confirmAnswers w' = confirmAnswers w
  /\ listAnswers w' = listAnswers w /\ checkboxAnswers w' = checkboxAnswers w.
Proof.
  induction fuel as [|fuel IH]; intros s w r w'; cbn [whileM];
    destruct (emptyString s); unfold fail, ret; try (by intros [= <- <-]).
  unfold bind.
  destruct (askQuestion summaryReminder w) as [r1 w1] eqn:Hask.
  apply askQuestion_frame in Hask as (He & Hc & Hl & Hb).
  destruct r1 as [s1| | | |]; try (by intros [= <- <-]).
  intros H. apply IH in H as (He' & Hc' & Hl' & Hb'). split; [|split; [|split]]; congruence.
Qed.

Lemma askUntilSummary_frame w r w' :
  askUntilSummary w = (r, w') ->
  editorAnswers w' = editorAnswers w /\ confirmAnswers w' = confirmAnswers w
  /\ listAnswers w' = listAnswers w /\ checkboxAnswers w' = checkboxAnswers w.
Proof.
  unfold askUntilSummary, bind.
  destruct (askQuestion "" w) as [r1 w1] eqn:Hask.
  apply askQuestion_frame in Hask as (He & Hc & Hl & Hb).
  destruct r1 as [s1| | | |]; try (by intros [= <- <-]).
  intros H. apply remind_frame in H as (He' & Hc' & Hl' & Hb').
  split; [|split; [|split]]; congruence.
Qed.

Lemma setSummary_inv changeSet config w r w' :
  setSummary changeSet config w = (r, w') ->
  confirmAnswers w' = confirmAnswers w
  /\ (editorAnswers w' = editorAnswers w
      \/ exists e, editorAnswers w = e :: editorAnswers w')
  /\ (forall cs, r = Ok cs ->
        releases cs = releases changeSet
        /\ (confirmed cs = true ->
            editorAnswers w = Some (summary cs) :: editorAnswers w')).
Proof.
  unfold setSummary, bind at 1.
  destruct ((if alwaysOpenEditor config then ret "" else askQuestion "Summary") w)
    as [r0 w0] eqn:Hfirst.
  assert (Hframe0 : editorAnswers w0 = editorAnswers w
                    /\ confirmAnswers w0 = confirmAnswers w).
  { destruct (alwaysOpenEditor config).
    - unfold ret in Hfirst. by injection Hfirst as _ <-.
    - by apply askQuestion_frame in Hfirst as (? & ? & _). }
  destruct Hframe0 as [He0 Hc0]. clear Hfirst.
  destruct r0 as [s0| | | |];
    try (intros [= <- <-]; split; [done|]; split; [by left|]; by intros cs [=]).
  destruct (emptyString s0).
  2:{ unfold ret. intros [= <- <-]. split; [done|]. split; [by left|].
      intros cs [= <-]. cbn. split; [done|]. discriminate. }
  unfold bind at 1, askQuestionWithEditor.
  destruct (editorAnswers w0) as [|e erest] eqn:Hea.
  { intros [= <- <-]. split; [done|]. split; [left; congruence|]. by intros cs [=]. }
  assert (Hfallback : forall r1 w1 (k : string -> M ChangesetWithConfirmed) wmid,
            editorAnswers wmid = erest -> confirmAnswers wmid = confirmAnswers w0 ->
            (forall s wk, exists cs, k s wk = (Ok cs, wk) /\ releases cs = releases changeSet
                                     /\ confirmed cs = false) ->
            bind askUntilSummary k wmid = (r1, w1) ->
            confirmAnswers w1 = confirmAnswers w
            /\ (editorAnswers w1 = editorAnswers w
                \/ exists e0, editorAnswers w = e0 :: editorAnswers w1)
            /\ (forall cs, r1 = Ok cs ->
                  releases cs = releases changeSet
                  /\ (confirmed cs = true ->
                      editorAnswers w = Some (summary cs) :: editorAnswers w1))).
  { intros r1 w1 k wmid Hmid Hcmid Hk. unfold bind.
    destruct (askUntilSummary wmid) as [r2 w2] eqn:Hloop.
    apply askUntilSummary_frame in Hloop as (He2 & Hc2 & _).
    assert (Hed : exists e0, editorAnswers w = e0 :: editorAnswers w2).
    { exists e. congruence. }
    destruct r2 as [s2| | | |];
      try (intros [= <- <-]; split; [congruence|]; split; [by right|]; by intros cs [=]).
    destruct (Hk s2 w2) as (cs & -> & Hrel & Hconf).
    intros [= <- <-]. split; [congruence|]. split; [by right|].
    intros cs' [= <-]. split; [done|]. congruence. }
  destruct e as [text|].
  - destruct (Nat.ltb 0 (String.length text)).
    + unfold ret. intros [= <- <-]. cbn. split; [done|]. split; [right; exists (Some text); congruence|].
      intros cs [= <-]. cbn. split; [done|]. intros _. congruence.
    + apply Hfallback; [done|done|]. intros s wk. eexists. by split.
  - unfold bind at 1, emit. apply Hfallback; [done|done|]. intros s wk. eexists. by split.
Qed.

(** X18: [setSummary] takes no confirmation and opens the editor at most
    once; the changeset it returns keeps its releases, and is confirmed
    only when its summary is the text the editor gave.  The summary part
    of [createChangeset] behaves the same. *)
Theorem setSummary_editor_once changeSet config w r w' :
  setSummary changeSet config w = (r, w') ->
  confirmAnswers w' = confirmAnswers w
  /\ (editorAnswers w' = editorAnswers w
      \/ exists e, editorAnswers w = e :: editorAnswers w')
  /\ (forall cs, r = Ok cs ->
        releases cs = releases changeSet
        /\ (confirmed cs = true ->
            editorAnswers w = Some (summary cs) :: editorAnswers w'))
  /\ (forall releases0 w1 cs w1',
        collectSummary releases0 w1 = (Ok cs, w1') ->
        releases cs = releases0
        /\ (confirmed cs = true ->
            editorAnswers w1 = Some (summary cs) :: editorAnswers w1')).
Proof.
  intros H. apply setSummary_inv in H as (Hc & He & Hok).
  split; [done|]. split; [done|]. split; [done|].
  intros releases0 w1 cs w1' Hrun.
  rewrite <- (collectSummary_setSummary releases0 "" false
                {| commit := None; shouldAskForChangeTypes := false;
                   alwaysOpenEditor := false |}) in Hrun by done.
  apply setSummary_inv in Hrun as (_ & _ & Hok1). by apply Hok1.
Qed.

Lemma setSummaries_inv config l : forall w l' w',
  mapM (fun changeset => setSummary changeset config) l w = (Ok l', w') ->
  Forall2 (fun cs cs' => releases cs' = releases cs /\ summary cs' <> "") l l'.
Proof.
  induction l as [|cs l IH]; intros w l' w' H; cbn [mapM] in H.
  - unfold ret in H. injection H as <- _. constructor.
  - apply bind_Ok_inv in H as (cs' & w1 & Hcs & H).
    apply bind_Ok_inv in H as (l1 & w2 & Hl & Hret).
    unfold ret in Hret. injection Hret as <- _.
    constructor; [|by eapply IH]. split.
    + by apply setSummary_inv in Hcs as (_ & _ & Hok); apply Hok.
    + by eapply setSummary_nonempty.
Qed.

(** X19: on an active collector, a completed [setSummaries] keeps the
    number of changesets and the releases of each, gives each a summary
    that is not empty, and leaves the other fields; after it
    [getFinalChangesetList] returns the list and throws nothing. *)
Theorem setSummaries_fills this w this' w' :
  Collector.isWithChangeTypes this = true ->
  setSummaries this w = (Ok this', w') ->
  Forall2 (fun cs cs' => releases cs' = releases cs /\ summary cs' <> "")
    (Collector.changesetList this) (Collector.changesetList this')
  /\ Collector.releases this' = Collector.releases this
  /\ Collector.chosenChangeTypeList this' = Collector.chosenChangeTypeList this
  /\ forall w1,
       getFinalChangesetList this' w1 = (Ok (Some (Collector.changesetList this')), w1).
Proof.
  intros Hon H. unfold setSummaries in H. rewrite Hon in H. cbn [negb] in H.
  destruct (Collector.changesetList this) as [|cs l] eqn:Hlist; [discriminate|].
  cbn [isEmpty] in H. apply bind_Ok_inv in H as (l' & w1 & Hl & Hret).
  unfold ret in Hret. injection Hret as <- _.
  apply setSummaries_inv in Hl. cbn.
  split; [done|]. split; [done|]. split; [done|].
  intros w3. unfold getFinalChangesetList. cbn.
  by inversion Hl.
Qed.

(** ** Changeset writer: what it adds to the trace *)

Lemma writeOneChangeset_events packages cwd changesetBase empty config open
    writeChangeset cs w r w' :
  writeOneChangeset packages cwd changesetBase empty config open writeChangeset cs w
    = (r, w') ->
  exists t, trace w' = trace w ++ t
            /\ Forall (writerEvent cwd config open writeChangeset cs) t.
Proof.
  destruct w as [qa ea ca la cb tr].
  unfold writeOneChangeset, bind, emit, askConfirm, ret.
  cbn [questionAnswers editorAnswers confirmAnswers listAnswers checkboxAnswers trace].
  destruct (confirmed cs) eqn:Hc; cbn [negb];
    [rewrite Hc; cbn [negb]|destruct ca as [|[] ca]; cbn [negb confirmed]];
    try (destruct (commit config) as [getAddMessage|] eqn:Hcommit);
    try (destruct open);
    cbn [questionAnswers editorAnswers confirmAnswers listAnswers checkboxAnswers trace];
    intros Hrun; injection Hrun as _ <-; cbn [trace];
    rewrite <- ?app_assoc; cbn [app];
    (eexists; split; [reflexivity|]);
    repeat constructor; cbn; rewrite ?Hcommit; done.
Qed.

Lemma writeChangesetList_events packages cwd changesetBase empty config open
    writeChangeset css : forall w r w',
  writeChangesetList css packages cwd changesetBase empty config open writeChangeset w
    = (r, w') ->
  exists t, trace w' = trace w ++ t
            /\ Forall (fun e => exists cs, cs ∈ css
                         /\ writerEvent cwd config open writeChangeset cs e) t.
Proof.
  unfold writeChangesetList.
  induction css as [|cs css IH]; intros w r w'; cbn [forOf].
  - unfold ret. intros [= <- <-]. exists []. by rewrite app_nil_r.
  - unfold bind.
    destruct (writeOneChangeset _ _ _ _ _ _ _ cs w) as [r1 w1] eqn:Hone.
    apply writeOneChangeset_events in Hone as (t1 & Ht1 & Hall1).
    assert (Hhead : Forall (fun e => exists cs0, cs0 ∈ cs :: css
                              /\ writerEvent cwd config open writeChangeset cs0 e) t1).
    { eapply Forall_impl; [exact Hall1|]. intros e He. exists cs. split; [left|done]. }
    destruct r1 as [[]| | | |];
      try (intros Hrun; injection Hrun as _ <-; by exists t1).
    intros Hrun. apply IH in Hrun as (t2 & Ht2 & Hall2).
    exists (t1 ++ t2). split; [by rewrite Ht2, Ht1, <- app_assoc|].
    apply Forall_app. split; [done|].
    eapply Forall_impl; [exact Hall2|]. intros e (cs0 & Hcs0 & He).
    exists cs0. split; [by right|done].
Qed.

(** X20: whatever the answers, a changeset that the writer persists is
    confirmed, is written to the working directory given, and has the
    summary and the releases of one of the candidates; the identifier
    recorded is the one the store returned for it. *)
Theorem writeChangesetList_persists_confirmed_only
    css packages cwd changesetBase empty config open writeChangeset w r w' t :
  writeChangesetList css packages cwd changesetBase empty config open writeChangeset w
    = (r, w') ->
  trace w' = trace w ++ t ->
  forall cs' cwd' id,
    WriteChangeset cs' cwd' id ∈ t ->
    confirmed cs' = true /\ cwd' = cwd /\ id = writeChangeset cs' cwd
    /\ exists cs, cs ∈ css /\ summary cs' = summary cs /\ releases cs' = releases cs.
Proof.
  intros Hrun Ht cs' cwd' id Hin.
  apply writeChangesetList_events in Hrun as (t' & Ht' & Hall).
  rewrite Ht' in Ht. apply app_inv_head in Ht. subst t'.
  eapply Forall_forall in Hall; [|exact Hin].
  destruct Hall as (cs & Hcs & Hconf & Hsum & Hrel & Hcwd & Hid).
  split; [done|]. split; [done|]. split; [done|]. by exists cs.
Qed.

(** X21: without a commit function the writer stages and commits nothing,
    and without the open flag it launches no editor. *)
Theorem writeChangesetList_options
    css packages cwd changesetBase empty config open writeChangeset w r w' t :
  writeChangesetList css packages cwd changesetBase empty config open writeChangeset w
    = (r, w') ->
  trace w' = trace w ++ t ->
  (commit config = None ->
   forall path message cwd', (GitAdd path cwd' ∉ t) /\ (GitCommit message cwd' ∉ t))
  /\ (open = false -> forall path, DetermineEditorHack path ∉ t).
Proof.
  intros Hrun Ht.
  apply writeChangesetList_events in Hrun as (t' & Ht' & Hall).
  rewrite Ht' in Ht. apply app_inv_head in Ht. subst t'.
  split.
  - intros Hnone path message cwd'. split; intros Hin;
      (eapply Forall_forall in Hall; [|exact Hin]);
      destruct Hall as (cs & _ & He); by apply He.
  - intros Hclosed path Hin.
    eapply Forall_forall in Hall; [|exact Hin].
    destruct Hall as (cs & _ & He). cbn in He. congruence.
Qed.

Lemma writeOneChangeset_confirmed packages cwd changesetBase empty config open
    writeChangeset cs w :
  confirmed cs = true ->
  writeOneChangeset packages cwd changesetBase empty config open writeChangeset cs w
  = (Ok tt,
     logged w (PrintConfirmation cs (Nat.ltb 1 (length packages))
               :: persistEvents cwd changesetBase config open writeChangeset cs)).
Proof.
  intros Hc. destruct w as [qa ea ca la cb tr].
  unfold writeOneChangeset, bind, emit, ret. rewrite Hc. cbn [negb].
  rewrite Hc. cbn [negb].
  unfold persistEvents, logged.
  destruct (commit config) as [getAddMessage|], open;
    cbn [questionAnswers editorAnswers confirmAnswers listAnswers checkboxAnswers trace];
    repeat rewrite <- app_assoc; reflexivity.
Qed.

(** X22: when every candidate is confirmed already, the writer asks
    nothing and completes: for each candidate, in order, the confirmation
    display and then its store and version-control events. *)
Theorem writeChangesetList_all_confirmed
    css packages cwd changesetBase empty config open writeChangeset w :
  Forall (fun cs => confirmed cs = true) css ->
  writeChangesetList css packages cwd changesetBase empty config open writeChangeset w
  = (Ok tt,
     logged w
       (flat_map
          (fun cs =>
             PrintConfirmation cs (Nat.ltb 1 (length packages))
             :: persistEvents cwd changesetBase config open writeChangeset cs)
          css)).
Proof.
  intros Hall. revert w. unfold writeChangesetList.
  induction Hall as [|cs css Hc _ IH]; intros w; cbn [forOf flat_map].
  - destruct w. unfold ret, logged. cbn. by rewrite app_nil_r.
  - unfold bind at 1. rewrite writeOneChangeset_confirmed by done.
    rewrite IH. destruct w. unfold logged. cbn.
    by rewrite <- app_assoc.
Qed.

(** ** Change-type collector: answers carried from package to package *)

Lemma getDescription_fresh (cache : gmap string string) c w d qrest :
  cache !! title c = None ->
  questionAnswers w = d :: qrest ->
  exists w1,
    getDescriptionWithPreviousAnswer cache c w
    = (Ok (d, <[title c := d]> cache), w1)
    /\ questionAnswers w1 = qrest /\ confirmAnswers w1 = confirmAnswers w.
Proof.
  intros Hnone Hq. unfold getDescriptionWithPreviousAnswer. rewrite Hnone.
  unfold bind, askQuestion, ret. rewrite Hq. by eexists.
Qed.

Lemma getDescription_reused (cache : gmap string string) c w d crest :
  cache !! title c = Some d ->
  truthy d = true ->
  confirmAnswers w = true :: crest ->
  exists w1,
    getDescriptionWithPreviousAnswer cache c w = (Ok (d, cache), w1)
    /\ questionAnswers w1 = questionAnswers w /\ confirmAnswers w1 = crest.
Proof.
  intros Hsome Hd Hc. unfold getDescriptionWithPreviousAnswer. rewrite Hsome, Hd.
  unfold bind, askConfirm, ret. rewrite Hc. by eexists.
Qed.

(** The loop over the categories for one package. *)
Local Notation "'describeCategories'" :=
  (fun (chosen : list ChangeTypeOption) (st : list ChangeType * gmap string string) =>
     forOf chosen
       (fun category '(currChangeTypeList, previousAnswers) =>
          let* answer := getDescriptionWithPreviousAnswer previousAnswers category in
          ret (push currChangeTypeList
                 {| description := fst answer; category := category |},
               snd answer))
       st)
  (only parsing).

Lemma describeCategories_fresh qrest chosen :
  forall ds cur (cache : gmap string string) w,
  length ds = length chosen ->
  NoDup (map title chosen) ->
  (forall c, c ∈ chosen -> cache !! title c = None) ->
  questionAnswers w = ds ++ qrest ->
  exists cache' w',
    describeCategories chosen (cur, cache) w
    = (Ok (cur ++ describe ds chosen, cache'), w')
    /\ questionAnswers w' = qrest /\ confirmAnswers w' = confirmAnswers w
    /\ (forall t d, cache !! t = Some d -> cache' !! t = Some d)
    /\ Forall2 (fun c d => cache' !! title c = Some d) chosen ds.
Proof.
  induction chosen as [|c chosen IH]; intros ds cur cache w Hlen Hnodup Hnone Hq.
  - destruct ds; [|discriminate]. exists cache, w. cbn [forOf]. unfold ret, describe.
    cbn. rewrite app_nil_r. by repeat split.
  - destruct ds as [|d ds]; [discriminate|]. injection Hlen as Hlen.
    cbn [map] in Hnodup. apply NoDup_cons in Hnodup as [Hfirst Hnodup].
    destruct (getDescription_fresh cache c w d (ds ++ qrest)) as (w1 & Hask & Hq1 & Hc1);
      [apply Hnone; left|done|].
    destruct (IH ds (push cur {| description := d; category := c |})
                (<[title c := d]> cache) w1 Hlen Hnodup)
      as (cache' & w' & Hrun & Hq' & Hc' & Hmono & Hall); [|done|].
    { intros c' Hc'. rewrite lookup_insert_ne; [apply Hnone; by right|].
      intros Heq. apply Hfirst. rewrite Heq. apply list_elem_of_In, in_map.
      by apply list_elem_of_In. }
    exists cache', w'. cbn [forOf].
    erewrite bind_Ok; [|erewrite bind_Ok; [|exact Hask]; reflexivity].
    cbn [fst snd]. rewrite Hrun. unfold push, describe. cbn [zip_with].
    rewrite <- app_assoc. split; [done|]. split; [done|]. split; [congruence|].
    split.
    + intros t d0 Ht. apply Hmono. rewrite lookup_insert_ne; [done|].
      intros <-. rewrite Hnone in Ht; [discriminate|left].
    + constructor; [|done]. apply Hmono. by rewrite lookup_insert_eq.
Qed.

Lemma describeCategories_reused crest (cache : gmap string string) chosen ds :
  Forall2 (fun c d => cache !! title c = Some d /\ truthy d = true) chosen ds ->
  forall cur w,
  confirmAnswers w = repeat true (length chosen) ++ crest ->
  exists w',
    describeCategories chosen (cur, cache) w
    = (Ok (cur ++ describe ds chosen, cache), w')
    /\ questionAnswers w' = questionAnswers w /\ confirmAnswers w' = crest.
Proof.
  induction 1 as [|c d chosen ds [Hsome Hd] _ IH]; intros cur w Hc.
  - exists w. cbn [forOf]. unfold ret, describe. cbn. by rewrite app_nil_r.
  - cbn [length repeat app] in Hc.
    destruct (getDescription_reused cache c w d _ Hsome Hd Hc) as (w1 & Hask & Hq1 & Hc1).
    destruct (IH (push cur {| description := d; category := c |}) w1 Hc1)
      as (w' & Hrun & Hq' & Hc').
    exists w'. cbn [forOf].
    erewrite bind_Ok; [|erewrite bind_Ok; [|exact Hask]; reflexivity].
    cbn [fst snd]. rewrite Hrun. unfold push, describe. cbn [zip_with].
    rewrite <- app_assoc. split; [done|]. split; congruence.
Qed.

Lemma getReleasesPerPackage_reused crest (cache : gmap string string) chosen ds rs :
  Forall2 (fun c d => cache !! title c = Some d /\ truthy d = true) chosen ds ->
  forall acc w,
  confirmAnswers w = repeat true (length rs * length chosen) ++ crest ->
  exists w',
    forOf rs
      (fun release '(changesetList, previousAnswers) =>
         let* inner := describeCategories chosen ([], previousAnswers) in
         let releaseWithChangeTypeList := [withChangeTypes release (fst inner)] in
         ret (push changesetList
                {| releases := releaseWithChangeTypeList; summary := "";
                   confirmed := false |},
              snd inner))
      (acc, cache) w
    = (Ok (acc ++ map (packageChangeset (describe ds chosen)) rs, cache), w')
    /\ questionAnswers w' = questionAnswers w /\ confirmAnswers w' = crest.
Proof.
  intros Hcache. induction rs as [|r rs IH]; intros acc w Hc.
  - exists w. cbn [forOf map]. unfold ret. by rewrite app_nil_r.
  - cbn [length Nat.mul] in Hc. rewrite repeat_app, <- app_assoc in Hc.
    destruct (describeCategories_reused _ cache chosen ds Hcache [] w Hc)
      as (w1 & Hinner & Hq1 & Hc1).
    destruct (IH (push acc (packageChangeset (describe ds chosen) r)) w1 Hc1)
      as (w' & Hrun & Hq' & Hc').
    exists w'. cbn [forOf].
    erewrite bind_Ok; [|erewrite bind_Ok; [|exact Hinner]; reflexivity].
    cbn [fst snd app]. unfold packageChangeset at 1 in Hrun.
    rewrite Hrun. unfold push. cbn [map]. rewrite <- app_assoc.
    split; [done|]. split; congruence.
Qed.

(** X23: over categories with distinct titles, when the descriptions
    typed for the first package are not empty and every offer to reuse
    one is accepted, [getReleasesPerPackage] asks the category questions
    for the first package only, takes one confirmation for each category
    of each later package, and gives every package the descriptions of
    the first. *)
Theorem getReleasesPerPackage_all_reused r rs chosen ds qrest crest w :
  NoDup (map title chosen) ->
  length ds = length chosen ->
  Forall (fun d => truthy d = true) ds ->
  questionAnswers w = ds ++ qrest ->
  confirmAnswers w = repeat true (length rs * length chosen) ++ crest ->
  exists w',
    getReleasesPerPackage (r :: rs) chosen w
    = (Ok (map (packageChangeset (describe ds chosen)) (r :: rs)), w')
    /\ questionAnswers w' = qrest /\ confirmAnswers w' = crest.
Proof.
  intros Hnodup Hlen Hds Hq Hc.
  destruct (describeCategories_fresh qrest chosen ds [] ∅ w Hlen Hnodup)
    as (cache & w1 & Hfirst & Hq1 & Hc1 & _ & Hcache); [|done|].
  { intros c _. apply lookup_empty. }
  assert (Hcache' : Forall2 (fun c d => cache !! title c = Some d /\ truthy d = true)
                      chosen ds).
  { clear -Hcache Hds. induction Hcache as [|c d chosen ds Hcd _ IH]; [constructor|].
    apply Forall_cons in Hds as [Hd Hds]. constructor; [done|by apply IH]. }
  destruct (getReleasesPerPackage_reused crest cache chosen ds rs Hcache'
              (push [] (packageChangeset (describe ds chosen) r)) w1)
    as (w' & Hrest & Hq' & Hc'); [congruence|].
  exists w'. unfold getReleasesPerPackage. cbn [forOf].
  erewrite bind_Ok;
    [|erewrite bind_Ok;
      [|erewrite bind_Ok; [|exact Hfirst]; reflexivity];
      cbn [fst snd app]; unfold packageChangeset at 1 in Hrest; exact Hrest].
  unfold ret. cbn [fst map app]. split; [done|]. split; congruence.
Qed.

(** ** The whole questionnaire *)

(** X24: a completed [createChangeset] had at least one package to work
    on; its releases are those of the selection, which completed first,
    its summary is not empty, the summary part took no confirmation, and
    the changeset is confirmed only when the summary is the text the
    editor gave. *)
Theorem createChangeset_completed changedPackages allPackages w cs w' :
  createChangeset changedPackages allPackages w = (Ok cs, w') ->
  allPackages <> []
  /\ exists rels w1,
       selectReleases changedPackages allPackages w = (Ok rels, w1)
       /\ releases cs = rels
       /\ summary cs <> ""
       /\ confirmAnswers w' = confirmAnswers w1
       /\ (confirmed cs = true ->
           editorAnswers w1 = Some (summary cs) :: editorAnswers w').
Proof.
  unfold createChangeset. intros H.
  apply bind_Ok_inv in H as (rels & w1 & Hsel & Hsum).
  split.
  - intros ->. unfold selectReleases in Hsel. cbn in Hsel. discriminate.
  - exists rels, w1. split; [done|].
    pose proof (collectSummary_nonempty _ _ _ _ Hsum) as Hne.
    rewrite <- (collectSummary_setSummary rels "" false
                  {| commit := None; shouldAskForChangeTypes := false;
                     alwaysOpenEditor := false |}) in Hsum by done.
    apply setSummary_inv in Hsum as (Hc & _ & Hok).
    destruct (Hok cs eq_refl) as [Hrel Hconf]. by repeat split.
Qed.

End Questionnaire.

(** * The model on concrete sessions *)

(** Two minor releases: the split content has the bullet of the first,
    the unsplit content the bullets of both. *)
Lemma getChangesetContent_single_bump_type_witness :
  getChangesetContent [sampleRelease; secondRelease] "fix" true
    = Some (getReleasesSection [sampleRelease; secondRelease] +:+ (LF +:+ "  ")
            +:+ ("- [ Added ] d" +:+ LF) +:+ summaryBlock "fix")
  /\ getChangesetContent [sampleRelease; secondRelease] "fix" false
    = Some (getReleasesSection [sampleRelease; secondRelease]
            +:+ (" " +:+ LF +:+ "    ")
            +:+ ("- [ Added ] d" +:+ LF +:+ "- [ Added ] e" +:+ LF)
            +:+ summaryBlock "fix").
Proof.
  destruct (getChangesetContent_single_bump_type sampleRelease [secondRelease]
              "minor" "fix") as (Hsplit & Hjoint & _).
  - right. by left.
  - by repeat constructor.
  - reflexivity.
  - split; [exact Hsplit|exact Hjoint].
Defined.

(** A group label alone is no answer of the multi-select over a group
    that has entries; scripted all the same, it passes the emptiness test
    and is filtered to nothing. *)
Lemma getPackagesToRelease_only_group_label :
  fst (getPackagesToRelease ["pkg-a"] twoPackages
         (script [] [] [] [] [["changed packages"]]))
  = Ok [].
Proof. vm_compute. reflexivity. Qed.


(** One package at 1.0.0, patch, the summary typed at the console. *)
Lemma createChangeset_summary_console_or_editor_witness :
  fst (createChangeset sampleSemverLt [] (onePackage "1.0.0")
         (script ["fix bug"] [] [] ["patch"] []))
  = Ok {| releases := [mkRelease "pkg-a" "patch"]; summary := "fix bug";
          confirmed := false |}.
Proof.
  edestruct (createChangeset_summary_console_or_editor sampleSemverLt []
               (onePackage "1.0.0") (script ["fix bug"] [] [] ["patch"] []))
    as (Hconsole & _); [vm_compute; reflexivity|].
  destruct (Hconsole "fix bug" [] ltac:(discriminate) eq_refl) as (w' & Hrun & _).
  rewrite Hrun. reflexivity.
Defined.


(** The scenario of the two packages: both picked at major, the first
    major of [pkg-a] declined, nothing picked at minor and patch. *)
Lemma selectReleases_declined_major_stays_in_pool_witness :
  fst (selectReleases sampleSemverLt [] twoPackages declinedSession)
  = Ok [mkRelease "pkg-b" "major"; mkRelease "pkg-a" "none"].
Proof.
  destruct (selectReleases_declined_major_stays_in_pool sampleSemverLt []
              twoPackages declinedSession ["pkg-a"; "pkg-b"]
              (logged (script [] [] [false] [] [["pkg-a"; "pkg-b"]; []; []])
                 [AskCheckboxPlus initialQuestion (initialChoices [] twoPackages)
                    ["pkg-a"; "pkg-b"]])
              ["pkg-a"; "pkg-b"] [[]; []] [("pkg-a", false)] [])
    as (choices & _ & _ & _ & _ & Hswept & _).
  - cbn. lia.
  - vm_compute. reflexivity.
  - discriminate.
  - apply (bool_decide_unpack _). by vm_compute.
  - reflexivity.
  - apply (bool_decide_unpack _). by vm_compute.
  - apply (bool_decide_unpack _). by vm_compute.
  - vm_compute. reflexivity.
  - reflexivity.
  - destruct (Hswept [] eq_refl) as (w' & Hrun & _).
    + vm_compute. discriminate.
    + rewrite Hrun. vm_compute. reflexivity.
Defined.

(** One package below 1.0.0, major, the confirmation declined. *)
Lemma createChangeset_single_major_witness :
  fst (createChangeset sampleSemverLt [] (onePackage "0.5.0")
         (script ["never asked"] [] [false] ["major"] []))
  = ExitError 1.
Proof.
  destruct (proj1 (createChangeset_single_major sampleSemverLt []
                     {| Pkg.packageJson := {| Pkg.name := "pkg-a"; Pkg.version := "0.5.0" |} |}
                     (script ["never asked"] [] [false] ["major"] []) [] eq_refl)
              eq_refl [] eq_refl)
    as (w' & Hrun & _).
  unfold onePackage. rewrite Hrun. reflexivity.
Defined.

(** A declined changeset followed by a confirmed one: one write, one
    commit, both for the second. *)
Lemma writeChangesetList_skips_declined_witness :
  let w := script [] [] [false] [] [] in
  writeChangesetList [draft "first" false; draft "second" true] twoPackages
    "/repo" "/repo/.changeset" false sampleConfig false (fun _ _ => "abcdefg") w
  = (Ok tt,
     logged (script [] [] [] [] [])
       [PrintConfirmation (draft "first" false) true;
        AskConfirm desiredChangesetQuestion false;
        PrintConfirmation (draft "second" true) true;
        WriteChangeset (draft "second" true) "/repo" "abcdefg";
        GitAdd "/repo/.changeset/abcdefg.md" "/repo";
        GitCommit "docs(changeset): add changeset" "/repo";
        WarnIfMajor (draft "second" true)]).
Proof.
  intros w.
  refine (eq_trans
            (proj1 (writeChangesetList_skips_declined [] (draft "first" false)
                      [draft "second" true] twoPackages "/repo" "/repo/.changeset"
                      false sampleConfig false (fun _ _ => "abcdefg") w w eq_refl)
               eq_refl [] eq_refl) _).
  vm_compute. reflexivity.
Defined.

(** A stored answer, reused. *)
Lemma getDescriptionWithPreviousAnswer_reuse_witness :
  fst (getDescriptionWithPreviousAnswer sampleCache
         sampleCategory (script [] [] [true] [] []))
  = Ok ("first description", sampleCache).
Proof.
  destruct (proj1 (getDescriptionWithPreviousAnswer_reuse
                     sampleCache sampleCategory
                     (script [] [] [true] [] []))
              "first description" [] ltac:(vm_compute; reflexivity)
              ltac:(discriminate) eq_refl)
    as (w' & Hrun & _).
  rewrite Hrun. reflexivity.
Defined.

(** The flag off: nothing is asked and the final list is [undefined]. *)
Lemma inactive_collector_is_silent_witness :
  let w := script [] [] [] [] [] in
  let this := newCollector sampleConfig in
  setChangeTypeList [sampleCategory] this w = (Ok this, w)
  /\ getFinalChangesetList this w = (Ok None, w).
Proof.
  intros w this.
  destruct (inactive_collector_is_silent [sampleCategory] sampleConfig)
    as (Hoff & _ & Hsilent).
  split; [exact (Hoff eq_refl w)|].
  exact (proj2 (proj2 (proj2 (Hsilent this eq_refl w [])))).
Defined.

(** * More concrete runs *)

Lemma getChangesetContent_null_iff_witness :
  getChangesetContent [mkRelease "pkg-a" "patch"] "fix" true = None.
Proof.
  apply (proj2 (getChangesetContent_null_iff [mkRelease "pkg-a" "patch"] "fix" true)).
  by repeat constructor.
Defined.

Lemma getChangeTypesSection_empty_descriptions_witness :
  getChangeTypesSection
    [{| name := "pkg-a"; type := "patch";
        changeTypes := Some [{| description := ""; category := sampleCategory |}] |}]
    (Some "patch")
  = LF.
Proof.
  apply (proj1 (getChangeTypesSection_empty_descriptions
                  [{| name := "pkg-a"; type := "patch";
                      changeTypes :=
                        Some [{| description := ""; category := sampleCategory |}] |}]
                  ltac:(repeat constructor))).
Defined.

Lemma getChangesetContent_split_drops_bullets_witness :
  let rs := [{| name := "pkg-a"; type := "none";
                changeTypes := Some [{| description := "d"; category := sampleCategory |}] |}] in
  getChangesetContent rs "fix" true
  = Some (getReleasesSection rs +:+ LF +:+ "  " +:+ LF +:+ summaryBlock "fix").
Proof.
  intros rs.
  apply (getChangesetContent_split_drops_bullets rs "none" "fix");
    [repeat constructor|discriminate|discriminate|discriminate|reflexivity].
Defined.

Lemma getPackagesToRelease_choices_witness :
  initialChoices ["pkg-a"] twoPackages <> []
  /\ Forall (fun x => x <> "changed packages" /\ x <> "unchanged packages")
       ["pkg-a"].
Proof.
  destruct (getPackagesToRelease_choices ["pkg-a"] twoPackages) as (_ & Hshown & Hsel).
  split; [apply Hshown; discriminate|].
  apply (Hsel (script [] [] [] [] [["changed packages"; "pkg-a"]]) ["pkg-a"]
           (logged (script [] [] [] [] [])
              [AskCheckboxPlus initialQuestion (initialChoices ["pkg-a"] twoPackages)
                 ["changed packages"; "pkg-a"]])).
  - cbn. lia.
  - vm_compute. reflexivity.
Defined.

Lemma selectReleases_unknown_package_witness :
  fst (selectReleases sampleSemverLt [] twoPackages
         (script [] [] [] [] [["pkg-a"; "pkg-z"]]))
  = TypeError.
Proof.
  rewrite (selectReleases_unknown_package sampleSemverLt [] twoPackages
             (script [] [] [] [] [["pkg-a"; "pkg-z"]]) ["pkg-a"; "pkg-z"] [] "pkg-z"
             ltac:(cbn; lia) eq_refl ltac:(right; left)
             ltac:(discriminate) ltac:(discriminate)).
  - reflexivity.
  - intros Hin. apply list_elem_of_In in Hin. vm_compute in Hin.
    intuition discriminate.
Defined.

Lemma selectReleases_nothing_picked_witness :
  fst (selectReleases sampleSemverLt [] twoPackages
         (script [] [] [] [] [["pkg-b"; "pkg-a"]; []; []; []]))
  = Ok [mkRelease "pkg-b" "none"; mkRelease "pkg-a" "none"].
Proof.
  destruct (selectReleases_nothing_picked sampleSemverLt [] twoPackages
              (script [] [] [] [] [["pkg-b"; "pkg-a"]; []; []; []])
              ["pkg-b"; "pkg-a"] [] ltac:(cbn; lia) eq_refl)
    as (w' & Hrun & _).
  - vm_compute. discriminate.
  - vm_compute. repeat constructor.
  - rewrite Hrun. vm_compute. reflexivity.
Defined.

Lemma selectReleases_releases_every_selected_witness :
  exists r, r ∈ declinedReleases /\ name r = "pkg-a".
Proof.
  refine (proj1 (selectReleases_releases_every_selected sampleSemverLt []
                   twoPackages declinedSession ["pkg-a"; "pkg-b"]
                   (logged (script [] [] [false] [] [["pkg-a"; "pkg-b"]; []; []])
                      [AskCheckboxPlus initialQuestion (initialChoices [] twoPackages)
                         ["pkg-a"; "pkg-b"]])
                   declinedReleases
                   (logged (script [] [] [] [] []) declinedTrace) _ _ _) "pkg-a" _).
  - cbn. lia.
  - vm_compute. reflexivity.
  - vm_compute. reflexivity.
  - left.
Defined.

Lemma selectReleases_major_needs_consent_witness :
  AskConfirm (firstMajorQuestion "pkg-b") true ∈ declinedTrace
  \/ exists pj, newPkgMap twoPackages !! "pkg-b" = Some pj
                /\ sampleSemverLt (Pkg.version pj) "1.0.0" = false.
Proof.
  refine (selectReleases_major_needs_consent sampleSemverLt [] twoPackages
            declinedSession declinedReleases
            (logged (script [] [] [] [] []) declinedTrace) declinedTrace
            _ _ _ (mkRelease "pkg-b" "major") _ _).
  - cbn. lia.
  - vm_compute. reflexivity.
  - reflexivity.
  - left.
  - reflexivity.
Defined.

Lemma selectReleases_single_one_release_witness :
  exists t lrest,
    ["minor"] = t :: lrest /\ [mkRelease "pkg-a" "minor"] = [mkRelease "pkg-a" t].
Proof.
  destruct (selectReleases_single_one_release sampleSemverLt []
              {| Pkg.packageJson := {| Pkg.name := "pkg-a"; Pkg.version := "1.0.0" |} |}
              (script [] [] [] ["minor"] []) [mkRelease "pkg-a" "minor"]
              (logged (script [] [] [] [] [])
                 [AskList "What kind of change is this for pkg-a? (current version is 1.0.0)"
                    ["patch"; "minor"; "major"] "minor"]))
    as (t & lrest & Hla & Hrels & _).
  - vm_compute. reflexivity.
  - by exists t, lrest.
Defined.

Lemma setChangeTypeList_chosen_witness :
  fst (setChangeTypeList sampleTable (newCollector activeConfig)
         (script [] [] [] [] [["Changed"; "Removed"]]))
  = TypeError.
Proof.
  apply (proj2 (setChangeTypeList_chosen sampleTable (newCollector activeConfig)
                  (script [] [] [] [] [["Changed"; "Removed"]])
                  ["Changed"; "Removed"] [] eq_refl eq_refl) "Removed").
  - right. left.
  - intros Hin. apply list_elem_of_In in Hin. vm_compute in Hin.
    intuition discriminate.
Defined.

Lemma collector_out_of_order_witness :
  setChangesetList (listless [sampleCategory]) (script [] [] [true] [] [])
  = (Throw "releases and chosenChangeTypeList must be set", script [] [] [true] [] [])
  /\ getFinalChangesetList (listless [sampleCategory]) (script [] [] [true] [] [])
     = (Throw "changesetList must be set", script [] [] [true] [] []).
Proof.
  destruct (collector_out_of_order (listless [sampleCategory])
              (script [] [] [true] [] []) eq_refl) as (Hlist & Hfinal & _).
  split; [apply Hlist; by left|]. by apply Hfinal.
Defined.

Lemma writeChangesetList_all_confirmed_witness :
  fst (writeChangesetList [draft "first" true; draft "second" true] twoPackages
         "/repo" "/repo/.changeset" false sampleConfig false (fun _ _ => "abcdefg")
         (script [] [] [] [] []))
  = Ok tt.
Proof.
  rewrite (writeChangesetList_all_confirmed [draft "first" true; draft "second" true]
             twoPackages "/repo" "/repo/.changeset" false sampleConfig false
             (fun _ _ => "abcdefg") (script [] [] [] [] [])
             ltac:(repeat constructor)).
  reflexivity.
Defined.

Lemma getReleasesPerBumpType_regroups_witness :
  map (fun r => (name r, type r))
    [withChangeTypes (mkRelease "pkg-b" "minor") (described "m1");
     withChangeTypes (mkRelease "pkg-a" "patch") (described "p1");
     withChangeTypes (mkRelease "pkg-c" "patch") (described "p1")]
  ≡ₚ map (fun r => (name r, type r)) mixedReleases.
Proof.
  eapply (getReleasesPerBumpType_regroups ["minor"; "patch"] mixedReleases
            [sampleCategory] (script ["m1"; "p1"] [] [] [] [])).
  - apply (bool_decide_unpack _). by vm_compute.
  - apply (bool_decide_unpack _). by vm_compute.
  - vm_compute. reflexivity.
Defined.

Lemma getReleasesPerPackage_one_each_witness :
  Forall2
    (fun r cs =>
       summary cs = "" /\ confirmed cs = false
       /\ exists cts, releases cs = [withChangeTypes r cts]
                      /\ map category cts = [sampleCategory])
    [mkRelease "pkg-a" "patch"; mkRelease "pkg-b" "minor"]
    [packageChangeset (described "first") (mkRelease "pkg-a" "patch");
     packageChangeset (described "first") (mkRelease "pkg-b" "minor")].
Proof.
  eapply (getReleasesPerPackage_one_each
            [mkRelease "pkg-a" "patch"; mkRelease "pkg-b" "minor"] [sampleCategory]
            (script ["first"] [] [true] [] [])).
  vm_compute. reflexivity.
Defined.

Lemma getChangesetList_counts_witness :
  exists a crest,
    [false; true] = a :: crest
    /\ length [packageChangeset (described "first") (mkRelease "pkg-a" "patch");
               packageChangeset (described "first") (mkRelease "pkg-b" "minor")]
       = (if a then 1 else 2).
Proof.
  destruct (getChangesetList_counts
              [mkRelease "pkg-a" "patch"; mkRelease "pkg-b" "minor"] [sampleCategory]
              (script ["first"] [] [false; true] [] [])
              [packageChangeset (described "first") (mkRelease "pkg-a" "patch");
               packageChangeset (described "first") (mkRelease "pkg-b" "minor")]
              (logged (script [] [] [] [] [])
                 [AskConfirm
                    "Would you like to reuse the same message for all packages of this bump type?"
                    false;
                  AskQuestion "[ Added ]" "first";
                  AskConfirm (reuseQuestion "first") true]))
    as (a & crest & Hanswers & Hlen & _).
  - vm_compute. reflexivity.
  - by exists a, crest.
Defined.

Lemma setSummary_editor_once_witness :
  releases (confirmedCopy (draft "from editor" false)) = releases (draft "" false)
  /\ (confirmed (confirmedCopy (draft "from editor" false)) = true ->
      [Some "from editor"]
      = Some (summary (confirmedCopy (draft "from editor" false))) :: []).
Proof.
  refine (proj1 (proj2 (proj2 (setSummary_editor_once (draft "" false) sampleConfig
                                 (script [""] [Some "from editor"] [] [] [])
                                 (Ok (confirmedCopy (draft "from editor" false)))
                                 (logged (script [] [] [] [] [])
                                    [AskQuestion "Summary" "";
                                     AskQuestionWithEditor editorPlaceholder
                                       (Some "from editor")])
                                 _)))
            (confirmedCopy (draft "from editor" false)) eq_refl).
  vm_compute. reflexivity.
Defined.

Lemma setSummaries_fills_witness :
  Forall2 (fun cs cs' => releases cs' = releases cs /\ summary cs' <> "")
    [draft "" false; draft "" false] [draft "typed" false; draft "again" false].
Proof.
  refine (proj1 (setSummaries_fills (drafted [draft "" false; draft "" false])
                   (script ["typed"; "again"] [] [] [] [])
                   (drafted [draft "typed" false; draft "again" false])
                   (logged (script [] [] [] [] [])
                      [AskQuestion "Summary" "typed"; AskQuestion "Summary" "again"])
                   eq_refl _)).
  vm_compute. reflexivity.
Defined.

Lemma writeChangesetList_persists_confirmed_only_witness :
  confirmed (confirmedCopy (draft "first" false)) = true
  /\ "/repo" = "/repo"
  /\ "abcdefg" = "abcdefg"
  /\ exists cs, cs ∈ [draft "first" false; draft "second" false]
                /\ summary (confirmedCopy (draft "first" false)) = summary cs
                /\ releases (confirmedCopy (draft "first" false)) = releases cs.
Proof.
  refine (writeChangesetList_persists_confirmed_only
            [draft "first" false; draft "second" false] twoPackages
            "/repo" "/repo/.changeset" false activeConfig false (fun _ _ => "abcdefg")
            (script [] [] [true; false] [] []) (Ok tt)
            (logged (script [] [] [] [] [])
               [PrintConfirmation (draft "first" false) true;
                AskConfirm desiredChangesetQuestion true;
                WriteChangeset (confirmedCopy (draft "first" false)) "/repo" "abcdefg";
                WarnIfMajor (confirmedCopy (draft "first" false));
                PrintConfirmation (draft "second" false) true;
                AskConfirm desiredChangesetQuestion false])
            _ _ eq_refl
            (confirmedCopy (draft "first" false)) "/repo" "abcdefg" _).
  - vm_compute. reflexivity.
  - right. right. left.
Defined.

Lemma writeChangesetList_options_witness :
  (GitAdd "/repo/.changeset/abcdefg.md" "/repo"
     ∉ [PrintConfirmation (draft "first" true) true;
        WriteChangeset (draft "first" true) "/repo" "abcdefg";
        WarnIfMajor (draft "first" true)])
  /\ (GitCommit "docs(changeset): add changeset" "/repo"
        ∉ [PrintConfirmation (draft "first" true) true;
           WriteChangeset (draft "first" true) "/repo" "abcdefg";
           WarnIfMajor (draft "first" true)]).
Proof.
  refine (proj1 (writeChangesetList_options [draft "first" true] twoPackages
                   "/repo" "/repo/.changeset" false activeConfig false
                   (fun _ _ => "abcdefg") (script [] [] [] [] []) (Ok tt)
                   (logged (script [] [] [] [] [])
                      [PrintConfirmation (draft "first" true) true;
                       WriteChangeset (draft "first" true) "/repo" "abcdefg";
                       WarnIfMajor (draft "first" true)])
                   _ _ eq_refl) eq_refl
            "/repo/.changeset/abcdefg.md" "docs(changeset): add changeset" "/repo").
  vm_compute. reflexivity.
Defined.

Lemma getReleasesPerPackage_all_reused_witness :
  exists w',
    getReleasesPerPackage
      [mkRelease "pkg-a" "patch"; mkRelease "pkg-b" "minor"; mkRelease "pkg-c" "patch"]
      sampleTable (script ["one"; "two"; "Summary"] [] [true; true; true; true; false] [] [])
    = (Ok (map (packageChangeset (describe ["one"; "two"] sampleTable))
             [mkRelease "pkg-a" "patch"; mkRelease "pkg-b" "minor";
              mkRelease "pkg-c" "patch"]), w')
    /\ questionAnswers w' = ["Summary"] /\ confirmAnswers w' = [false].
Proof.
  apply (getReleasesPerPackage_all_reused (mkRelease "pkg-a" "patch")
           [mkRelease "pkg-b" "minor"; mkRelease "pkg-c" "patch"] sampleTable
           ["one"; "two"] ["Summary"] [false]
           (script ["one"; "two"; "Summary"] [] [true; true; true; true; false] [] [])).
  - apply (bool_decide_unpack _). by vm_compute.
  - reflexivity.
  - by repeat constructor.
  - reflexivity.
  - reflexivity.
Defined.

Lemma createChangeset_completed_witness :
  onePackage "1.0.0" <> []
  /\ exists rels w1,
       selectReleases sampleSemverLt [] (onePackage "1.0.0")
         (script ["typed"] [] [] ["minor"] []) = (Ok rels, w1)
       /\ releases {| releases := [mkRelease "pkg-a" "minor"]; summary := "typed";
                      confirmed := false |} = rels
       /\ "typed" <> ""
       /\ confirmAnswers (script [] [] [] [] []) = confirmAnswers w1
       /\ (false = true -> editorAnswers w1 = [Some "typed"]).
Proof.
  eapply (createChangeset_completed sampleSemverLt [] (onePackage "1.0.0")
            (script ["typed"] [] [] ["minor"] [])
            {| releases := [mkRelease "pkg-a" "minor"]; summary := "typed";
               confirmed := false |}
            (logged (script [] [] [] [] [])
               [AskList "What kind of change is this for pkg-a? (current version is 1.0.0)"
                  ["patch"; "minor"; "major"] "minor";
                AskQuestion "Summary" "typed"])).
  vm_compute. reflexivity.
Defined.
